(** * The resilient request orchestrator of [script.js]

    A shallow embedding of the outbound-request core of the page script:
    the usage monitor ([apiUsageMonitor]), the sliding rate window
    ([apiRequestQueue]), the backoff policy ([getRetryDelay]), the fallback
    cascade ([makeApiRequestWithMultiFallback]), the plain retry loop
    ([makeApiRequestWithRetry]) and the stream decoders ([streamingApiCall]
    and the fallback stream of [createFallbackCall], inside
    [streamResponse]); and of two helpers of the page,
    [updateConversationHistory] and the WAV encoder [audioBufferToWav].

    Conventions of the embedding.
    - A JavaScript string is the list of its UTF-16 code units.
    - Integer-valued JavaScript numbers (counters, millisecond timestamps,
      list lengths) are [Z]; they stay far below 2^53, where binary64
      arithmetic on integers is exact.  The retry delay, with its power of
      two and its random jitter, is computed on binary64 floats; so are,
      of the quotients the script forms, [failed / recent > 0.7] and
      [(success / total * 100).toFixed(1)]; the mean time between calls is
      an exact rational (see [avgTimeBetweenCalls]).
    - [Date.now()], [Math.random()], the network and the DOM are the
      environment: clock readings and call outcomes are supplied by oracles,
      console output and DOM writes are recorded as a trace of events. *)

From Stdlib Require Import List ZArith NArith QArith Bool Lia Sorted.
From Stdlib Require Import Ascii String DecimalString.
From Stdlib Require Decimal DecimalPos.
From Stdlib Require Import Floats Uint63.
Import ListNotations.

Set Implicit Arguments.

Local Open Scope Z_scope.

(* ================================================================== *)
(** * Part I.  The embedding                                            *)
(* ================================================================== *)

(** ** JavaScript strings *)

Module JsString.

Definition code_unit := N.
Definition jsstring := list code_unit.

(** A literal of the source, as its code units. *)
Definition str (s : string) : jsstring :=
  map N_of_ascii (list_ascii_of_string s).

Fixpoint eqb (s t : jsstring) : bool :=
  match s, t with
  | [], [] => true
  | a :: s', b :: t' => N.eqb a b && eqb s' t'
  | _, _ => false
  end.

(** [s.startsWith(p)] *)
Fixpoint startsWith (p s : jsstring) : bool :=
  match p, s with
  | [], _ => true
  | a :: p', b :: s' => N.eqb a b && startsWith p' s'
  | _ :: _, [] => false
  end.

(** [hay.includes(needle)] *)
Fixpoint includes (needle hay : jsstring) : bool :=
  startsWith needle hay
  || match hay with
     | [] => false
     | _ :: hay' => includes needle hay'
     end.

(** [s.split(sep)] for a one-character separator: never the empty list. *)
Fixpoint split (sep : code_unit) (s : jsstring) : list jsstring :=
  match s with
  | [] => [[]]
  | c :: s' =>
      if N.eqb c sep then [] :: split sep s'
      else match split sep s' with
           | l :: ls => (c :: l) :: ls
           | [] => [[c]]
           end
  end.

(** White space and line terminators of ECMAScript: what [trim] strips and
    what [\s] matches in a regular expression. *)
Definition isWhiteSpace (c : code_unit) : bool :=
  ((9 <=? c) && (c <=? 13) || N.eqb c 32 || N.eqb c 160 || N.eqb c 5760
   || (8192 <=? c) && (c <=? 8202) || N.eqb c 8232 || N.eqb c 8233
   || N.eqb c 8239 || N.eqb c 8287 || N.eqb c 12288 || N.eqb c 65279)%N.

Fixpoint trimStart (s : jsstring) : jsstring :=
  match s with
  | c :: s' => if isWhiteSpace c then trimStart s' else s
  | [] => []
  end.

Definition trimEnd (s : jsstring) : jsstring := rev (trimStart (rev s)).

Definition trim (s : jsstring) : jsstring := trimEnd (trimStart s).

(** [\d] *)
Definition isDigit (c : code_unit) : bool := ((48 <=? c) && (c <=? 57))%N.

(** The longest prefix of [s] whose characters satisfy [p], and the rest. *)
Fixpoint span (p : code_unit -> bool) (s : jsstring) : jsstring * jsstring :=
  match s with
  | c :: s' =>
      if p c then let (a, b) := span p s' in (c :: a, b) else ([], s)
  | [] => ([], [])
  end.

(** [parseInt] of a non-empty run of decimal digits. *)
Definition parseDigits (ds : jsstring) : Z :=
  fold_left (fun acc c => 10 * acc + (Z.of_N c - 48)) ds 0.

(** [String(n)] for an integer-valued number. *)
Definition ofZ (n : Z) : jsstring :=
  str (NilZero.string_of_int (Z.to_int n)).

(** The empty string is the only falsy string. *)
Definition truthy (s : jsstring) : bool :=
  match s with [] => false | _ :: _ => true end.

(** A literal of the source that holds double quotes, written with
    apostrophes in their place. *)
Definition quoted (s : string) : jsstring :=
  map (fun c => if N.eqb c 39 then 34%N else c) (str s).

End JsString.
Import JsString.

(** ** Numbers that are not integers *)

Module JsNumber.

(** The binary64 value of an integer (exact below 2^53). *)
Definition ofZ (z : Z) : float :=
  if z <? 0 then PrimFloat.opp (PrimFloat.of_uint63 (Uint63.of_Z (- z)))
  else PrimFloat.of_uint63 (Uint63.of_Z z).

(** [x.toFixed(1)] for a finite [x] below 10^21: the integer [n] for which
    [n / 10 - x] is as close to zero as possible (the larger one on a tie),
    printed with one digit after the point. *)
Definition toFixed1 (x : float) : jsstring :=
  match Prim2SF x with
  | S754_nan => str "NaN"
  | S754_infinity s => if s then str "-Infinity" else str "Infinity"
  | S754_zero _ => str "0.0"
  | S754_finite s m e =>
      let n :=
        if 0 <=? e then Z.pos m * 2 ^ e * 10
        else (Z.pos m * 20 + 2 ^ (- e)) / 2 ^ (- e + 1) in
      (if s then str "-" else [])
        ++ JsString.ofZ (n / 10) ++ str "." ++ JsString.ofZ (n mod 10)
  end.

Definition isPositiveZero (x : float) : bool :=
  PrimFloat.is_zero x && negb (PrimFloat.get_sign x).

Definition isNegativeZero (x : float) : bool :=
  PrimFloat.is_zero x && PrimFloat.get_sign x.

(** [Math.min(a, b)] *)
Definition Math_min (a b : float) : float :=
  if PrimFloat.is_nan a || PrimFloat.is_nan b then PrimFloat.nan
  else
    let lowest := PrimFloat.infinity in
    let lowest :=
      if PrimFloat.ltb a lowest || isNegativeZero a && isPositiveZero lowest
      then a else lowest in
    if PrimFloat.ltb b lowest || isNegativeZero b && isPositiveZero lowest
    then b else lowest.

(** [Math.max(a, b)] *)
Definition Math_max (a b : float) : float :=
  if PrimFloat.is_nan a || PrimFloat.is_nan b then PrimFloat.nan
  else
    let highest := PrimFloat.neg_infinity in
    let highest :=
      if PrimFloat.ltb highest a || isPositiveZero a && isNegativeZero highest
      then a else highest in
    if PrimFloat.ltb highest b || isPositiveZero b && isNegativeZero highest
    then b else highest.

(** [Math.pow(2, n)] for an integer [n]: the power of two, rounded to
    binary64 (0 below the subnormals, infinity from 2^1024 on). *)
Definition Math_pow2 (n : Z) : float := Z.ldexp 1%float n.

End JsNumber.

(** ** The configuration object *)

Record API_CONFIG_t : Type := {
  maxRetries : Z;
  retryDelay : Z;
  maxRetryDelay : Z;
  rateLimitPerMinute : Z;
  rateLimitResetTime : Z;
  fallbackModels : list jsstring;
  fallbackModel : jsstring
}.

Definition API_CONFIG : API_CONFIG_t := {|
  maxRetries := 3;
  retryDelay := 1000;
  maxRetryDelay := 10000;
  rateLimitPerMinute := 20;
  rateLimitResetTime := 60000;
  fallbackModels := [str "gpt-4o-mini"; str "gpt-4o"; str "gpt-3.5-turbo"];
  fallbackModel := str "gpt-4o-mini"
|}.

(** [a.length] *)
Definition len {A : Type} (l : list A) : Z := Z.of_nat (List.length l).

(** [x < y] on exact rationals. *)
Definition Qltb (x y : Q) : bool := negb (Qle_bool y x).

(** ** What the script does to the outside: the trace *)

(** An entry of [apiUsageMonitor.usageLog].  The script stores the time as
    [new Date().toISOString()] and reads it back with
    [new Date(call.timestamp).getTime()]: a round trip that keeps the
    millisecond count, which is what the entry holds here. *)
Record entry : Type := {
  timestamp : Z;
  endpoint : jsstring;
  model : jsstring;
  success : bool;
  errorCode : option Z
}.

(** A DOM node, as far as the script's insertions tell them apart. *)
Inductive node : Type :=
  | TextNode (data : jsstring)
  | ElementNode.

Inductive event : Type :=
  (** [console.log(`API Call: ...`)] of [logApiCall] *)
  | ApiCallLogged (e : entry)
  (** [console.warn('Security Alert: High API failure rate detected. ...')] *)
  | HighFailureRateAlert
  (** [console.warn('Security Alert: Unusually rapid API calls detected. ...')] *)
  | RapidCallsAlert
  (** [console.log(`Rate limit reached. Waiting ${waitTime}ms ...`)] *)
  | RateLimitReached (waitTime : Z)
  (** [await wait(ms)] *)
  | Waited (ms : float)
  (** [await currentApiCall()]: one physical attempt, on the given tier *)
  | Called (fallbackLevel : Z)
  (** [console.error(`API request failed (...) (attempt ...)`, error)] *)
  | RequestFailed (fallbackLevel retryCount : Z) (message : jsstring)
  (** [console.log('Rate limit exceeded. Adding delay before retry.')] *)
  | RateLimitExceeded
  (** [console.log(`Error occurred. Retrying in ${delay}ms...`)] *)
  | Retrying (delay : float)
  (** [createFallbackCall(API_CONFIG.fallbackModels[fallbackLevel], fallbackLevel)] *)
  | FallbackCallCreated (fallbackModel : option jsstring) (fallbackLevel : Z)
  (** [targetElement.insertBefore(tempDiv.firstChild, targetElement.firstChild)]
      or [targetElement.appendChild(tempDiv.firstChild)] of
      [showFallbackNotification]: the node moved into the page *)
  | NodeInserted (firstChild : node)
  (** [console.log(`Switching to fallback model: ...`)] *)
  | SwitchedModel (fallbackModel : option jsstring)
  (** [console.log(`Stream connection established for ...`)] *)
  | StreamEstablished
  (** [console.log(`Processing chunk ${chunkCounter} with ${lines.length} lines ...`)] *)
  | ChunkProcessed (chunkCounter lines : Z)
  (** [targetElement.innerHTML = convertMarkdownToHTML(streamedContent)] *)
  | Rendered (streamedContent : jsstring)
  (** [console.log(`Updated ... with content length: ${streamedContent.length}`)] *)
  | UpdateLogged (length : Z)
  (** [console.warn('Invalid JSON in stream:', jsonString, e)] *)
  | InvalidJSON (jsonString : jsstring)
  (** [console.log(`Stream completed for ... after ${chunkCounter} chunks`)] *)
  | StreamCompleted (chunkCounter : Z).

(** ** [apiUsageMonitor] *)

Module apiUsageMonitor.

Record t : Type := {
  usageLog : list entry;
  maxLogSize : Z
}.

Definition initial : t := {| usageLog := []; maxLogSize := 100 |}.

(** [timestamps[i-1] - timestamps[i]] for [i = 1 .. length - 1] *)
Fixpoint timeDiffs (timestamps : list Z) : list Z :=
  match timestamps with
  | a :: (b :: _) as rest => (a - b) :: timeDiffs rest
  | _ => []
  end.

(** [failedCalls.length / recentCalls.length > 0.7], in binary64; the
    literal denotes the float nearest to 7/10, [0x1.6666666666666p-1]. *)
#[warnings="-inexact-float"]
Definition failureRatioAbove (failed recent : Z) : bool :=
  PrimFloat.ltb 0.7%float
    (PrimFloat.div (JsNumber.ofZ failed) (JsNumber.ofZ recent)).

(** [timeDiffs.reduce((sum, diff) => sum + diff, 0) / timeDiffs.length].
    The sum is an integer and the divisor at most 19, so rounding the
    quotient to binary64 never moves it across the integer 500: the
    comparison with 500 below is made on the exact quotient. *)
Definition avgTimeBetweenCalls (diffs : list Z) : Q :=
  inject_Z (fold_left Z.add diffs 0) / inject_Z (len diffs).

Definition highFailureRate (recentCalls : list entry) : bool :=
  let failedCalls := filter (fun call => negb (success call)) recentCalls in
  (5 <=? len recentCalls)
  && failureRatioAbove (len failedCalls) (len recentCalls).

Definition rapidCalls (recentCalls : list entry) : bool :=
  (5 <=? len recentCalls)
  && Qltb (avgTimeBetweenCalls (timeDiffs (map timestamp recentCalls)))
          (inject_Z 500).

(** The warnings of one check, in the order they are printed. *)
Definition checkForSuspiciousActivity (this : t) : list event :=
  let recentCalls := firstn 20 (usageLog this) in
  (if highFailureRate recentCalls then [HighFailureRateAlert] else [])
  ++ (if rapidCalls recentCalls then [RapidCallsAlert] else []).

(** [logApiCall(endpoint, model, success, errorCode)], at the clock
    reading [now]: the new monitor and what was printed. *)
Definition logApiCall (now : Z) (endpoint model : jsstring) (success : bool)
    (errorCode : option Z) (this : t) : t * list event :=
  let entry := {| timestamp := now; endpoint := endpoint; model := model;
                  success := success; errorCode := errorCode |} in
  let unshifted := entry :: usageLog this in
  let log :=
    if maxLogSize this <? len unshifted then removelast unshifted
    else unshifted in
  let this' := {| usageLog := log; maxLogSize := maxLogSize this |} in
  (this', checkForSuspiciousActivity this' ++ [ApiCallLogged entry]).

(** The object [getUsageStats] returns: a field the object literal does
    not list is absent ([None]). *)
Module Stats.
Record t : Type := {
  total : Z;
  success : Z;
  failure : Z;
  successRate : option jsstring
}.
End Stats.

(** [getUsageStats()]: the object returned and the monitor afterwards. *)
Definition getUsageStats (this : t) : Stats.t * t :=
  if len (usageLog this) =? 0 then
    ({| Stats.total := 0; Stats.success := 0; Stats.failure := 0;
        Stats.successRate := None |}, this)
  else
    let total := len (usageLog this) in
    let success := len (filter (fun call => success call) (usageLog this)) in
    let failure := total - success in
    ({| Stats.total := total; Stats.success := success;
        Stats.failure := failure;
        Stats.successRate :=
          Some (JsNumber.toFixed1
                  (PrimFloat.mul
                     (PrimFloat.div (JsNumber.ofZ success) (JsNumber.ofZ total))
                     (JsNumber.ofZ 100))
                ++ str "%") |}, this).

End apiUsageMonitor.

(** ** The environment and the shared state *)

(** What the script reads from outside: the [k]-th reading of the clock
    ([Date.now()], [new Date()]) and the [k]-th draw of [Math.random()].
    Nothing is assumed of either. *)
Record environment : Type := {
  clock : nat -> Z;
  random : nat -> float
}.

(** The module-level state ([apiRequestQueue.requests], [apiUsageMonitor]),
    how far the oracles have been read, and the trace so far. *)
Record world : Type := {
  ticks : nat;
  draws : nat;
  requests : list Z;
  monitor : apiUsageMonitor.t;
  trace : list event
}.

Definition initial_world : world := {|
  ticks := 0; draws := 0; requests := [];
  monitor := apiUsageMonitor.initial; trace := []
|}.

(** Sequential code over the shared state. *)
Definition M (A : Type) : Type := world -> A * world.

Definition ret {A : Type} (a : A) : M A := fun w => (a, w).

Definition bind {A B : Type} (c : M A) (k : A -> M B) : M B :=
  fun w => let (a, w') := c w in k a w'.

Declare Scope js_scope.
Delimit Scope js_scope with js.
Notation "x <- c ;; k" := (bind c (fun x => k))
  (at level 61, c at next level, right associativity) : js_scope.
Notation "c ;; k" := (bind c (fun _ => k))
  (at level 61, right associativity) : js_scope.
Local Open Scope js_scope.

Definition emit (e : event) : M unit :=
  fun w => (tt, {| ticks := ticks w; draws := draws w; requests := requests w;
                   monitor := monitor w; trace := trace w ++ [e] |}).

(** [await wait(ms)]: the time that passes shows in later clock readings. *)
Definition wait (ms : float) : M unit := emit (Waited ms).

Definition Date_now (env : environment) : M Z :=
  fun w => (clock env (ticks w),
            {| ticks := S (ticks w); draws := draws w; requests := requests w;
               monitor := monitor w; trace := trace w |}).

Definition Math_random (env : environment) : M float :=
  fun w => (random env (draws w),
            {| ticks := ticks w; draws := S (draws w); requests := requests w;
               monitor := monitor w; trace := trace w |}).

(** [apiUsageMonitor.logApiCall(...)] on the shared monitor. *)
Definition logApiCall (env : environment) (endpoint model : jsstring)
    (success : bool) (errorCode : option Z) : M unit :=
  now <- Date_now env ;;
  fun w =>
    let (m, printed) :=
      apiUsageMonitor.logApiCall now endpoint model success errorCode (monitor w) in
    (tt, {| ticks := ticks w; draws := draws w; requests := requests w;
            monitor := m; trace := trace w ++ printed |}).

(** ** [apiRequestQueue] *)

Module apiRequestQueue.
Section WithConfig.

Variable cfg : API_CONFIG_t.
Variable env : environment.

Definition getRequests : M (list Z) := fun w => (requests w, w).

Definition setRequests (rs : list Z) : M unit :=
  fun w => (tt, {| ticks := ticks w; draws := draws w; requests := rs;
                   monitor := monitor w; trace := trace w |}).

Definition cleanup (currentTime : Z) : M unit :=
  let windowStart := currentTime - rateLimitResetTime cfg in
  rs <- getRequests ;;
  setRequests (filter (fun timestamp => windowStart <=? timestamp) rs).

Definition addRequest : M unit :=
  now <- Date_now env ;;
  rs <- getRequests ;;
  setRequests (rs ++ [now]) ;;
  cleanup now.

Definition canMakeRequest : M bool :=
  now <- Date_now env ;;
  cleanup now ;;
  rs <- getRequests ;;
  ret (len rs <? rateLimitPerMinute cfg).

Definition getWaitTime : M Z :=
  ok <- canMakeRequest ;;
  if ok then ret 0
  else
    now <- Date_now env ;;
    cleanup now ;;
    rs <- getRequests ;;
    match rs with
    | [] => ret 0
    | oldestRequest :: _ =>
        let timeToWait := (oldestRequest + rateLimitResetTime cfg) - now in
        ret (Z.max 0 timeToWait)
    end.

End WithConfig.
End apiRequestQueue.

(** ** [getRetryDelay] *)

(** The delay is computed as the script computes it, in binary64: the
    capped exponential base, and the jitter added with one rounding. *)
Definition getRetryDelay (cfg : API_CONFIG_t) (env : environment)
    (retryCount : Z) : M float :=
  let delay :=
    JsNumber.Math_min
      (JsNumber.ofZ (maxRetryDelay cfg))
      (PrimFloat.mul (JsNumber.ofZ (retryDelay cfg))
                     (JsNumber.Math_pow2 retryCount)) in
  r <- Math_random env ;;
  ret (PrimFloat.add delay (PrimFloat.mul r 1000%float)).

(** ** [makeApiRequestWithMultiFallback] *)

(** How one [await currentApiCall()] ends: with a result, or with a thrown
    [Error] carrying [message]. *)
Inductive outcome : Type :=
  | Resolved (result : jsstring)
  | Rejected (message : jsstring).

(** An executable call: what it does at the [i]-th physical attempt of the
    logical request (the network's answer is the environment's choice). *)
Definition executable : Type := nat -> outcome.

(** How the whole request ends. *)
Inductive completion : Type :=
  | Returned (result : jsstring)
  | Thrown (message : jsstring).

Module Cascade.

(** [error.message.match(/API request failed: (\d+)/)]: the digits captured
    at the leftmost match. *)
Fixpoint statusMatch (message : jsstring) : option jsstring :=
  let here :=
    if startsWith (str "API request failed: ") message
    then fst (span isDigit (skipn 20 message)) else [] in
  match here with
  | _ :: _ => Some here
  | [] => match message with
          | [] => None
          | _ :: rest => statusMatch rest
          end
  end.

(** [error.message.replace(/^(API request failed:|Fallback API request failed:)\s*\d+\s*/, '')] *)
Definition stripStatus (message : jsstring) : jsstring :=
  let after :=
    if startsWith (str "API request failed:") message
    then Some (skipn 19 message)
    else if startsWith (str "Fallback API request failed:") message
    then Some (skipn 28 message)
    else None in
  match after with
  | None => message
  | Some rest =>
      let (digits, rest') := span isDigit (trimStart rest) in
      match digits with
      | [] => message
      | _ :: _ => trimStart rest'
      end
  end.

(** A line break and the indentation of a line of a template literal. *)
Definition line (indentation : nat) : jsstring :=
  10%N :: repeat 32%N indentation.

(** [notificationHtml] of [showFallbackNotification]: the template of the
    level 0, that of the level 1, the empty string otherwise. *)
Definition notificationHtml (fallbackLevel : Z) (errorMessage : jsstring)
  : jsstring :=
  let detail :=
    if JsString.truthy errorMessage then str ": " ++ errorMessage else [] in
  if fallbackLevel =? 0 then
    line 16 ++ quoted "<div class='alert alert-warning mb-3'>"
    ++ line 20 ++ quoted "<i class='fas fa-exclamation-triangle mr-2'></i>"
    ++ line 20
    ++ str "<strong>Notice:</strong> The primary model encountered an issue"
    ++ detail ++ str ". "
    ++ line 20 ++ str "Switching to GPT-4 Mini as a fallback."
    ++ line 16 ++ str "</div>"
    ++ line 12
  else if fallbackLevel =? 1 then
    line 16 ++ quoted "<div class='alert alert-danger mb-3'>"
    ++ line 20 ++ quoted "<i class='fas fa-exclamation-circle mr-2'></i>"
    ++ line 20
    ++ str "<strong>Warning:</strong> Both primary model and GPT-4 Mini failed"
    ++ detail ++ str ". "
    ++ line 20
    ++ str "Using GPT-3.5 Turbo as a last resort. Response accuracy may be affected."
    ++ line 16 ++ str "</div>"
    ++ line 12
  else [].

(** [tempDiv.firstChild] after [tempDiv.innerHTML = html], for an [html]
    whose text before the first tag holds no character reference: the Text
    node of that text, or the element the first tag opens. *)
Definition firstChild (html : jsstring) : node :=
  match fst (span (fun c => negb (N.eqb c 60)) html) with
  | [] => ElementNode
  | data => TextNode data
  end.

(** The loop's variables. *)
Record vars : Type := {
  retryCount : Z;
  fallbackLevel : Z;
  currentApiCall : executable
}.

(** One turn of [while (true)]: leave the function, or go round again. *)
Inductive turn : Type :=
  | Leave (c : completion)
  | Again (v : vars).

Section WithConfig.

Variable cfg : API_CONFIG_t.
Variable env : environment.

(** The call descriptor.  [endpoint] and [model] are what lines 141-156
    read off the text of [apiCall]; [targetElement] tells whether an
    element was passed. *)
Variable endpoint model : jsstring.
Variable apiCall : executable.
Variable createFallbackCall : option jsstring -> Z -> executable.
Variable targetElement : bool.

(** [API_CONFIG.fallbackModels[i]], [undefined] ([None]) out of range *)
Definition fallbackModelAt (i : Z) : option jsstring :=
  if i <? 0 then None else nth_error (fallbackModels cfg) (Z.to_nat i).

(** The model name handed to the monitor.  The level never drops below
    -1, so the index is in range whenever the array is read; the
    [undefined] of an index out of range is kept as its printed form. *)
Definition currentModel (fallbackLevel : Z) : jsstring :=
  if fallbackLevel =? -1 then model
  else if fallbackLevel <? len (fallbackModels cfg)
       then match fallbackModelAt fallbackLevel with
            | Some m => m
            | None => str "undefined"
            end
       else str "unknown-fallback".

(** [showFallbackNotification(fallbackLevel, errorMessage)].  Of the nodes
    parsed from the notification it moves one into the page,
    [tempDiv.firstChild]: the alert box, which comes second, stays in the
    detached [tempDiv]. *)
Definition showFallbackNotification (fallbackLevel : Z)
    (errorMessage : jsstring) : M unit :=
  if negb targetElement then ret tt
  else
    let notificationHtml := notificationHtml fallbackLevel errorMessage in
    if JsString.truthy notificationHtml
    then emit (NodeInserted (firstChild notificationHtml))
    else ret tt.

(** Lines 276-278, reached at the end of every [catch] that did not throw. *)
Definition checkExhausted (message : jsstring) (v : vars) : turn :=
  if (maxRetries cfg <=? retryCount v)
     && (len (fallbackModels cfg) - 1 <=? fallbackLevel v)
  then Leave (Thrown (str "Failed after " ++ JsString.ofZ (maxRetries cfg)
                      ++ str " retry attempts on all models: " ++ message))
  else Again v.

(** The [catch (error)] block. *)
Definition onError (message : jsstring) (v : vars) : M turn :=
  emit (RequestFailed (fallbackLevel v) (retryCount v) message) ;;
  let errorCode :=
    if truthy message
    then option_map parseDigits (statusMatch message) else None in
  let errorMessage :=
    if truthy message then stripStatus message else [] in
  logApiCall env endpoint (currentModel (fallbackLevel v)) false errorCode ;;
  if truthy message && includes (str "429") message then
    emit RateLimitExceeded ;;
    delay <- getRetryDelay cfg env (retryCount v) ;;
    wait (PrimFloat.add 5000%float delay) ;;
    ret (checkExhausted message
           {| retryCount := retryCount v + 1;
              fallbackLevel := fallbackLevel v;
              currentApiCall := currentApiCall v |})
  else if retryCount v <? maxRetries cfg then
    delay <- getRetryDelay cfg env (retryCount v) ;;
    emit (Retrying delay) ;;
    wait delay ;;
    ret (checkExhausted message
           {| retryCount := retryCount v + 1;
              fallbackLevel := fallbackLevel v;
              currentApiCall := currentApiCall v |})
  else if fallbackLevel v <? len (fallbackModels cfg) - 1 then
    let fallbackLevel' := fallbackLevel v + 1 in
    let fallbackModel := fallbackModelAt fallbackLevel' in
    emit (FallbackCallCreated fallbackModel fallbackLevel') ;;
    showFallbackNotification fallbackLevel' errorMessage ;;
    emit (SwitchedModel fallbackModel) ;;
    ret (checkExhausted message
           {| retryCount := 0;
              fallbackLevel := fallbackLevel';
              currentApiCall := createFallbackCall fallbackModel fallbackLevel' |})
  else
    ret (Leave (Thrown (str "All fallback options exhausted. Last error: "
                        ++ message))).

(** The body of the loop, at the [i]-th physical attempt. *)
Definition attempt (i : nat) (v : vars) : M turn :=
  ok <- apiRequestQueue.canMakeRequest cfg env ;;
  (if negb ok then
     waitTime <- apiRequestQueue.getWaitTime cfg env ;;
     emit (RateLimitReached waitTime) ;;
     wait (JsNumber.ofZ waitTime)
   else ret tt) ;;
  apiRequestQueue.addRequest cfg env ;;
  emit (Called (fallbackLevel v)) ;;
  match currentApiCall v i with
  | Resolved result =>
      logApiCall env endpoint (currentModel (fallbackLevel v)) true None ;;
      ret (Leave (Returned result))
  | Rejected message => onError message v
  end.

(** [while (true)], unrolled at most [fuel] times: [None] when the loop is
    still running after [fuel] attempts. *)
Fixpoint loop (fuel : nat) (i : nat) (v : vars) : M (option completion) :=
  match fuel with
  | O => ret None
  | S fuel' =>
      t <- attempt i v ;;
      match t with
      | Leave c => ret (Some c)
      | Again v' => loop fuel' (S i) v'
      end
  end.

Definition makeApiRequestWithMultiFallback (fuel : nat)
  : M (option completion) :=
  loop fuel 0%nat
    {| retryCount := 0; fallbackLevel := -1; currentApiCall := apiCall |}.

End WithConfig.
End Cascade.

(** ** JSON values, as the decoder reads them *)

Module Json.

(** The values [JSON.parse] builds, and [undefined], which property
    access adds.  [number] is the type of Number values; an object keeps
    its members in source order, a repeated key included. *)
#[warnings="-register-all"]
Inductive value (number : Type) : Type :=
  | Undefined
  | Null
  | Bool (b : bool)
  | Number (n : number)
  | String (s : jsstring)
  | Array (elements : list (value number))
  | Object (members : list (jsstring * value number)).

Arguments Undefined {number}.
Arguments Null {number}.
Arguments Bool {number} b.
Arguments Number {number} n.
Arguments String {number} s.
Arguments Array {number} elements.
Arguments Object {number} members.

Section Access.

Variable number : Type.
(** [ToBoolean] and [ToString] of a Number. *)
Variable Number_truthy : number -> bool.
Variable Number_toString : number -> jsstring.

Local Abbreviation value := (value number).

(** The own property [key] of an object: of two members with the same
    key, [JSON.parse] keeps the later. *)
Fixpoint lookup (key : jsstring) (members : list (jsstring * value))
  : option value :=
  match members with
  | [] => None
  | (k, v) :: rest =>
      match lookup key rest with
      | Some v' => Some v'
      | None => if JsString.eqb k key then Some v else None
      end
  end.

(** [v.key] and [v[0]] (with [key = "0"]) for the keys the decoder reads,
    none of which a prototype defines: [None] is the [TypeError] of
    reading a property of [undefined] or [null]. *)
Definition member (key : jsstring) (v : value) : option value :=
  match v with
  | Undefined | Null => None
  | Object members =>
      Some match lookup key members with Some x => x | None => Undefined end
  | Array elements =>
      Some (if JsString.eqb key (str "0")
            then match elements with x :: _ => x | [] => Undefined end
            else Undefined)
  | String s =>
      Some (if JsString.eqb key (str "0")
            then match s with c :: _ => String [c] | [] => Undefined end
            else Undefined)
  | Bool _ | Number _ => Some Undefined
  end.

(** [v?.key] *)
Definition optionalMember (key : jsstring) (v : value) : value :=
  match member key v with
  | Some x => x
  | None => Undefined
  end.

(** [ToBoolean] *)
Definition truthy (v : value) : bool :=
  match v with
  | Undefined | Null => false
  | Bool b => b
  | Number n => Number_truthy n
  | String s => JsString.truthy s
  | Array _ | Object _ => true
  end.

Definition hasKey (key : jsstring) (members : list (jsstring * value)) : bool :=
  existsb (fun kv => JsString.eqb (fst kv) key) members.

(** [Array.prototype.join] with the separator [","]. *)
Fixpoint join (parts : list (option jsstring)) : option jsstring :=
  match parts with
  | [] => Some []
  | [p] => p
  | p :: rest =>
      match p, join rest with
      | Some a, Some b => Some (a ++ str "," ++ b)
      | _, _ => None
      end
  end.

(** The string [v] turns into when it is appended to a string; [None] is
    the [TypeError] of an object whose own ["toString"] member hides the
    inherited method. *)
Fixpoint toString (v : value) : option jsstring :=
  match v with
  | Undefined => Some (str "undefined")
  | Null => Some (str "null")
  | Bool b => Some (if b then str "true" else str "false")
  | Number n => Some (Number_toString n)
  | String s => Some s
  | Array elements =>
      join (map (fun x => match x with
                          | Undefined | Null => Some []
                          | _ => toString x
                          end) elements)
  | Object members =>
      if hasKey (str "toString") members then None
      else Some (str "[object Object]")
  end.

(** [json.choices[0]?.delta?.content || ''] *)
Definition contentDelta (json : value) : option value :=
  match member (str "choices") json with
  | None => None
  | Some choices =>
      match member (str "0") choices with
      | None => None
      | Some first =>
          let content :=
            optionalMember (str "content") (optionalMember (str "delta") first) in
          Some (if truthy content then content else String [])
      end
  end.

End Access.
End Json.

(** ** A reference [JSON.parse]

    The decoder below takes [JSON.parse] as a parameter.  This parser of the
    JSON grammar (ECMA-404) instantiates it on concrete inputs.  A number is
    kept as the text of its literal. *)

Module JsonText.

Definition numeral := jsstring.

(** The white space of the JSON grammar. *)
Definition isJsonSpace (c : code_unit) : bool :=
  (N.eqb c 32 || N.eqb c 9 || N.eqb c 10 || N.eqb c 13)%N.

Definition skipSpace (s : jsstring) : jsstring := snd (span isJsonSpace s).

Definition hexDigit (c : code_unit) : option N :=
  (if (48 <=? c) && (c <=? 57) then Some (c - 48)
   else if (65 <=? c) && (c <=? 70) then Some (c - 55)
   else if (97 <=? c) && (c <=? 102) then Some (c - 87)
   else None)%N.

Definition hex4 (a b c d : code_unit) : option code_unit :=
  match hexDigit a, hexDigit b, hexDigit c, hexDigit d with
  | Some x, Some y, Some z, Some w => Some (((x * 16 + y) * 16 + z) * 16 + w)%N
  | _, _, _, _ => None
  end.

(** The characters of a string literal after its opening quote, up to the
    closing one: the string denoted (in reverse in [acc]) and what follows. *)
Fixpoint parseChars (s : jsstring) (acc : jsstring)
  : option (jsstring * jsstring) :=
  match s with
  | [] => None
  | 34%N :: rest => Some (rev acc, rest)
  | 92%N :: 117%N :: a :: b :: c :: d :: rest =>
      match hex4 a b c d with
      | Some u => parseChars rest (u :: acc)
      | None => None
      end
  | 92%N :: e :: rest =>
      match e with
      | 34%N => parseChars rest (34%N :: acc)
      | 92%N => parseChars rest (92%N :: acc)
      | 47%N => parseChars rest (47%N :: acc)
      | 98%N => parseChars rest (8%N :: acc)
      | 102%N => parseChars rest (12%N :: acc)
      | 110%N => parseChars rest (10%N :: acc)
      | 114%N => parseChars rest (13%N :: acc)
      | 116%N => parseChars rest (9%N :: acc)
      | _ => None
      end
  | [92%N] => None
  | c :: rest => if (c <? 32)%N then None else parseChars rest (c :: acc)
  end.

(** A number literal at the head of [s]: an optional minus sign; a zero, or
    a non-zero digit and more digits; optionally a point and one digit or
    more; optionally [e] or [E], a sign and one digit or more. *)
Definition parseNumber (s : jsstring) : option (numeral * jsstring) :=
  let (sign, s1) :=
    match s with 45%N :: r => ([45%N], r) | _ => ([], s) end in
  let (int, s2) := span isDigit s1 in
  match int with
  | [] => None
  | d :: more =>
      if N.eqb d 48 && JsString.truthy more then
        (* a leading zero ends the integer part *)
        Some (sign ++ [48%N], more ++ s2)
      else
        let (frac, s3) :=
          match s2 with
          | 46%N :: r =>
              let (ds, r') := span isDigit r in
              match ds with
              | [] => (None, s2)
              | _ :: _ => (Some (46%N :: ds), r')
              end
          | _ => (Some [], s2)
          end in
        match frac with
        | None => None
        | Some frac =>
            let (exp, s4) :=
              match s3 with
              | e :: r =>
                  if N.eqb e 101 || N.eqb e 69 then
                    let (sg, r1) :=
                      match r with
                      | 43%N :: r' => ([43%N], r')
                      | 45%N :: r' => ([45%N], r')
                      | _ => ([], r)
                      end in
                    let (ds, r2) := span isDigit r1 in
                    match ds with
                    | [] => (None, s3)
                    | _ :: _ => (Some (e :: sg ++ ds), r2)
                    end
                  else (Some [], s3)
              | [] => (Some [], s3)
              end in
            match exp with
            | None => None
            | Some exp => Some (sign ++ int ++ frac ++ exp, s4)
            end
        end
  end.

Local Abbreviation value := (Json.value numeral).

Definition expect (word : jsstring) (v : value) (s : jsstring)
  : option (value * jsstring) :=
  if startsWith word s then Some (v, skipn (List.length word) s) else None.

(** A value at the head of [s], after white space.  [fuel] bounds the
    nesting depth and the number of elements of one array or object;
    [JSON_parse] gives it more than the length of the text. *)
Fixpoint parseValue (fuel : nat) (s : jsstring) : option (value * jsstring) :=
  match fuel with
  | O => None
  | S fuel' =>
      let elements :=
        fix elements (n : nat) (s : jsstring) (acc : list value)
          : option (list value * jsstring) :=
          match n with
          | O => None
          | S n' =>
              match parseValue fuel' s with
              | None => None
              | Some (v, rest) =>
                  match skipSpace rest with
                  | 44%N :: rest' => elements n' rest' (v :: acc)
                  | 93%N :: rest' => Some (rev (v :: acc), rest')
                  | _ => None
                  end
              end
          end in
      let members :=
        fix members (n : nat) (s : jsstring) (acc : list (jsstring * value))
          : option (list (jsstring * value) * jsstring) :=
          match n with
          | O => None
          | S n' =>
              match skipSpace s with
              | 34%N :: s1 =>
                  match parseChars s1 [] with
                  | None => None
                  | Some (key, s2) =>
                      match skipSpace s2 with
                      | 58%N :: s3 =>
                          match parseValue fuel' s3 with
                          | None => None
                          | Some (v, s4) =>
                              match skipSpace s4 with
                              | 44%N :: s5 => members n' s5 ((key, v) :: acc)
                              | 125%N :: s5 => Some (rev ((key, v) :: acc), s5)
                              | _ => None
                              end
                          end
                      | _ => None
                      end
                  end
              | _ => None
              end
          end in
      match skipSpace s with
      | [] => None
      | 123%N :: rest =>
          match skipSpace rest with
          | 125%N :: rest' => Some (Json.Object [], rest')
          | _ =>
              match members fuel' rest [] with
              | Some (ms, rest') => Some (Json.Object ms, rest')
              | None => None
              end
          end
      | 91%N :: rest =>
          match skipSpace rest with
          | 93%N :: rest' => Some (Json.Array [], rest')
          | _ =>
              match elements fuel' rest [] with
              | Some (vs, rest') => Some (Json.Array vs, rest')
              | None => None
              end
          end
      | 34%N :: rest =>
          match parseChars rest [] with
          | Some (text, rest') => Some (Json.String text, rest')
          | None => None
          end
      | 116%N :: _ => expect (str "true") (Json.Bool true) (skipSpace s)
      | 102%N :: _ => expect (str "false") (Json.Bool false) (skipSpace s)
      | 110%N :: _ => expect (str "null") Json.Null (skipSpace s)
      | _ :: _ =>
          match parseNumber (skipSpace s) with
          | Some (n, rest) => Some (Json.Number n, rest)
          | None => None
          end
      end
  end.

(** [JSON.parse(text)]: [None] is its [SyntaxError]. *)
Definition JSON_parse (text : jsstring) : option value :=
  match parseValue (S (List.length text)) text with
  | Some (v, rest) =>
      match skipSpace rest with
      | [] => Some v
      | _ :: _ => None
      end
  | None => None
  end.

(** [ToBoolean] of the number a literal denotes: false for a zero, that is
    when no digit of the mantissa differs from 0.  (A literal so small that
    it rounds to zero in binary64, below 2^-1075, is not told apart.) *)
Definition Number_truthy (n : numeral) : bool :=
  existsb (fun c => (49 <=? c) && (c <=? 57))%N
    (fst (span (fun c => negb (N.eqb c 101 || N.eqb c 69)) n)).

(** [ToString] of the number a literal denotes, for an integer literal
    below 2^53, which prints as its digits (and [-0] as [0]); any other
    literal is left as it was written, which is not always how the script
    would print it. *)
Definition Number_toString (n : numeral) : jsstring :=
  if JsString.eqb n (str "-0") then str "0" else n.

End JsonText.

(** ** [streamingApiCall], the stream decoder of [streamResponse] *)

(** The HTTP response as the decoder sees it.  [errorBody] is the text of
    the body of a response that is not [ok], which [response.json()] reads
    and parses: [None] when it cannot be read. *)
Record response : Type := {
  ok : bool;
  status : Z;
  statusText : jsstring;
  errorBody : option jsstring
}.

(** The [TypeError]s that leave the call uncaught.  What their [message]
    says is the engine's choice. *)
Inductive typeError : Type :=
  | CannotReadProperty (key : jsstring)
  | CannotConvertToPrimitive.

(** One network exchange: [fetch] rejects, or it answers and the body then
    delivers [chunks], each already decoded to text by
    [decoder.decode(value)], before the reader reports [done]
    ([failure = None]) or rejects ([failure = Some message]). *)
Inductive exchange : Type :=
  | FetchRejected (message : jsstring)
  | Responded (r : response) (chunks : list jsstring) (failure : option jsstring).

Module Stream.

(** [streamedContent] (a variable of [streamResponse], shared by every run
    of the call) and what has been printed or rendered. *)
Record state : Type := {
  streamedContent : jsstring;
  printed : list event
}.

(** How the call ends, and the state it leaves. *)
Record run : Type := {
  result : outcome;
  final : state
}.

Section Decoder.

Variable number : Type.
Variable Number_truthy : number -> bool.
Variable Number_toString : number -> jsstring.
(** [JSON.parse]: [None] stands for its [SyntaxError]. *)
Variable JSON_parse : jsstring -> option (Json.value number).
(** Whether a [targetElement] was passed. *)
Variable targetElement : bool.
(** The [message] of a [TypeError], as the engine words it. *)
Variable TypeError_message : typeError -> jsstring.

Definition warn (jsonString : jsstring) (st : state) : state :=
  {| streamedContent := streamedContent st;
     printed := printed st ++ [InvalidJSON jsonString] |}.

(** The body of [for (const line of lines)]. *)
Definition processLine (chunkCounter : Z) (st : state) (line : jsstring)
  : state :=
  if includes (str "[DONE]") line then st
  else
    let jsonString :=
      trim (if startsWith (str "data: ") line then skipn 6 line else line) in
    if negb (JsString.truthy jsonString) then st
    else
      match JSON_parse jsonString with
      | None => warn jsonString st
      | Some json =>
          match Json.contentDelta Number_truthy json with
          | None => warn jsonString st
          | Some contentDelta =>
              match Json.toString Number_toString contentDelta with
              | None => warn jsonString st
              | Some text =>
                  let content := streamedContent st ++ text in
                  {| streamedContent := content;
                     printed :=
                       printed st
                       ++ (if targetElement
                              && Json.truthy Number_truthy contentDelta
                           then Rendered content
                                :: (if chunkCounter mod 10 =? 0
                                    then [UpdateLogged (len content)] else [])
                           else []) |}
              end
          end
      end.

(** [chunk.split('\n').filter(line => line.trim() !== '')] *)
Definition linesOf (chunk : jsstring) : list jsstring :=
  filter (fun line => JsString.truthy (trim line)) (split 10%N chunk).

(** One turn of the read loop, for the chunk numbered [chunkCounter]. *)
Definition processChunk (chunkCounter : Z) (st : state) (chunk : jsstring)
  : state :=
  let lines := linesOf chunk in
  fold_left (processLine chunkCounter)
    lines
    {| streamedContent := streamedContent st;
       printed := printed st ++ [ChunkProcessed chunkCounter (len lines)] |}.

(** The read loop over the chunks the body delivers; the counter is the
    number of chunks read before. *)
Fixpoint readLoop (chunkCounter : Z) (st : state) (chunks : list jsstring)
  : Z * state :=
  match chunks with
  | [] => (chunkCounter, st)
  | chunk :: rest =>
      readLoop (chunkCounter + 1) (processChunk (chunkCounter + 1) st chunk) rest
  end.

Definition say (e : event) (st : state) : state :=
  {| streamedContent := streamedContent st; printed := printed st ++ [e] |}.

(** [await response.json().catch(() => ({}))] *)
Definition errorDataOf (r : response) : Json.value number :=
  match errorBody r with
  | Some text =>
      match JSON_parse text with
      | Some errorData => errorData
      | None => Json.Object []
      end
  | None => Json.Object []
  end.

(** [errorData.error?.message || 'Unknown error'] as the template literal
    takes it: the text, or the [TypeError] of reading [error] off [null]
    or of a message that has no string form. *)
Definition errorDetail (errorData : Json.value number) : typeError + jsstring :=
  match Json.member (str "error") errorData with
  | None => inl (CannotReadProperty (str "error"))
  | Some error =>
      let message := Json.optionalMember (str "message") error in
      if Json.truthy Number_truthy message then
        match Json.toString Number_toString message with
        | Some text => inr text
        | None => inl CannotConvertToPrimitive
        end
      else inr (str "Unknown error")
  end.

Definition streamingApiCall (x : exchange) (st : state) : run :=
  match x with
  | FetchRejected message => {| result := Rejected message; final := st |}
  | Responded r chunks failure =>
      if negb (ok r) then
        {| result :=
             match errorDetail (errorDataOf r) with
             | inr detail =>
                 Rejected (str "API request failed: " ++ JsString.ofZ (status r)
                           ++ str " " ++ statusText r ++ str " - " ++ detail)
             | inl e => Rejected (TypeError_message e)
             end;
           final := st |}
      else
        let (chunkCounter, st') :=
          readLoop 0 (say StreamEstablished st) chunks in
        match failure with
        | Some message => {| result := Rejected message; final := st' |}
        | None =>
            {| result := Resolved (streamedContent st');
               final := say (StreamCompleted chunkCounter) st' |}
        end
  end.

(** The transcript a clean stream of [chunks] leaves, from an empty
    [streamedContent]. *)
Definition transcript (chunks : list jsstring) : jsstring :=
  streamedContent
    (snd (readLoop 0 {| streamedContent := []; printed := [] |} chunks)).

End Decoder.
End Stream.

(** ** [makeApiRequestWithRetry] *)

Module Retry.

(** One turn of its loop: leave the function, or go round again with the
    new [retryCount]. *)
Inductive turn : Type :=
  | Leave (c : completion)
  | Again (retryCount : Z).

Section WithConfig.

Local Open Scope js_scope.

Variable cfg : API_CONFIG_t.
Variable env : environment.

(** [endpoint] and [model] are what lines 300-315 read off the text of
    [apiCall]; [fallbackApiCall] is [None] when the argument is left out. *)
Variable endpoint model : jsstring.
Variable apiCall : executable.
Variable fallbackApiCall : option executable.

(** Lines 372-374. *)
Definition checkSpent (message : jsstring) (retryCount : Z) : turn :=
  if maxRetries cfg <=? retryCount
  then Leave (Thrown (str "Failed after " ++ JsString.ofZ (maxRetries cfg)
                      ++ str " retry attempts: " ++ message))
  else Again retryCount.

(** The [catch (error)] block.  Its [console.error] names no tier and is
    recorded as the one of the primary tier, -1. *)
Definition onError (message : jsstring) (retryCount : Z) : M turn :=
  emit (RequestFailed (-1) retryCount message) ;;
  let errorCode :=
    if JsString.truthy message
    then option_map parseDigits (Cascade.statusMatch message) else None in
  logApiCall env endpoint model false errorCode ;;
  if JsString.truthy message && includes (str "429") message then
    emit RateLimitExceeded ;;
    delay <- getRetryDelay cfg env retryCount ;;
    wait (PrimFloat.add 5000%float delay) ;;
    ret (checkSpent message (retryCount + 1))
  else if retryCount <? maxRetries cfg then
    delay <- getRetryDelay cfg env retryCount ;;
    emit (Retrying delay) ;;
    wait delay ;;
    ret (checkSpent message (retryCount + 1))
  else
    (* [throw error]: the error as it was caught *)
    ret (Leave (Thrown message)).

(** The body of the loop, at the [i]-th physical attempt. *)
Definition attempt (i : nat) (retryCount : Z) : M turn :=
  ok <- apiRequestQueue.canMakeRequest cfg env ;;
  (if negb ok then
     waitTime <- apiRequestQueue.getWaitTime cfg env ;;
     emit (RateLimitReached waitTime) ;;
     wait (JsNumber.ofZ waitTime)
   else ret tt) ;;
  apiRequestQueue.addRequest cfg env ;;
  emit (Called (-1)) ;;
  match apiCall i with
  | Resolved result =>
      logApiCall env endpoint model true None ;;
      ret (Leave (Returned result))
  | Rejected message => onError message retryCount
  end.

Fixpoint loop (fuel : nat) (i : nat) (retryCount : Z)
  : M (option completion) :=
  match fuel with
  | O => ret None
  | S fuel' =>
      t <- attempt i retryCount ;;
      match t with
      | Leave c => ret (Some c)
      | Again retryCount' => loop fuel' (S i) retryCount'
      end
  end.

(** With a fallback call the request is handed to the cascade, every tier
    of which gets that one call; without, the loop above runs. *)
Definition makeApiRequestWithRetry (fuel : nat) : M (option completion) :=
  match fallbackApiCall with
  | Some fallback =>
      Cascade.makeApiRequestWithMultiFallback cfg env endpoint model apiCall
        (fun _ _ => fallback) false fuel
  | None => loop fuel 0%nat 0
  end.

End WithConfig.
End Retry.

(** ** The fallback stream of [createFallbackCall]

    At fallback level 0 the fallback call of [streamResponse] first tries a
    stream of its own (the [try] block of lines 1290-1377), with a decoder
    written out a second time and a content variable of its own,
    [fallbackContent], fresh at every call.  Whatever is thrown inside the
    block is caught and logged, and the call goes on to the non-streaming
    request. *)

Module FallbackStream.

Inductive event : Type :=
  (** [console.log(`Fallback stream connection established with ...`)] *)
  | Established
  (** [targetElement.innerHTML = convertMarkdownToHTML(fallbackContent)] *)
  | Rendered (fallbackContent : jsstring)
  (** [console.warn('Invalid JSON in fallback stream:', jsonString, e)] *)
  | InvalidJSON (jsonString : jsstring)
  (** [console.log(`Fallback stream completed after ${chunkCounter} chunks`)] *)
  | Completed (chunkCounter : Z)
  (** [console.error(`Fallback streaming with ... failed:`, streamError)] *)
  | Failed (message : jsstring).

Record state : Type := {
  fallbackContent : jsstring;
  printed : list event
}.

Section Decoder.

Variable number : Type.
Variable Number_truthy : number -> bool.
Variable Number_toString : number -> jsstring.
Variable JSON_parse : jsstring -> option (Json.value number).
Variable targetElement : bool.

Definition warn (jsonString : jsstring) (st : state) : state :=
  {| fallbackContent := fallbackContent st;
     printed := printed st ++ [InvalidJSON jsonString] |}.

(** The body of [for (const line of lines)]. *)
Definition processLine (st : state) (line : jsstring) : state :=
  if includes (str "[DONE]") line then st
  else
    let jsonString :=
      trim (if startsWith (str "data: ") line then skipn 6 line else line) in
    if negb (JsString.truthy jsonString) then st
    else
      match JSON_parse jsonString with
      | None => warn jsonString st
      | Some json =>
          match Json.contentDelta Number_truthy json with
          | None => warn jsonString st
          | Some contentDelta =>
              match Json.toString Number_toString contentDelta with
              | None => warn jsonString st
              | Some text =>
                  let content := fallbackContent st ++ text in
                  {| fallbackContent := content;
                     printed :=
                       printed st
                       ++ (if targetElement
                              && Json.truthy Number_truthy contentDelta
                           then [Rendered content] else []) |}
              end
          end
      end.

Definition processChunk (st : state) (chunk : jsstring) : state :=
  fold_left processLine (Stream.linesOf chunk) st.

Fixpoint readLoop (chunkCounter : Z) (st : state) (chunks : list jsstring)
  : Z * state :=
  match chunks with
  | [] => (chunkCounter, st)
  | chunk :: rest => readLoop (chunkCounter + 1) (processChunk st chunk) rest
  end.

(** The [try] block and its [catch]: the content returned, or [None] when
    the call goes on to the non-streaming request; and what was printed. *)
Definition tryStream (x : exchange) : option jsstring * list event :=
  match x with
  | FetchRejected message => (None, [Failed message])
  | Responded r chunks failure =>
      if negb (ok r) then
        (None, [Failed (str "Fallback streaming failed: "
                        ++ JsString.ofZ (status r))])
      else
        let (chunkCounter, st) :=
          readLoop 0 {| fallbackContent := []; printed := [Established] |} chunks in
        match failure with
        | Some message => (None, printed st ++ [Failed message])
        | None => (Some (fallbackContent st), printed st ++ [Completed chunkCounter])
        end
  end.

End Decoder.
End FallbackStream.

(** ** [updateConversationHistory] *)

Module History.

Inductive role_t : Type := system | user | assistant.

(** An element of [conversationHistory]: [{ role, content }]. *)
Record message : Type := {
  role : role_t;
  content : jsstring
}.

Definition MAX_HISTORY_TURNS : Z := 5.

(** [updateConversationHistory(userMessage, aiResponse, isInitialDiagnosis)]
    on the module-level array [conversationHistory]: the array afterwards. *)
Definition updateConversationHistory (userMessage aiResponse : jsstring)
    (isInitialDiagnosis : bool) (conversationHistory : list message)
  : list message :=
  if isInitialDiagnosis then
    ([] ++ [{| role := user; content := userMessage |}])
    ++ [{| role := assistant; content := aiResponse |}]
  else
    let pushed :=
      (conversationHistory ++ [{| role := user; content := userMessage |}])
      ++ [{| role := assistant; content := aiResponse |}] in
    let maxMessages := MAX_HISTORY_TURNS * 2 in
    if maxMessages <? len pushed
    then skipn (Z.to_nat (len pushed - maxMessages)) pushed
    else pushed.

End History.

(** ** [audioBufferToWav]

    An [ArrayBuffer] is the list of its bytes.  A [DataView] store outside
    the buffer and an [ArrayBuffer] of negative length throw a
    [RangeError], [getChannelData] of a channel that does not exist throws
    too: [None] stands for the exception.  [sampleRate], which the Web
    Audio API gives as a number, is taken integer-valued. *)

Module Wav.

Record AudioBuffer : Type := {
  sampleRate : Z;
  length : Z;
  (** [getChannelData(0)], [getChannelData(1)], ...: the samples of each
      channel, read as numbers *)
  channelData : list (list float)
}.

Definition numberOfChannels (audioBuffer : AudioBuffer) : Z :=
  len (channelData audioBuffer).

Definition bytes : Type := list Z.

Definition andThen {A B : Type} (c : option A) (k : A -> option B) : option B :=
  match c with
  | Some a => k a
  | None => None
  end.

Declare Scope wav_scope.
Delimit Scope wav_scope with wav.
Notation "x <- c ;; k" := (andThen c (fun x => k))
  (at level 61, c at next level, right associativity) : wav_scope.
Local Open Scope wav_scope.

(** [new ArrayBuffer(byteLength)], filled with zeros *)
Definition ArrayBuffer (byteLength : Z) : option bytes :=
  if byteLength <? 0 then None else Some (repeat 0 (Z.to_nat byteLength)).

(** The bytes of [value] modulo [256 ^ size], least significant first. *)
Definition littleEndian (size : nat) (value : Z) : bytes :=
  map (fun k => (value / 256 ^ Z.of_nat k) mod 256) (seq 0 size).

(** What every [DataView] setter does with the bytes it has made. *)
Definition store (byteOffset : Z) (bs : bytes) (buffer : bytes) : option bytes :=
  if (0 <=? byteOffset) && (byteOffset + len bs <=? len buffer)
  then Some (firstn (Z.to_nat byteOffset) buffer
             ++ bs ++ skipn (Z.to_nat (byteOffset + len bs)) buffer)
  else None.

Definition setUint8 (byteOffset value : Z) : bytes -> option bytes :=
  store byteOffset (littleEndian 1 value).

(** [view.setUint16(byteOffset, value, true)] *)
Definition setUint16 (byteOffset value : Z) : bytes -> option bytes :=
  store byteOffset (littleEndian 2 value).

(** [view.setUint32(byteOffset, value, true)] *)
Definition setUint32 (byteOffset value : Z) : bytes -> option bytes :=
  store byteOffset (littleEndian 4 value).

(** The integer part of a number, 0 for NaN and the infinities: the first
    step of [ToInt16]. *)
Definition truncate (x : float) : Z :=
  match Prim2SF x with
  | S754_finite s m e =>
      let magnitude :=
        if 0 <=? e then Z.pos m * 2 ^ e else Z.pos m / 2 ^ (- e) in
      if s then - magnitude else magnitude
  | _ => 0
  end.

(** [view.setInt16(byteOffset, value, true)] *)
Definition setInt16 (byteOffset : Z) (value : float) : bytes -> option bytes :=
  store byteOffset (littleEndian 2 (truncate value)).

(** [writeString(offset, string)] *)
Fixpoint writeString (offset : Z) (string : jsstring) (buffer : bytes)
  : option bytes :=
  match string with
  | [] => Some buffer
  | c :: rest =>
      buffer' <- setUint8 offset (Z.of_N c) buffer ;;
      writeString (offset + 1) rest buffer'
  end.

(** [getChannelData(channel)[i]] as a number: an index past the end reads
    [undefined], which is NaN as a number. *)
Definition sampleOf (data : list float) (i : nat) : float :=
  match nth_error data i with
  | Some sample => sample
  | None => PrimFloat.nan
  end.

(** [Math.max(-1, Math.min(1, sample)) * 0x7FFF] *)
Definition intSample (sample : float) : float :=
  PrimFloat.mul
    (JsNumber.Math_max (-1)%float (JsNumber.Math_min 1%float sample))
    32767%float.

(** The body of the inner loop, for frame [i] and [channel]. *)
Definition writeSample (audioBuffer : AudioBuffer) (i : nat)
    (state : option (Z * bytes)) (channel : nat) : option (Z * bytes) :=
  st <- state ;;
  data <- nth_error (channelData audioBuffer) channel ;;
  buffer' <- setInt16 (fst st) (intSample (sampleOf data i)) (snd st) ;;
  Some (fst st + 2, buffer').

(** The body of the outer loop, for frame [i]. *)
Definition writeFrame (audioBuffer : AudioBuffer)
    (state : option (Z * bytes)) (i : nat) : option (Z * bytes) :=
  fold_left (writeSample audioBuffer i)
    (seq 0 (Z.to_nat (numberOfChannels audioBuffer))) state.

(** The bytes of the [Blob] returned. *)
Definition audioBufferToWav (audioBuffer : AudioBuffer) : option bytes :=
  let numChannels := numberOfChannels audioBuffer in
  let sampleRate := sampleRate audioBuffer in
  let format := 1 in
  let bitDepth := 16 in
  let length := length audioBuffer * numChannels * 2 in
  buffer <- ArrayBuffer (44 + length) ;;
  buffer <- writeString 0 (str "RIFF") buffer ;;
  buffer <- setUint32 4 (36 + length) buffer ;;
  buffer <- writeString 8 (str "WAVE") buffer ;;
  buffer <- writeString 12 (str "fmt ") buffer ;;
  buffer <- setUint32 16 16 buffer ;;
  buffer <- setUint16 20 format buffer ;;
  buffer <- setUint16 22 numChannels buffer ;;
  buffer <- setUint32 24 sampleRate buffer ;;
  buffer <- setUint32 28 (sampleRate * numChannels * (bitDepth / 8)) buffer ;;
  buffer <- setUint16 32 (numChannels * (bitDepth / 8)) buffer ;;
  buffer <- setUint16 34 bitDepth buffer ;;
  buffer <- writeString 36 (str "data") buffer ;;
  buffer <- setUint32 40 length buffer ;;
  st <- fold_left (writeFrame audioBuffer)
          (seq 0 (Z.to_nat (Wav.length audioBuffer))) (Some (44, buffer)) ;;
  Some (snd st).

End Wav.

(* ================================================================== *)
(** * Part II.  Properties                                              *)
(* ================================================================== *)

Unset Implicit Arguments.

(** ** The usage log *)

Section UsageLog.

Import apiUsageMonitor.

Lemma len_nonneg : forall {A : Type} (l : list A), 0 <= len l.
Proof. intros; unfold len; lia. Qed.

Lemma len_cons : forall {A : Type} (a : A) (l : list A), len (a :: l) = len l + 1.
Proof. intros; unfold len; cbn [List.length]; lia. Qed.

Lemma len_app : forall {A : Type} (l l' : list A), len (l ++ l') = len l + len l'.
Proof. intros; unfold len; rewrite length_app; lia. Qed.

Lemma len_removelast :
  forall {A : Type} (l : list A), l <> [] -> len (removelast l) = len l - 1.
Proof.
  intros A l Hl. destruct (exists_last Hl) as (l' & a & ->).
  rewrite removelast_last, len_app. unfold len; cbn; lia.
Qed.

(** The log a [logApiCall] leaves: the new entry in front of the old log,
    which loses its last entry when it was full. *)
Lemma logApiCall_usageLog :
  forall now ep md ok ec this,
    1 <= maxLogSize this ->
    len (usageLog this) <= maxLogSize this ->
    usageLog (fst (logApiCall now ep md ok ec this))
    = {| timestamp := now; endpoint := ep; model := md;
         success := ok; errorCode := ec |}
      :: (if len (usageLog this) <? maxLogSize this then usageLog this
          else removelast (usageLog this)).
Proof.
  intros now ep md ok ec this Hcap Hlen.
  unfold logApiCall; cbn [fst usageLog].
  rewrite len_cons.
  destruct (Z.ltb_spec (maxLogSize this) (len (usageLog this) + 1)) as [Hfull | Hroom];
    destruct (Z.ltb_spec (len (usageLog this)) (maxLogSize this)) as [Hlt | Hge];
    try lia; try reflexivity.
  destruct (usageLog this) as [| e0 log] eqn:Hlog.
  - unfold len in Hge; cbn in Hge; lia.
  - reflexivity.
Qed.

Lemma logApiCall_len :
  forall now ep md ok ec this,
    1 <= maxLogSize this ->
    len (usageLog this) <= maxLogSize this ->
    len (usageLog (fst (logApiCall now ep md ok ec this))) <= maxLogSize this.
Proof.
  intros now ep md ok ec this Hcap Hlen.
  rewrite logApiCall_usageLog, len_cons by assumption.
  destruct (Z.ltb_spec (len (usageLog this)) (maxLogSize this)) as [Hlt | Hge].
  - lia.
  - rewrite len_removelast; [lia |].
    intros Hnil. rewrite Hnil in Hge. unfold len in Hge; cbn in Hge; lia.
Qed.

(** C7.  Recording a call on a monitor whose log is within its capacity
    (of at least one entry) keeps the capacity, leaves a log within it, and
    puts the new entry in front of the old log, from which exactly the last
    (oldest) entry is dropped when, and only when, the log was full. *)
Theorem usageLog_bounded_evicts_oldest :
  forall now ep md ok ec this,
    1 <= maxLogSize this ->
    len (usageLog this) <= maxLogSize this ->
    let this' := fst (logApiCall now ep md ok ec this) in
    maxLogSize this' = maxLogSize this
    /\ len (usageLog this') <= maxLogSize this'
    /\ usageLog this'
       = {| timestamp := now; endpoint := ep; model := md;
            success := ok; errorCode := ec |}
         :: (if len (usageLog this) <? maxLogSize this then usageLog this
             else removelast (usageLog this)).
Proof.
  intros now ep md ok ec this Hcap Hlen this'.
  split; [reflexivity |]. split.
  - change (maxLogSize this') with (maxLogSize this).
    apply logApiCall_len; assumption.
  - apply logApiCall_usageLog; assumption.
Qed.

(** At the first call on the initial monitor (capacity 100). *)
Lemma usageLog_bounded_evicts_oldest_witness :
  1 <= maxLogSize initial
  /\ len (usageLog initial) <= maxLogSize initial
  /\ (let this' := fst (logApiCall 0 (str "chat") (str "gpt-4o") true None initial) in
      maxLogSize this' = maxLogSize initial
      /\ len (usageLog this') <= maxLogSize this'
      /\ usageLog this'
         = {| timestamp := 0; endpoint := str "chat"; model := str "gpt-4o";
              success := true; errorCode := None |}
           :: (if len (usageLog initial) <? maxLogSize initial
               then usageLog initial else removelast (usageLog initial))).
Proof.
  split; [vm_compute; discriminate |].
  split; [vm_compute; discriminate |].
  apply (usageLog_bounded_evicts_oldest 0 (str "chat") (str "gpt-4o") true None initial).
  - vm_compute; discriminate.
  - vm_compute; discriminate.
Defined.

(** One recorded call: its arguments and the clock reading. *)
Definition recorded : Type := (Z * jsstring * jsstring * bool * option Z)%type.

(** The monitor after a sequence of calls, oldest first. *)
Definition recordAll (calls : list recorded) (this : t) : t :=
  fold_left
    (fun m c => match c with
                | (now, ep, md, ok, ec) => fst (logApiCall now ep md ok ec m)
                end)
    calls this.

(** Whatever is recorded on the initial monitor, its log never holds more
    than 100 entries. *)
Lemma usageLog_never_exceeds_capacity :
  forall calls,
    maxLogSize (recordAll calls initial) = 100
    /\ len (usageLog (recordAll calls initial)) <= 100.
Proof.
  intros calls. unfold recordAll.
  assert (H : maxLogSize initial = 100 /\ len (usageLog initial) <= 100)
    by (split; [reflexivity | vm_compute; discriminate]).
  revert H. generalize initial as this. induction calls as [| c calls IH]; intros this [Hcap Hlen].
  - auto.
  - cbn [fold_left]. apply IH. destruct c as [[[[now ep] md] ok] ec].
    assert (Hl := logApiCall_len now ep md ok ec this).
    split; [exact Hcap | lia].
Qed.

End UsageLog.

(** ** Usage statistics *)

Section UsageStats.

Import apiUsageMonitor.

(** C10, as stated, fails on the empty log: the object returned for it has
    no [successRate]. *)
Lemma getUsageStats_empty_log_lacks_successRate :
  usageLog initial = []
  /\ Stats.successRate (fst (getUsageStats initial)) = None.
Proof. split; reflexivity. Qed.

(** C10, amended.  [getUsageStats] leaves the monitor as it was; the object
    it returns has [total], [success] and [failure], with [total] the length
    of the log, [success] the number of successful entries and
    [total = success + failure]; it has a [successRate] exactly when the
    log is not empty. *)
Theorem getUsageStats_pure_read :
  forall this,
    let s := fst (getUsageStats this) in
    snd (getUsageStats this) = this
    /\ Stats.total s = len (usageLog this)
    /\ Stats.success s = len (filter (fun call => success call) (usageLog this))
    /\ Stats.total s = Stats.success s + Stats.failure s
    /\ (Stats.successRate s = None <-> usageLog this = []).
Proof.
  intros this. unfold getUsageStats.
  destruct (usageLog this) as [| e log] eqn:Hlog.
  - cbn. repeat split; reflexivity.
  - replace (len (e :: log) =? 0) with false
      by (symmetry; apply Z.eqb_neq; rewrite len_cons; pose proof (len_nonneg log); lia).
    cbn [fst snd Stats.total Stats.success Stats.failure Stats.successRate].
    repeat split; try reflexivity; try lia; discriminate.
Qed.

End UsageStats.

(** ** Anomaly signals *)

Section Anomalies.

Import apiUsageMonitor.

Local Open Scope Q_scope.

Lemma Qltb_true_iff : forall x y : Q, Qltb x y = true <-> x < y.
Proof.
  intros x y. unfold Qltb. rewrite negb_true_iff.
  split.
  - intros H. apply Qnot_le_lt. intros Hle.
    apply Qle_bool_iff in Hle. congruence.
  - intros H. destruct (Qle_bool y x) eqn:E; [| reflexivity].
    apply Qle_bool_iff in E. exfalso. exact (Qlt_not_le _ _ H E).
Qed.

Lemma Qdiv_lt_iff :
  forall a m b : Z, (0 < m)%Z ->
    inject_Z a / inject_Z m < inject_Z b <-> (a < b * m)%Z.
Proof.
  intros a m b Hm. destruct m as [| p | p]; try lia.
  unfold Qlt, Qdiv, Qmult, Qinv, inject_Z; cbn [Qnum Qden].
  rewrite Pos.mul_1_l. split; intros H; nia.
Qed.

Lemma Qlt_div_iff :
  forall (c d : positive) (a m : Z), (0 < m)%Z ->
    Z.pos c # d < inject_Z a / inject_Z m <-> (Z.pos c * m < Z.pos d * a)%Z.
Proof.
  intros c d a m Hm. destruct m as [| p | p]; try lia.
  unfold Qlt, Qdiv, Qmult, Qinv, inject_Z; cbn [Qnum Qden].
  rewrite Pos.mul_1_l. split; intros H; nia.
Qed.

(** The binary64 comparison [failed / recent > 0.7] decides the exact one,
    [failed / recent > 7/10], on every pair the check can meet: at most 20
    recent calls, of which some are failed.  Checked pair by pair. *)
Definition failureRatioTable : bool :=
  forallb
    (fun recent =>
       forallb
         (fun failed =>
            Bool.eqb (failureRatioAbove (Z.of_nat failed) (Z.of_nat recent))
                     (7 * Z.of_nat recent <? 10 * Z.of_nat failed)%Z)
         (seq 0 (S recent)))
    (seq 1 20).

Lemma failureRatioTable_holds : failureRatioTable = true.
Proof. vm_compute. reflexivity. Qed.

Lemma failureRatioAbove_exact :
  forall failed recent : Z,
    (0 <= failed <= recent)%Z -> (1 <= recent <= 20)%Z ->
    failureRatioAbove failed recent = (7 * recent <? 10 * failed)%Z.
Proof.
  intros failed recent Hf Hr.
  pose proof failureRatioTable_holds as H. unfold failureRatioTable in H.
  rewrite forallb_forall in H.
  assert (Hrow := H (Z.to_nat recent) ltac:(apply in_seq; lia)).
  rewrite forallb_forall in Hrow.
  assert (Hcell := Hrow (Z.to_nat failed) ltac:(apply in_seq; lia)).
  rewrite !Z2Nat.id in Hcell by lia.
  apply eqb_prop. exact Hcell.
Qed.

Lemma fold_left_Zadd :
  forall (l : list Z) (acc : Z),
    fold_left Z.add l acc = (acc + fold_left Z.add l 0)%Z.
Proof.
  induction l as [| x l IH]; intros acc; cbn [fold_left].
  - lia.
  - rewrite IH, (IH (0 + x)%Z). lia.
Qed.

Lemma last_cons_default :
  forall (b : Z) (ts : list Z) (a : Z), last (b :: ts) a = last ts b.
Proof.
  intros b ts. revert b. induction ts as [| c ts IH]; intros b a.
  - reflexivity.
  - change (last (b :: c :: ts) a) with (last (c :: ts) a).
    rewrite (IH c a), (IH c b). reflexivity.
Qed.

(** The differences telescope: their sum is the newest time minus the
    oldest. *)
Lemma timeDiffs_sum :
  forall (a : Z) (ts : list Z),
    fold_left Z.add (timeDiffs (a :: ts)) 0%Z = (a - last ts a)%Z.
Proof.
  intros a ts. revert a. induction ts as [| b ts IH]; intros a.
  - cbn. lia.
  - change (timeDiffs (a :: b :: ts)) with ((a - b)%Z :: timeDiffs (b :: ts)).
    cbn [fold_left]. rewrite fold_left_Zadd, IH.
    rewrite last_cons_default. lia.
Qed.

Lemma timeDiffs_len :
  forall (a : Z) (ts : list Z), len (timeDiffs (a :: ts)) = len ts.
Proof.
  intros a ts. revert a. induction ts as [| b ts IH]; intros a.
  - reflexivity.
  - change (timeDiffs (a :: b :: ts)) with ((a - b)%Z :: timeDiffs (b :: ts)).
    rewrite !len_cons, IH. reflexivity.
Qed.

(** The quantity the specification names: the mean of the absolute
    differences between consecutive times. *)
Definition meanAbsoluteTimeDelta (timestamps : list Z) : Q :=
  inject_Z (fold_left Z.add (map Z.abs (timeDiffs timestamps)) 0%Z)
  / inject_Z (len (timeDiffs timestamps)).

(** Newest first, no time later than the one before it. *)
Fixpoint nonIncreasing (timestamps : list Z) : Prop :=
  match timestamps with
  | a :: (b :: _) as rest => (b <= a)%Z /\ nonIncreasing rest
  | _ => True
  end.

(** On a log whose times never run backwards the script's mean is the mean
    absolute difference. *)
Lemma avgTimeBetweenCalls_absolute :
  forall timestamps,
    nonIncreasing timestamps ->
    avgTimeBetweenCalls (timeDiffs timestamps)
    = meanAbsoluteTimeDelta timestamps.
Proof.
  intros ts H. unfold avgTimeBetweenCalls, meanAbsoluteTimeDelta.
  replace (map Z.abs (timeDiffs ts)) with (timeDiffs ts); [reflexivity |].
  induction ts as [| a ts IH]; [reflexivity |].
  destruct ts as [| b ts]; [reflexivity |].
  destruct H as [Hab Hrest].
  change (timeDiffs (a :: b :: ts)) with ((a - b)%Z :: timeDiffs (b :: ts)).
  cbn [map]. rewrite <- (IH Hrest). f_equal. lia.
Qed.

Lemma checkForSuspiciousActivity_high :
  forall this,
    In HighFailureRateAlert (checkForSuspiciousActivity this)
    <-> highFailureRate (firstn 20 (usageLog this)) = true.
Proof.
  intros this. unfold checkForSuspiciousActivity.
  destruct (highFailureRate _), (rapidCalls _); cbn; split; intros H;
    try reflexivity; auto;
    repeat (destruct H as [H | H]; try discriminate); try contradiction;
    discriminate.
Qed.

Lemma checkForSuspiciousActivity_rapid :
  forall this,
    In RapidCallsAlert (checkForSuspiciousActivity this)
    <-> rapidCalls (firstn 20 (usageLog this)) = true.
Proof.
  intros this. unfold checkForSuspiciousActivity.
  destruct (highFailureRate _), (rapidCalls _); cbn; split; intros H;
    try reflexivity; auto;
    repeat (destruct H as [H | H]; try discriminate); try contradiction;
    discriminate.
Qed.

Lemma highFailureRate_iff :
  forall recent : list entry,
    (len recent <= 20)%Z ->
    highFailureRate recent = true
    <-> (5 <= len recent)%Z
        /\ 7 # 10 < inject_Z (len (filter (fun call => negb (success call)) recent))
                     / inject_Z (len recent).
Proof.
  intros recent Hn. unfold highFailureRate.
  set (failed := filter (fun call => negb (success call)) recent).
  assert (Hf : (0 <= len failed <= len recent)%Z).
  { split; [apply len_nonneg |]. unfold len, failed.
    apply Nat2Z.inj_le, filter_length_le. }
  rewrite andb_true_iff, Z.leb_le.
  split; intros [H5 H]; (split; [exact H5 |]).
  - rewrite failureRatioAbove_exact in H by lia.
    apply Z.ltb_lt in H. apply Qlt_div_iff; lia.
  - rewrite failureRatioAbove_exact by lia.
    apply Z.ltb_lt. apply Qlt_div_iff in H; lia.
Qed.

Lemma rapidCalls_iff :
  forall recent : list entry,
    rapidCalls recent = true
    <-> (5 <= len recent)%Z
        /\ inject_Z (hd 0%Z (map timestamp recent)
                     - last (map timestamp recent) 0%Z)
           / inject_Z (len recent - 1) < inject_Z 500.
Proof.
  intros recent. unfold rapidCalls.
  rewrite andb_true_iff, Z.leb_le, Qltb_true_iff.
  destruct recent as [| e rest].
  - unfold len; cbn [List.length]. split; intros [H5 _]; lia.
  - cbn [map hd]. unfold avgTimeBetweenCalls.
    rewrite timeDiffs_sum, timeDiffs_len, last_cons_default.
    replace (len (e :: rest) - 1)%Z with (len (map timestamp rest))
      by (rewrite len_cons; unfold len; rewrite length_map; lia).
    reflexivity.
Qed.

(** The log of five calls made at clock readings 1000, 0, 1000, 0, 1000:
    a clock set back twice. *)
Definition backwardsClockLog : t :=
  recordAll
    [(1000%Z, str "chat", str "gpt-4o", true, None);
     (0%Z, str "chat", str "gpt-4o", true, None);
     (1000%Z, str "chat", str "gpt-4o", true, None);
     (0%Z, str "chat", str "gpt-4o", true, None);
     (1000%Z, str "chat", str "gpt-4o", true, None)]
    initial.

(** C8, as stated, fails where the times of the log run backwards: the
    five calls are a second apart each (mean absolute difference 1000 ms),
    and the rapid-calls warning is printed, the signed differences
    cancelling out. *)
Lemma rapid_alert_with_mean_absolute_gap_of_a_second :
  map timestamp (usageLog backwardsClockLog) = [1000; 0; 1000; 0; 1000]%Z
  /\ In RapidCallsAlert (checkForSuspiciousActivity backwardsClockLog)
  /\ meanAbsoluteTimeDelta (map timestamp (firstn 20 (usageLog backwardsClockLog)))
     == inject_Z 1000
  /\ ~ meanAbsoluteTimeDelta (map timestamp (firstn 20 (usageLog backwardsClockLog)))
       < inject_Z 500.
Proof.
  split; [reflexivity |]. split; [| split].
  - vm_compute. left; reflexivity.
  - vm_compute. reflexivity.
  - unfold Qlt. vm_compute. discriminate.
Qed.

(** C8, amended.  Over the 20 most recent entries of the log: the
    high-failure-rate warning is printed exactly when they are at least 5
    and the ratio of failed ones is strictly above 7/10; the rapid-calls
    warning is printed exactly when they are at least 5 and the time from
    the oldest to the newest of them, divided by the number of gaps (the
    mean of the signed differences newer minus older), is strictly below
    500 ms.  Whatever is printed, the record completes: the warnings are
    followed by the line of the call, on the updated monitor. *)
Theorem anomaly_signals_thresholds :
  forall this,
    let recent := firstn 20 (usageLog this) in
    let failed := filter (fun call => negb (success call)) recent in
    let times := map timestamp recent in
    (In HighFailureRateAlert (checkForSuspiciousActivity this)
     <-> (5 <= len recent)%Z
         /\ 7 # 10 < inject_Z (len failed) / inject_Z (len recent))
    /\ (In RapidCallsAlert (checkForSuspiciousActivity this)
        <-> (5 <= len recent)%Z
            /\ inject_Z (hd 0%Z times - last times 0%Z)
               / inject_Z (len recent - 1) < inject_Z 500)
    /\ (forall now ep md ok ec,
          snd (logApiCall now ep md ok ec this)
          = checkForSuspiciousActivity (fst (logApiCall now ep md ok ec this))
            ++ [ApiCallLogged {| timestamp := now; endpoint := ep; model := md;
                                 success := ok; errorCode := ec |}]).
Proof.
  intros this recent failed times. split; [| split].
  - rewrite checkForSuspiciousActivity_high. apply highFailureRate_iff.
    unfold len, recent. apply Nat2Z.inj_le with (m := 20%nat), firstn_le_length.
  - rewrite checkForSuspiciousActivity_rapid. apply rapidCalls_iff.
  - reflexivity.
Qed.

(** The two boundaries.  Seven failures among ten calls (ratio exactly
    7/10) print no failure warning; five calls 500 ms apart (mean exactly
    500 ms) print no rapid-calls warning. *)
Definition sevenOfTenFailed : t :=
  recordAll
    (map (fun k => (Z.of_nat k * 1000, str "chat", str "gpt-4o",
                    (k <? 3)%nat, None)%Z)
         (seq 0 10))
    initial.

Definition halfSecondApart : t :=
  recordAll
    (map (fun k => (Z.of_nat k * 500, str "chat", str "gpt-4o", true, None)%Z)
         (seq 0 5))
    initial.

Lemma ratio_of_exactly_seven_tenths_is_silent :
  len (filter (fun call => negb (success call)) (usageLog sevenOfTenFailed)) = 7%Z
  /\ len (usageLog sevenOfTenFailed) = 10%Z
  /\ ~ In HighFailureRateAlert (checkForSuspiciousActivity sevenOfTenFailed).
Proof.
  split; [reflexivity |]. split; [reflexivity |].
  vm_compute. intuition discriminate.
Qed.

Lemma mean_gap_of_exactly_500_is_silent :
  map timestamp (usageLog halfSecondApart) = [2000; 1500; 1000; 500; 0]%Z
  /\ ~ In RapidCallsAlert (checkForSuspiciousActivity halfSecondApart).
Proof.
  split; [reflexivity |].
  vm_compute. intuition discriminate.
Qed.

End Anomalies.

(** ** The rate window *)

Section RateWindow.

Import apiRequestQueue.

(** The timestamps [cleanup(now)] retains. *)
Definition retained (cfg : API_CONFIG_t) (now : Z) (rs : list Z) : list Z :=
  filter (fun timestamp => now - rateLimitResetTime cfg <=? timestamp) rs.

Lemma retained_within :
  forall cfg now rs,
    Forall (fun t => now - t <= rateLimitResetTime cfg) (retained cfg now rs).
Proof.
  intros cfg now rs. apply Forall_forall. intros t Ht.
  apply filter_In in Ht. destruct Ht as [_ Ht]. apply Z.leb_le in Ht. lia.
Qed.

Lemma canMakeRequest_eq :
  forall cfg env w,
    canMakeRequest cfg env w
    = (len (retained cfg (clock env (ticks w)) (requests w))
         <? rateLimitPerMinute cfg,
       {| ticks := S (ticks w); draws := draws w;
          requests := retained cfg (clock env (ticks w)) (requests w);
          monitor := monitor w; trace := trace w |}).
Proof. reflexivity. Qed.

Lemma addRequest_eq :
  forall cfg env w,
    addRequest cfg env w
    = (tt,
       {| ticks := S (ticks w); draws := draws w;
          requests :=
            retained cfg (clock env (ticks w))
              (requests w ++ [clock env (ticks w)]);
          monitor := monitor w; trace := trace w |}).
Proof. reflexivity. Qed.

(** The reading of the clock taken last before [w]. *)
Definition lastNow (env : environment) (w : world) : Z :=
  clock env (Nat.pred (ticks w)).

(** The window after [n] calls of [addRequest]. *)
Fixpoint afterRequests (cfg : API_CONFIG_t) (env : environment) (n : nat)
    (w : world) : world :=
  match n with
  | O => w
  | S n' => afterRequests cfg env n' (snd (addRequest cfg env w))
  end.

(** A clock that reads 0, 1, 2, ... milliseconds. *)
Definition tickingClock : environment :=
  {| clock := fun k => Z.of_nat k; random := fun _ => 0%float |}.

(** C3, as stated, fails at the boundary: with exactly
    [rateLimitPerMinute] = 20 timestamps retained after the purge,
    [canMakeRequest] answers false. *)
Lemma canMakeRequest_refuses_at_the_limit :
  let w := afterRequests API_CONFIG tickingClock 20 initial_world in
  len (requests (snd (canMakeRequest API_CONFIG tickingClock w)))
  = rateLimitPerMinute API_CONFIG
  /\ len (requests (snd (canMakeRequest API_CONFIG tickingClock w)))
     <= rateLimitPerMinute API_CONFIG
  /\ fst (canMakeRequest API_CONFIG tickingClock w) = false.
Proof.
  cbv zeta. split; [reflexivity |]. split; [vm_compute; discriminate | reflexivity].
Qed.

(** C3, amended.  [canMakeRequest] answers true exactly when, after its
    purge, the number of timestamps retained is strictly below
    [rateLimitPerMinute]. *)
Theorem canMakeRequest_iff_below_limit :
  forall cfg env w,
    fst (canMakeRequest cfg env w) = true
    <-> len (requests (snd (canMakeRequest cfg env w))) < rateLimitPerMinute cfg.
Proof.
  intros cfg env w. rewrite canMakeRequest_eq. cbn [fst snd requests].
  apply Z.ltb_lt.
Qed.

(** A clock that reads 0 once and 60000 ever after. *)
Definition aMinuteLater : environment :=
  {| clock := fun k => match k with O => 0 | S _ => 60000 end;
     random := fun _ => 0%float |}.

(** C6, as stated, fails at the boundary: a timestamp exactly
    [rateLimitResetTime] = 60000 ms old survives the purge. *)
Lemma purge_retains_timestamp_of_age_60000 :
  let w := afterRequests API_CONFIG aMinuteLater 1 initial_world in
  let w' := snd (canMakeRequest API_CONFIG aMinuteLater w) in
  requests w' = [0]
  /\ lastNow aMinuteLater w' = 60000
  /\ ~ (lastNow aMinuteLater w' - 0 < rateLimitResetTime API_CONFIG).
Proof.
  cbv zeta. split; [reflexivity |]. split; [reflexivity |].
  vm_compute. discriminate.
Qed.

Lemma getWaitTime_eq :
  forall cfg env w,
    getWaitTime cfg env w
    = let rs1 := retained cfg (clock env (ticks w)) (requests w) in
      if len rs1 <? rateLimitPerMinute cfg then
        (0, {| ticks := S (ticks w); draws := draws w; requests := rs1;
               monitor := monitor w; trace := trace w |})
      else
        let now := clock env (S (ticks w)) in
        let rs2 := retained cfg now rs1 in
        (match rs2 with
         | [] => 0
         | oldestRequest :: _ =>
             Z.max 0 (oldestRequest + rateLimitResetTime cfg - now)
         end,
         {| ticks := S (S (ticks w)); draws := draws w; requests := rs2;
            monitor := monitor w; trace := trace w |}).
Proof.
  intros cfg env w. unfold getWaitTime. unfold bind at 1.
  rewrite canMakeRequest_eq. cbv zeta.
  destruct (len (retained cfg (clock env (ticks w)) (requests w))
            <? rateLimitPerMinute cfg); [reflexivity |].
  unfold bind, Date_now, cleanup, getRequests, setRequests, bind, ret.
  cbn [ticks draws requests monitor trace].
  fold (retained cfg (clock env (S (ticks w)))
          (retained cfg (clock env (ticks w)) (requests w))).
  destruct (retained cfg (clock env (S (ticks w)))
              (retained cfg (clock env (ticks w)) (requests w)));
    reflexivity.
Qed.

Lemma getWaitTime_requests :
  forall cfg env w,
    Forall (fun t => lastNow env (snd (getWaitTime cfg env w)) - t
                     <= rateLimitResetTime cfg)
           (requests (snd (getWaitTime cfg env w))).
Proof.
  intros cfg env w. rewrite getWaitTime_eq. cbv zeta.
  destruct (len (retained cfg (clock env (ticks w)) (requests w))
            <? rateLimitPerMinute cfg);
    cbn [snd requests]; apply retained_within.
Qed.

(** C6, amended.  After the purge of [addRequest], [canMakeRequest] and
    [getWaitTime], every timestamp retained is at most
    [rateLimitResetTime] older than the clock reading the purge was made
    at: [now - t <= rateLimitResetTime], the bound itself included. *)
Theorem retained_timestamps_within_window :
  forall cfg env w,
    Forall (fun t => lastNow env (snd (addRequest cfg env w)) - t
                     <= rateLimitResetTime cfg)
           (requests (snd (addRequest cfg env w)))
    /\ Forall (fun t => lastNow env (snd (canMakeRequest cfg env w)) - t
                        <= rateLimitResetTime cfg)
              (requests (snd (canMakeRequest cfg env w)))
    /\ Forall (fun t => lastNow env (snd (getWaitTime cfg env w)) - t
                        <= rateLimitResetTime cfg)
              (requests (snd (getWaitTime cfg env w))).
Proof.
  intros cfg env w. split; [| split].
  - rewrite addRequest_eq. apply retained_within.
  - rewrite canMakeRequest_eq. apply retained_within.
  - apply getWaitTime_requests.
Qed.

End RateWindow.

(** ** The fallback cascade *)

(** What the trace tells of a request: the tier of every physical attempt,
    every call of the fallback factory, and the last error logged. *)
Definition calls (tr : list event) : list Z :=
  flat_map (fun e => match e with Called l => [l] | _ => [] end) tr.

Definition factoryCalls (tr : list event) : list (option jsstring * Z) :=
  flat_map
    (fun e => match e with FallbackCallCreated m l => [(m, l)] | _ => [] end)
    tr.

(** The tiers a request goes through, in order: the tiers of its attempts
    without the repetitions of a tier that follow one another. *)
Fixpoint tierPath (levels : list Z) : list Z :=
  match levels with
  | [] => []
  | l :: rest =>
      match rest with
      | [] => [l]
      | l' :: _ => if l =? l' then tierPath rest else l :: tierPath rest
      end
  end.

Definition lastErrorFrom (acc : option jsstring) (tr : list event)
  : option jsstring :=
  fold_left
    (fun acc e => match e with RequestFailed _ _ m => Some m | _ => acc end)
    tr acc.

Definition lastError (tr : list event) : option jsstring :=
  lastErrorFrom None tr.

(** Events that are none of the three. *)
Definition silent (e : event) : Prop :=
  match e with
  | Called _ | RequestFailed _ _ _ | FallbackCallCreated _ _ => False
  | _ => True
  end.

Lemma silent_calls : forall es, Forall silent es -> calls es = [].
Proof.
  induction 1 as [| e es He _ IH]; [reflexivity |].
  unfold calls in *; cbn [flat_map]. rewrite IH.
  destruct e; try reflexivity; contradiction.
Qed.

Lemma silent_factoryCalls : forall es, Forall silent es -> factoryCalls es = [].
Proof.
  induction 1 as [| e es He _ IH]; [reflexivity |].
  unfold factoryCalls in *; cbn [flat_map]. rewrite IH.
  destruct e; try reflexivity; contradiction.
Qed.

Lemma silent_lastError :
  forall es acc, Forall silent es -> lastErrorFrom acc es = acc.
Proof.
  intros es acc H. revert acc.
  induction H as [| e es He _ IH]; intros acc; [reflexivity |].
  unfold lastErrorFrom in *; cbn [fold_left]. rewrite IH.
  destruct e; try reflexivity; contradiction.
Qed.

Lemma calls_app : forall a b, calls (a ++ b) = calls a ++ calls b.
Proof. intros; unfold calls; apply flat_map_app. Qed.

Lemma factoryCalls_app :
  forall a b, factoryCalls (a ++ b) = factoryCalls a ++ factoryCalls b.
Proof. intros; unfold factoryCalls; apply flat_map_app. Qed.

Lemma lastErrorFrom_app :
  forall a b acc, lastErrorFrom acc (a ++ b) = lastErrorFrom (lastErrorFrom acc a) b.
Proof. intros; unfold lastErrorFrom; apply fold_left_app. Qed.

(** The monitor prints warnings and the line of the call, nothing else. *)
Lemma monitor_prints_silent :
  forall now ep md ok ec this,
    Forall silent (snd (apiUsageMonitor.logApiCall now ep md ok ec this)).
Proof.
  intros. unfold apiUsageMonitor.logApiCall; cbn [snd].
  apply Forall_app; split; [| repeat constructor].
  unfold apiUsageMonitor.checkForSuspiciousActivity.
  apply Forall_app; split;
    match goal with |- Forall _ (if ?b then _ else _) => destruct b end;
    repeat constructor.
Qed.

Lemma bind_assoc :
  forall (A B C : Type) (c : M A) (k : A -> M B) (h : B -> M C) (w : world),
    bind (bind c k) h w = bind c (fun a => bind (k a) h) w.
Proof. intros. unfold bind. destruct (c w) as [a w']. reflexivity. Qed.

Lemma bind_ext :
  forall (A B : Type) (c : M A) (k k' : A -> M B) (w : world),
    (forall a w', k a w' = k' a w') -> bind c k w = bind c k' w.
Proof. intros A B c k k' w H. unfold bind. destruct (c w) as [a w']. apply H. Qed.

Lemma startsWith_app : forall x q, startsWith x (x ++ q) = true.
Proof.
  induction x as [| c x IH]; intros q; [reflexivity |].
  cbn. rewrite N.eqb_refl. apply IH.
Qed.

Lemma includes_infix : forall p x q, includes x (p ++ x ++ q) = true.
Proof.
  induction p as [| c p IH]; intros x q.
  - cbn [app]. pose proof (startsWith_app x q) as H.
    destruct (x ++ q); cbn [includes]; rewrite H; reflexivity.
  - cbn [app includes]. rewrite IH. apply orb_true_r.
Qed.

Lemma includes_suffix : forall p x, includes x (p ++ x) = true.
Proof.
  intros p x. rewrite <- (app_nil_r x) at 2. apply includes_infix.
Qed.

Section CascadeFacts.

Import Cascade.

Variable cfg : API_CONFIG_t.
Variable env : environment.
Variable endpoint model : jsstring.
Variable apiCall : executable.
Variable createFallbackCall : option jsstring -> Z -> executable.
Variable targetElement : bool.

(** Lines 199-206: the admission check, the wait it may ask for, and the
    recording of the call. *)
Definition admission : M unit :=
  (ok <- apiRequestQueue.canMakeRequest cfg env ;;
   (if negb ok then
      waitTime <- apiRequestQueue.getWaitTime cfg env ;;
      emit (RateLimitReached waitTime) ;;
      wait (JsNumber.ofZ waitTime)
    else ret tt) ;;
   apiRequestQueue.addRequest cfg env)%js.

(** Admission touches the window and the clock only, and prints nothing
    but its own wait. *)
Lemma admission_spec :
  forall w,
    exists tk rs es,
      admission w
      = (tt, {| ticks := tk; draws := draws w; requests := rs;
                monitor := monitor w; trace := trace w ++ es |})
      /\ Forall silent es.
Proof.
  intros w. unfold admission. unfold bind at 1.
  rewrite canMakeRequest_eq.
  destruct (len (retained cfg (clock env (ticks w)) (requests w))
            <? rateLimitPerMinute cfg) eqn:Hok; cbn [negb].
  - unfold bind, ret. rewrite addRequest_eq. cbn [ticks draws requests monitor trace].
    eexists _, _, []. split; [| constructor].
    rewrite app_nil_r. reflexivity.
  - unfold bind at 1. unfold bind at 1. rewrite getWaitTime_eq. cbv zeta.
    cbn [ticks draws requests monitor trace].
    match goal with
    | |- context [if ?b then _ else _] => destruct b
    end;
      unfold bind, emit, wait, emit, ret; rewrite addRequest_eq;
      cbn [ticks draws requests monitor trace];
      rewrite <- app_assoc;
      eexists _, _, _; (split; [reflexivity | repeat constructor ]).
Qed.

(** The three ways on from a failed attempt. *)
Definition rateLimited (message : jsstring) : bool :=
  JsString.truthy message && includes (str "429") message.

Definition bumped (v : vars) : vars :=
  {| retryCount := retryCount v + 1;
     fallbackLevel := fallbackLevel v;
     currentApiCall := currentApiCall v |}.

Definition promoted (v : vars) : vars :=
  {| retryCount := 0;
     fallbackLevel := fallbackLevel v + 1;
     currentApiCall :=
       createFallbackCall (fallbackModelAt cfg (fallbackLevel v + 1))
                          (fallbackLevel v + 1) |}.

(** What the [catch] block decides, which depends on the error and the
    loop's variables only. *)
Definition decide (message : jsstring) (v : vars) : turn :=
  if rateLimited message then checkExhausted cfg message (bumped v)
  else if retryCount v <? maxRetries cfg then checkExhausted cfg message (bumped v)
  else if fallbackLevel v <? len (fallbackModels cfg) - 1
       then checkExhausted cfg message (promoted v)
       else Leave (Thrown (str "All fallback options exhausted. Last error: "
                           ++ message)).

(** [getRetryDelay(retryCount)] when [Math.random()] draws [r]. *)
Definition backoffDelay (retryCount : Z) (r : float) : float :=
  PrimFloat.add
    (JsNumber.Math_min
       (JsNumber.ofZ (maxRetryDelay cfg))
       (PrimFloat.mul (JsNumber.ofZ (retryDelay cfg))
                      (JsNumber.Math_pow2 retryCount)))
    (PrimFloat.mul r 1000%float).

(** What the [catch] block prints and waits for after the monitor's lines,
    when [Math.random()] would draw [r]. *)
Definition decisionEvents (message : jsstring) (v : vars) (r : float)
  : list event :=
  if rateLimited message then
    [RateLimitExceeded;
     Waited (PrimFloat.add 5000%float (backoffDelay (retryCount v) r))]
  else if retryCount v <? maxRetries cfg then
    [Retrying (backoffDelay (retryCount v) r);
     Waited (backoffDelay (retryCount v) r)]
  else if fallbackLevel v <? len (fallbackModels cfg) - 1 then
    FallbackCallCreated (fallbackModelAt cfg (fallbackLevel v + 1))
                        (fallbackLevel v + 1)
    :: (if targetElement
           && JsString.truthy
                (notificationHtml (fallbackLevel v + 1)
                   (if JsString.truthy message then stripStatus message else []))
        then [NodeInserted
                (firstChild
                   (notificationHtml (fallbackLevel v + 1)
                      (if JsString.truthy message then stripStatus message
                       else [])))]
        else [])
    ++ [SwitchedModel (fallbackModelAt cfg (fallbackLevel v + 1))]
  else [].

Lemma onError_eq :
  forall message v w,
    exists w' printed,
      onError cfg env endpoint model createFallbackCall targetElement message v w
      = (decide message v, w')
      /\ trace w'
         = trace w
           ++ RequestFailed (fallbackLevel v) (retryCount v) message
           :: printed ++ decisionEvents message v (random env (draws w))
      /\ Forall silent printed.
Proof.
  intros message v w.
  set (logged :=
         apiUsageMonitor.logApiCall (clock env (ticks w)) endpoint
           (currentModel cfg model (fallbackLevel v)) false
           (if JsString.truthy message
            then option_map parseDigits (statusMatch message) else None)
           (monitor w)).
  assert (Hsilent : Forall silent (snd logged)) by apply monitor_prints_silent.
  unfold onError, decide, decisionEvents.
  fold (rateLimited message).
  unfold bind at 1. unfold emit at 1.
  unfold bind at 1. unfold logApiCall, bind at 1, Date_now.
  cbn [ticks draws requests monitor trace].
  fold logged. destruct logged as [m printed]. cbn [snd] in Hsilent.
  destruct (rateLimited message); [| destruct (retryCount v <? maxRetries cfg);
    [| destruct (fallbackLevel v <? len (fallbackModels cfg) - 1)]].
  - unfold bind, emit, wait, emit, getRetryDelay, bind, Math_random, ret.
    cbn [ticks draws requests monitor trace].
    eexists _, printed. split; [reflexivity |]. split; [| exact Hsilent].
    cbn [trace]. rewrite <- !app_assoc. reflexivity.
  - unfold bind, emit, wait, emit, getRetryDelay, bind, Math_random, ret.
    cbn [ticks draws requests monitor trace].
    eexists _, printed. split; [reflexivity |]. split; [| exact Hsilent].
    cbn [trace]. rewrite <- !app_assoc. reflexivity.
  - unfold showFallbackNotification.
    destruct targetElement; cbn [negb andb]; cbv zeta;
      [match goal with
       | |- context [JsString.truthy (notificationHtml ?l ?m)] =>
           destruct (JsString.truthy (notificationHtml l m))
       end |];
      unfold bind, emit, ret; cbn [ticks draws requests monitor trace];
      (eexists _, printed; split; [reflexivity |]; split; [| exact Hsilent]);
      cbn [trace]; rewrite <- !app_assoc; reflexivity.
  - unfold ret. eexists _, printed. split; [reflexivity |].
    split; [| exact Hsilent].
    cbn [trace]. rewrite app_nil_r, <- !app_assoc. reflexivity.
Qed.

Local Abbreviation attempt :=
  (Cascade.attempt cfg env endpoint model createFallbackCall targetElement).
Local Abbreviation loop :=
  (Cascade.loop cfg env endpoint model createFallbackCall targetElement).

Lemma attempt_after_admission :
  forall i v w,
    attempt i v w
    = (admission ;;
       emit (Called (fallbackLevel v)) ;;
       match currentApiCall v i with
       | Resolved result =>
           logApiCall env endpoint (currentModel cfg model (fallbackLevel v))
             true None ;;
           ret (Leave (Returned result))
       | Rejected message =>
           onError cfg env endpoint model createFallbackCall targetElement
             message v
       end)%js w.
Proof.
  intros i v w. unfold Cascade.attempt, admission.
  rewrite bind_assoc. apply bind_ext. intros ok w1.
  rewrite bind_assoc. reflexivity.
Qed.

(** A failed attempt: the loop goes on as [decide] says; the trace gains
    the admission's lines, the attempt, the error, the monitor's lines and
    the lines of the decision. *)
Lemma attempt_rejected :
  forall i v w message,
    currentApiCall v i = Rejected message ->
    exists w' before printed,
      attempt i v w = (decide message v, w')
      /\ trace w'
         = trace w ++ before
           ++ Called (fallbackLevel v)
           :: RequestFailed (fallbackLevel v) (retryCount v) message
           :: printed ++ decisionEvents message v (random env (draws w))
      /\ Forall silent before /\ Forall silent printed.
Proof.
  intros i v w message Hcall.
  rewrite attempt_after_admission, Hcall. unfold bind at 1.
  destruct (admission_spec w) as (tk & rs & before & -> & Hbefore).
  unfold bind at 1. unfold emit at 1.
  cbn [ticks draws requests monitor trace].
  match goal with
  | |- context [onError _ _ _ _ _ _ _ _ ?w0] =>
      destruct (onError_eq message v w0) as (w' & printed & -> & Htrace & Hprinted)
  end.
  cbn [trace draws] in Htrace.
  exists w', before, printed. split; [reflexivity |].
  split; [| split; assumption].
  rewrite Htrace, <- !app_assoc. reflexivity.
Qed.

(** A successful attempt leaves the function with its result. *)
Lemma attempt_resolved :
  forall i v w result,
    currentApiCall v i = Resolved result ->
    exists w' before printed,
      attempt i v w = (Leave (Returned result), w')
      /\ trace w' = trace w ++ before ++ Called (fallbackLevel v) :: printed
      /\ Forall silent before /\ Forall silent printed.
Proof.
  intros i v w result Hcall.
  rewrite attempt_after_admission, Hcall. unfold bind at 1.
  destruct (admission_spec w) as (tk & rs & before & -> & Hbefore).
  unfold bind, emit, logApiCall, bind, Date_now, ret.
  cbn [ticks draws requests monitor trace].
  match goal with
  | |- context [apiUsageMonitor.logApiCall ?a ?b ?c ?d ?e ?f] =>
      pose proof (monitor_prints_silent a b c d e f) as Hprinted;
      destruct (apiUsageMonitor.logApiCall a b c d e f) as [m printed]
  end.
  cbn [snd] in Hprinted.
  eexists _, before, printed. split; [reflexivity |].
  split; [| split; assumption].
  cbn [trace]. rewrite <- !app_assoc. reflexivity.
Qed.

Lemma decisionEvents_calls :
  forall message v r, calls (decisionEvents message v r) = [].
Proof.
  intros. unfold decisionEvents.
  repeat match goal with
         | |- context [if ?b then _ else _] => destruct b
         end; reflexivity.
Qed.

Lemma decisionEvents_lastError :
  forall message v r acc, lastErrorFrom acc (decisionEvents message v r) = acc.
Proof.
  intros. unfold decisionEvents.
  repeat match goal with
         | |- context [if ?b then _ else _] => destruct b
         end; reflexivity.
Qed.

(** The calls of the fallback factory a failed attempt leads to: one, on
    promotion to the next tier. *)
Definition created (message : jsstring) (v : vars)
  : list (option jsstring * Z) :=
  if rateLimited message then []
  else if retryCount v <? maxRetries cfg then []
  else if fallbackLevel v <? len (fallbackModels cfg) - 1
       then [(fallbackModelAt cfg (fallbackLevel v + 1), fallbackLevel v + 1)]
       else [].

Lemma decisionEvents_factoryCalls :
  forall message v r,
    factoryCalls (decisionEvents message v r) = created message v.
Proof.
  intros. unfold decisionEvents, created.
  repeat match goal with
         | |- context [if ?b then _ else _] => destruct b
         end; reflexivity.
Qed.

Lemma decisionEvents_rateLimited :
  forall message v r,
    rateLimited message = true ->
    decisionEvents message v r
    = [RateLimitExceeded;
       Waited (PrimFloat.add 5000%float (backoffDelay (retryCount v) r))].
Proof. intros message v r H. unfold decisionEvents. rewrite H. reflexivity. Qed.

(** What a failed attempt adds to the three readings of the trace. *)
Lemma attempt_rejected_readings :
  forall i v w message,
    currentApiCall v i = Rejected message ->
    exists w',
      attempt i v w = (decide message v, w')
      /\ calls (trace w') = calls (trace w) ++ [fallbackLevel v]
      /\ lastError (trace w') = Some message
      /\ factoryCalls (trace w')
         = factoryCalls (trace w) ++ created message v.
Proof.
  intros i v w message Hcall.
  destruct (attempt_rejected i v w message Hcall)
    as (w' & before & printed & Hrun & Htrace & Hbefore & Hprinted).
  exists w'. split; [exact Hrun |]. rewrite Htrace. split; [| split].
  - rewrite !calls_app. change (Called ?l :: RequestFailed ?a ?b ?c :: ?t)
      with ([Called l] ++ [RequestFailed a b c] ++ t).
    rewrite !calls_app, (silent_calls _ Hbefore), (silent_calls _ Hprinted),
      decisionEvents_calls.
    reflexivity.
  - unfold lastError.
    change (Called ?l :: RequestFailed ?a ?b ?c :: ?t)
      with ([Called l; RequestFailed a b c] ++ t).
    rewrite !lastErrorFrom_app, decisionEvents_lastError,
      (silent_lastError _ _ Hprinted).
    reflexivity.
  - change (Called ?l :: RequestFailed ?a ?b ?c :: ?t)
      with ([Called l; RequestFailed a b c] ++ t).
    rewrite !factoryCalls_app, (silent_factoryCalls _ Hbefore),
      (silent_factoryCalls _ Hprinted), decisionEvents_factoryCalls.
    reflexivity.
Qed.

(** Whether the loop goes on, and how, is the same in every state of the
    window, the monitor and the trace: nothing the monitor has logged or
    warned of blocks a call. *)
Lemma attempt_turn_independent_of_state :
  forall i v w w', fst (attempt i v w) = fst (attempt i v w').
Proof.
  intros i v w w'. destruct (currentApiCall v i) as [result | message] eqn:Hcall.
  - destruct (attempt_resolved i v w result Hcall) as (? & ? & ? & -> & _).
    destruct (attempt_resolved i v w' result Hcall) as (? & ? & ? & -> & _).
    reflexivity.
  - destruct (attempt_rejected i v w message Hcall) as (? & ? & ? & -> & _).
    destruct (attempt_rejected i v w' message Hcall) as (? & ? & ? & -> & _).
    reflexivity.
Qed.

Lemma loop_S :
  forall fuel i v w,
    loop (S fuel) i v w
    = (let (t, w') := attempt i v w in
       match t with
       | Leave c => (Some c, w')
       | Again v' => loop fuel (S i) v' w'
       end).
Proof.
  intros. cbn [Cascade.loop]. unfold bind at 1.
  destruct (attempt i v w) as [[c | v'] w']; reflexivity.
Qed.

Lemma includes_429_rateLimited :
  forall message, includes (str "429") message = true -> rateLimited message = true.
Proof.
  intros message H. unfold rateLimited. rewrite H.
  destruct message; [discriminate H | reflexivity].
Qed.

Lemma decide_rateLimited :
  forall message v,
    rateLimited message = true ->
    decide message v = checkExhausted cfg message (bumped v).
Proof. intros message v H. unfold decide. rewrite H. reflexivity. Qed.

Lemma checkExhausted_below_last_tier :
  forall message v,
    fallbackLevel v < len (fallbackModels cfg) - 1 ->
    checkExhausted cfg message v = Again v.
Proof.
  intros message v H. unfold checkExhausted.
  replace (len (fallbackModels cfg) - 1 <=? fallbackLevel v) with false
    by (symmetry; apply Z.leb_gt; exact H).
  rewrite andb_false_r. reflexivity.
Qed.

(** One rate-limited failure. *)
Lemma rate_limited_attempt :
  forall i v w message,
    currentApiCall v i = Rejected message ->
    includes (str "429") message = true ->
    exists w' earlier,
      attempt i v w
      = (checkExhausted cfg message
           {| retryCount := retryCount v + 1;
              fallbackLevel := fallbackLevel v;
              currentApiCall := currentApiCall v |}, w')
      /\ trace w'
         = trace w ++ earlier
           ++ [RateLimitExceeded;
               Waited (PrimFloat.add 5000%float
                         (fst (getRetryDelay cfg env (retryCount v) w)))]
      /\ factoryCalls earlier = [].
Proof.
  intros i v w message Hcall H429.
  apply includes_429_rateLimited in H429.
  destruct (attempt_rejected i v w message Hcall)
    as (w' & before & printed & Hrun & Htrace & Hbefore & Hprinted).
  rewrite decide_rateLimited in Hrun by exact H429.
  rewrite decisionEvents_rateLimited in Htrace by exact H429.
  exists w',
    (before ++ Called (fallbackLevel v)
       :: RequestFailed (fallbackLevel v) (retryCount v) message :: printed).
  split; [exact Hrun |]. split.
  - rewrite Htrace, <- !app_assoc. reflexivity.
  - change (Called ?l :: RequestFailed ?a ?b ?c :: ?t)
      with ([Called l; RequestFailed a b c] ++ t).
    rewrite !factoryCalls_app, (silent_factoryCalls _ Hbefore),
      (silent_factoryCalls _ Hprinted).
    reflexivity.
Qed.

(** A target below the last tier that is rate-limited at every attempt. *)
Lemma rate_limited_forever :
  forall fuel v i w,
    fallbackLevel v < len (fallbackModels cfg) - 1 ->
    (forall j, exists message,
        currentApiCall v j = Rejected message
        /\ includes (str "429") message = true) ->
    exists w',
      loop fuel i v w = (None, w')
      /\ calls (trace w') = calls (trace w) ++ repeat (fallbackLevel v) fuel
      /\ factoryCalls (trace w') = factoryCalls (trace w).
Proof.
  induction fuel as [| fuel IH]; intros v i w Htier Hfail.
  - exists w. cbn [repeat]. rewrite app_nil_r. repeat split; reflexivity.
  - destruct (Hfail i) as (message & Hcall & H429).
    apply includes_429_rateLimited in H429.
    destruct (attempt_rejected_readings i v w message Hcall)
      as (w1 & Hrun & Hcalls & _ & Hfactory).
    rewrite decide_rateLimited in Hrun by exact H429.
    rewrite checkExhausted_below_last_tier in Hrun by exact Htier.
    destruct (IH (bumped v) (S i) w1 Htier Hfail) as (w' & Hloop & Hcalls' & Hfactory').
    exists w'. rewrite loop_S, Hrun. split; [exact Hloop |]. split.
    + rewrite Hcalls', Hcalls, <- app_assoc. reflexivity.
    + rewrite Hfactory', Hfactory. unfold created. rewrite H429.
      apply app_nil_r.
Qed.

(** C4.  A failure whose message signals a rate limit (contains 429) makes
    the controller wait 5000 ms plus [getRetryDelay(retryCount)], add one to
    [retryCount] and keep the tier and the executable it had, without a
    call of the fallback factory; the loop then goes on unless lines
    276-278 throw.  So on a tier below the last one, a target that fails
    with 429 at every attempt is tried again on the same tier however long
    the loop runs: it never leaves, and the factory is never called. *)
Theorem rate_limit_failure_never_escalates :
  (forall i v w message,
      currentApiCall v i = Rejected message ->
      includes (str "429") message = true ->
      exists w' earlier,
        attempt i v w
        = (checkExhausted cfg message
             {| retryCount := retryCount v + 1;
                fallbackLevel := fallbackLevel v;
                currentApiCall := currentApiCall v |}, w')
        /\ trace w'
           = trace w ++ earlier
             ++ [RateLimitExceeded;
                 Waited (PrimFloat.add 5000%float
                           (fst (getRetryDelay cfg env (retryCount v) w)))]
        /\ factoryCalls earlier = [])
  /\ (forall fuel v i w,
        fallbackLevel v < len (fallbackModels cfg) - 1 ->
        (forall j, exists message,
            currentApiCall v j = Rejected message
            /\ includes (str "429") message = true) ->
        exists w',
          loop fuel i v w = (None, w')
          /\ calls (trace w') = calls (trace w) ++ repeat (fallbackLevel v) fuel
          /\ factoryCalls (trace w') = factoryCalls (trace w)).
Proof.
  split.
  - apply rate_limited_attempt.
  - apply rate_limited_forever.
Qed.

(** The two messages the function can throw. *)
Definition failedAfter (last : jsstring) : jsstring :=
  str "Failed after " ++ JsString.ofZ (maxRetries cfg)
  ++ str " retry attempts on all models: " ++ last.

Definition allExhausted (last : jsstring) : jsstring :=
  str "All fallback options exhausted. Last error: " ++ last.

(** Retries or tiers are left: what lines 276-278 leave true of the
    variables whenever the loop goes round again. *)
Definition unspent (v : vars) : Prop :=
  ~ (maxRetries cfg <= retryCount v
     /\ len (fallbackModels cfg) - 1 <= fallbackLevel v).

Lemma checkExhausted_cases :
  forall message v,
    (checkExhausted cfg message v = Leave (Thrown (failedAfter message))
     /\ ~ unspent v)
    \/ (checkExhausted cfg message v = Again v /\ unspent v).
Proof.
  intros message v. unfold checkExhausted, unspent.
  destruct (Z.leb_spec (maxRetries cfg) (retryCount v));
    destruct (Z.leb_spec (len (fallbackModels cfg) - 1) (fallbackLevel v));
    cbn [andb]; [left | right | right | right];
    (split; [reflexivity | lia]).
Qed.

Lemma decide_cases :
  forall message v,
    (decide message v = Leave (Thrown (failedAfter message)))
    \/ (decide message v = Leave (Thrown (allExhausted message)) /\ ~ unspent v)
    \/ (exists v', decide message v = Again v' /\ unspent v').
Proof.
  intros message v. unfold decide.
  destruct (rateLimited message).
  { destruct (checkExhausted_cases message (bumped v)) as [[-> _] | [-> H]];
      [left; reflexivity | right; right; eauto]. }
  destruct (Z.ltb_spec (retryCount v) (maxRetries cfg)).
  { destruct (checkExhausted_cases message (bumped v)) as [[-> _] | [-> H']];
      [left; reflexivity | right; right; eauto]. }
  destruct (Z.ltb_spec (fallbackLevel v) (len (fallbackModels cfg) - 1)).
  { destruct (checkExhausted_cases message (promoted v)) as [[-> _] | [-> H']];
      [left; reflexivity | right; right; eauto]. }
  right; left. split; [reflexivity |]. unfold unspent. lia.
Qed.

Lemma loop_thrown :
  forall fuel i v w msg w',
    loop fuel i v w = (Some (Thrown msg), w') ->
    exists last,
      lastError (trace w') = Some last
      /\ (msg = failedAfter last \/ msg = allExhausted last)
      /\ (unspent v -> msg = failedAfter last).
Proof.
  induction fuel as [| fuel IH]; intros i v w msg w' Hloop.
  - discriminate Hloop.
  - rewrite loop_S in Hloop.
    destruct (currentApiCall v i) as [result | message] eqn:Hcall.
    + destruct (attempt_resolved i v w result Hcall) as (w1 & ? & ? & Hrun & _).
      rewrite Hrun in Hloop. discriminate Hloop.
    + destruct (attempt_rejected_readings i v w message Hcall)
        as (w1 & Hrun & _ & Hlast & _).
      rewrite Hrun in Hloop.
      destruct (decide_cases message v) as [Hd | [[Hd Hspent] | (v' & Hd & Hv')]];
        rewrite Hd in Hloop.
      * injection Hloop as <- <-. exists message. auto.
      * injection Hloop as <- <-. exists message.
        split; [exact Hlast |]. split; [auto | intros; contradiction].
      * destruct (IH _ _ _ _ _ Hloop) as (last & Hl & Hforms & Hform).
        exists last. split; [exact Hl |]. split; [exact Hforms | auto].
Qed.

(** When the request ends by throwing, the message thrown is one of the
    two of the [catch] block, about the error logged last; it is the one
    of lines 276-278 as soon as a retry or a fallback model is configured. *)
Lemma thrown_message_forms :
  forall fuel w msg w',
    makeApiRequestWithMultiFallback cfg env endpoint model apiCall
      createFallbackCall targetElement fuel w
    = (Some (Thrown msg), w') ->
    exists last,
      lastError (trace w') = Some last
      /\ includes last msg = true
      /\ (msg = str "Failed after " ++ JsString.ofZ (maxRetries cfg)
                ++ str " retry attempts on all models: " ++ last
          \/ msg = str "All fallback options exhausted. Last error: " ++ last)
      /\ (1 <= maxRetries cfg \/ fallbackModels cfg <> [] ->
          msg = str "Failed after " ++ JsString.ofZ (maxRetries cfg)
                ++ str " retry attempts on all models: " ++ last
          /\ includes (JsString.ofZ (maxRetries cfg)) msg = true).
Proof.
  intros fuel w msg w' Hrun. unfold makeApiRequestWithMultiFallback in Hrun.
  destruct (loop_thrown _ _ _ _ _ _ Hrun) as (last & Hlast & Hforms & Hform).
  exists last. split; [exact Hlast |]. split; [| split].
  - destruct Hforms as [-> | ->]; unfold failedAfter, allExhausted.
    + rewrite !app_assoc. apply includes_suffix.
    + apply includes_suffix.
  - exact Hforms.
  - intros Hcfg.
    assert (Hmsg : msg = failedAfter last).
    { apply Hform. unfold unspent; cbn [retryCount fallbackLevel].
      destruct Hcfg as [Hm | Hn]; [lia |].
      destruct (fallbackModels cfg); [contradiction |].
      rewrite len_cons. pose proof (len_nonneg l). lia. }
    split; [exact Hmsg |]. rewrite Hmsg. unfold failedAfter.
    apply includes_infix.
Qed.

(** The loop without the shared state: how it ends, the tier of every
    attempt, and the calls of the fallback factory. *)
Fixpoint outline (fuel : nat) (i : nat) (v : vars)
  : option completion * list Z * list (option jsstring * Z) :=
  match fuel with
  | O => (None, [], [])
  | S fuel' =>
      match currentApiCall v i with
      | Resolved result => (Some (Returned result), [fallbackLevel v], [])
      | Rejected message =>
          match decide message v with
          | Leave c => (Some c, [fallbackLevel v], created message v)
          | Again v' =>
              let '(c, levels, made) := outline fuel' (S i) v' in
              (c, fallbackLevel v :: levels, created message v ++ made)
          end
      end
  end.

Lemma loop_outline :
  forall fuel i v w,
    exists w',
      loop fuel i v w = (fst (fst (outline fuel i v)), w')
      /\ calls (trace w') = calls (trace w) ++ snd (fst (outline fuel i v))
      /\ factoryCalls (trace w')
         = factoryCalls (trace w) ++ snd (outline fuel i v).
Proof.
  induction fuel as [| fuel IH]; intros i v w.
  - exists w. cbn. rewrite !app_nil_r. repeat split; reflexivity.
  - rewrite loop_S. cbn [outline].
    destruct (currentApiCall v i) as [result | message] eqn:Hcall.
    + destruct (attempt_resolved i v w result Hcall)
        as (w1 & before & printed & Hrun & Htrace & Hbefore & Hprinted).
      exists w1. rewrite Hrun, Htrace. cbn [fst snd].
      change (Called ?l :: ?t) with ([Called l] ++ t).
      split; [reflexivity |]. split.
      * rewrite !calls_app, (silent_calls _ Hbefore), (silent_calls _ Hprinted).
        reflexivity.
      * rewrite !factoryCalls_app, (silent_factoryCalls _ Hbefore),
          (silent_factoryCalls _ Hprinted).
        reflexivity.
    + destruct (attempt_rejected_readings i v w message Hcall)
        as (w1 & Hrun & Hcalls & _ & Hfactory).
      rewrite Hrun. destruct (decide message v) as [c | v'].
      * exists w1. cbn [fst snd]. repeat split; auto.
      * destruct (IH (S i) v' w1) as (w' & Hloop & Hcalls' & Hfactory').
        destruct (outline fuel (S i) v') as [[c levels] made].
        cbn [fst snd] in *. exists w'. split; [exact Hloop |]. split.
        -- rewrite Hcalls', Hcalls, <- app_assoc. reflexivity.
        -- rewrite Hfactory', Hfactory, <- app_assoc. reflexivity.
Qed.

(** The three ways on from a failure that is not a rate limit. *)
Lemma decide_retry :
  forall message v,
    rateLimited message = false ->
    (retryCount v <? maxRetries cfg) = true ->
    (maxRetries cfg <=? retryCount v + 1)
    && (len (fallbackModels cfg) - 1 <=? fallbackLevel v) = false ->
    decide message v = Again (bumped v).
Proof.
  intros message v Hrate Hretry Hcheck.
  unfold decide, checkExhausted. rewrite Hrate, Hretry.
  cbn [bumped retryCount fallbackLevel]. rewrite Hcheck. reflexivity.
Qed.

Lemma decide_promote :
  forall message v,
    rateLimited message = false ->
    (retryCount v <? maxRetries cfg) = false ->
    (fallbackLevel v <? len (fallbackModels cfg) - 1) = true ->
    (maxRetries cfg <=? 0)
    && (len (fallbackModels cfg) - 1 <=? fallbackLevel v + 1) = false ->
    decide message v = Again (promoted v).
Proof.
  intros message v Hrate Hretry Htier Hcheck.
  unfold decide, checkExhausted. rewrite Hrate, Hretry, Htier.
  cbn [promoted retryCount fallbackLevel]. rewrite Hcheck. reflexivity.
Qed.

Lemma decide_exhaust :
  forall message v,
    rateLimited message = false ->
    (retryCount v <? maxRetries cfg) = true ->
    (maxRetries cfg <=? retryCount v + 1)
    && (len (fallbackModels cfg) - 1 <=? fallbackLevel v) = true ->
    decide message v = Leave (Thrown (failedAfter message)).
Proof.
  intros message v Hrate Hretry Hcheck.
  unfold decide, checkExhausted. rewrite Hrate, Hretry.
  cbn [bumped retryCount fallbackLevel]. rewrite Hcheck. reflexivity.
Qed.

End CascadeFacts.

(** ** The cascade on the default configuration *)

Section DefaultCascade.

Import Cascade.

(** A call that fails at every attempt, never with a rate-limit message. *)
Definition transient (call : executable) : Prop :=
  forall i, exists message,
    call i = Rejected message /\ includes (str "429") message = false.

Lemma transient_not_rateLimited :
  forall message,
    includes (str "429") message = false -> rateLimited message = false.
Proof. intros message H. unfold rateLimited. rewrite H. apply andb_false_r. Qed.

Lemma outline_retry :
  forall cfg create fuel i v message,
    currentApiCall v i = Rejected message ->
    includes (str "429") message = false ->
    (retryCount v <? maxRetries cfg) = true ->
    (maxRetries cfg <=? retryCount v + 1)
    && (len (fallbackModels cfg) - 1 <=? fallbackLevel v) = false ->
    outline cfg create (S fuel) i v
    = (let '(c, levels, made) := outline cfg create fuel (S i) (bumped v) in
       (c, fallbackLevel v :: levels, made)).
Proof.
  intros cfg create fuel i v message Hcall H429 Hretry Hcheck.
  apply transient_not_rateLimited in H429.
  cbn [outline]. rewrite Hcall, (decide_retry cfg create message v) by assumption.
  unfold created. rewrite H429, Hretry. reflexivity.
Qed.

Lemma outline_promote :
  forall cfg create fuel i v message,
    currentApiCall v i = Rejected message ->
    includes (str "429") message = false ->
    (retryCount v <? maxRetries cfg) = false ->
    (fallbackLevel v <? len (fallbackModels cfg) - 1) = true ->
    (maxRetries cfg <=? 0)
    && (len (fallbackModels cfg) - 1 <=? fallbackLevel v + 1) = false ->
    outline cfg create (S fuel) i v
    = (let '(c, levels, made) :=
         outline cfg create fuel (S i) (promoted cfg create v) in
       (c, fallbackLevel v :: levels,
        (fallbackModelAt cfg (fallbackLevel v + 1), fallbackLevel v + 1) :: made)).
Proof.
  intros cfg create fuel i v message Hcall H429 Hretry Htier Hcheck.
  apply transient_not_rateLimited in H429.
  cbn [outline]. rewrite Hcall, (decide_promote cfg create message v) by assumption.
  unfold created. rewrite H429, Hretry, Htier. reflexivity.
Qed.

Lemma outline_exhaust :
  forall cfg create fuel i v message,
    currentApiCall v i = Rejected message ->
    includes (str "429") message = false ->
    (retryCount v <? maxRetries cfg) = true ->
    (maxRetries cfg <=? retryCount v + 1)
    && (len (fallbackModels cfg) - 1 <=? fallbackLevel v) = true ->
    outline cfg create (S fuel) i v
    = (Some (Thrown (failedAfter cfg message)), [fallbackLevel v], []).
Proof.
  intros cfg create fuel i v message Hcall H429 Hretry Hcheck.
  apply transient_not_rateLimited in H429.
  cbn [outline]. rewrite Hcall, (decide_exhaust cfg create message v) by assumption.
  unfold created. rewrite H429, Hretry. reflexivity.
Qed.

Ltac retry E N :=
  match goal with
  | |- context [outline ?cfg ?create (S ?f) ?i ?v] =>
      rewrite (outline_retry cfg create f i v _ E N eq_refl eq_refl)
  end.

Ltac promote E N :=
  match goal with
  | |- context [outline ?cfg ?create (S ?f) ?i ?v] =>
      rewrite (outline_promote cfg create f i v _ E N eq_refl eq_refl eq_refl)
  end.

Ltac exhaust E N :=
  match goal with
  | |- context [outline ?cfg ?create (S ?f) ?i ?v] =>
      rewrite (outline_exhaust cfg create f i v _ E N eq_refl eq_refl)
  end.

Lemma default_outline :
  forall apiCall create k,
    transient apiCall ->
    (forall fallbackModel fallbackLevel,
        transient (create fallbackModel fallbackLevel)) ->
    exists last,
      create (Some (str "gpt-3.5-turbo")) 2 14%nat = Rejected last
      /\ outline API_CONFIG create (15 + k) 0
           {| retryCount := 0; fallbackLevel := -1; currentApiCall := apiCall |}
         = (Some (Thrown (str "Failed after 3 retry attempts on all models: "
                          ++ last)),
            [-1; -1; -1; -1; 0; 0; 0; 0; 1; 1; 1; 1; 2; 2; 2],
            [(Some (str "gpt-4o-mini"), 0); (Some (str "gpt-4o"), 1);
             (Some (str "gpt-3.5-turbo"), 2)]).
Proof.
  intros apiCall create k Hprimary Hfallback.
  destruct (Hprimary 0%nat) as (m0 & E0 & N0).
  destruct (Hprimary 1%nat) as (m1 & E1 & N1).
  destruct (Hprimary 2%nat) as (m2 & E2 & N2).
  destruct (Hprimary 3%nat) as (m3 & E3 & N3).
  destruct (Hfallback (Some (str "gpt-4o-mini")) 0 4%nat) as (m4 & E4 & N4).
  destruct (Hfallback (Some (str "gpt-4o-mini")) 0 5%nat) as (m5 & E5 & N5).
  destruct (Hfallback (Some (str "gpt-4o-mini")) 0 6%nat) as (m6 & E6 & N6).
  destruct (Hfallback (Some (str "gpt-4o-mini")) 0 7%nat) as (m7 & E7 & N7).
  destruct (Hfallback (Some (str "gpt-4o")) 1 8%nat) as (m8 & E8 & N8).
  destruct (Hfallback (Some (str "gpt-4o")) 1 9%nat) as (m9 & E9 & N9).
  destruct (Hfallback (Some (str "gpt-4o")) 1 10%nat) as (m10 & E10 & N10).
  destruct (Hfallback (Some (str "gpt-4o")) 1 11%nat) as (m11 & E11 & N11).
  destruct (Hfallback (Some (str "gpt-3.5-turbo")) 2 12%nat) as (m12 & E12 & N12).
  destruct (Hfallback (Some (str "gpt-3.5-turbo")) 2 13%nat) as (m13 & E13 & N13).
  destruct (Hfallback (Some (str "gpt-3.5-turbo")) 2 14%nat) as (m14 & E14 & N14).
  exists m14. split; [exact E14 |].
  cbn [Nat.add].
  retry E0 N0. retry E1 N1. retry E2 N2. promote E3 N3.
  retry E4 N4. retry E5 N5. retry E6 N6. promote E7 N7.
  retry E8 N8. retry E9 N9. retry E10 N10. promote E11 N11.
  retry E12 N12. retry E13 N13. exhaust E14 N14.
  reflexivity.
Qed.

End DefaultCascade.

(** ** The cascade on any configuration *)

Section AnyCascade.

Import Cascade.

Variable cfg : API_CONFIG_t.
Variable create : option jsstring -> Z -> executable.

Hypothesis retries_configured : 1 <= maxRetries cfg.
Hypothesis fallbacks_fail :
  forall fallbackModel fallbackLevel, transient (create fallbackModel fallbackLevel).

(** The tiers of the attempts from tier [l] on, when [t] tiers lie above it
    and every attempt fails: [m + 1] on each tier but the last, [m] there. *)
Fixpoint levelsFrom (m : nat) (l : Z) (t : nat) : list Z :=
  match t with
  | O => repeat l m
  | S t' => repeat l (S m) ++ levelsFrom m (l + 1) t'
  end.

Fixpoint madeFrom (l : Z) (t : nat) : list (option jsstring * Z) :=
  match t with
  | O => []
  | S t' => (fallbackModelAt cfg (l + 1), l + 1) :: madeFrom (l + 1) t'
  end.

Lemma levelsFrom_length :
  forall m t l, List.length (levelsFrom m l t) = (t * S m + m)%nat.
Proof.
  induction t as [| t IH]; intros l; cbn [levelsFrom].
  - rewrite repeat_length. reflexivity.
  - rewrite length_app, repeat_length, IH. lia.
Qed.

(** The retries left on a tier below the last, and the promotion. *)
Lemma retries_then_promotion :
  forall k fuel i v,
    transient (currentApiCall v) ->
    retryCount v + Z.of_nat k = maxRetries cfg ->
    fallbackLevel v < len (fallbackModels cfg) - 1 ->
    outline cfg create (k + S fuel) i v
    = (let '(c, levels, made) :=
         outline cfg create fuel (i + S k) (promoted cfg create v) in
       (c, repeat (fallbackLevel v) (S k) ++ levels,
        (fallbackModelAt cfg (fallbackLevel v + 1), fallbackLevel v + 1)
        :: made)).
Proof.
  induction k as [| k IH]; intros fuel i v Hfail Hretry Htier;
    destruct (Hfail i) as (message & Hcall & H429).
  - cbn [Nat.add].
    rewrite (outline_promote cfg create fuel i v message Hcall H429).
    + replace (i + 1)%nat with (S i) by lia. reflexivity.
    + apply Z.ltb_ge. lia.
    + apply Z.ltb_lt. lia.
    + apply andb_false_intro1. apply Z.leb_gt. lia.
  - cbn [Nat.add].
    rewrite (outline_retry cfg create (k + S fuel) i v message Hcall H429).
    + rewrite (IH fuel (S i) (bumped v)).
      * replace (S i + S k)%nat with (i + S (S k))%nat by lia.
        change (promoted cfg create (bumped v)) with (promoted cfg create v).
        destruct (outline cfg create fuel (i + S (S k)) (promoted cfg create v))
          as [[c levels] made].
        reflexivity.
      * exact Hfail.
      * cbn [bumped retryCount]. lia.
      * exact Htier.
    + apply Z.ltb_lt. lia.
    + apply andb_false_intro2. apply Z.leb_gt. lia.
Qed.

(** The retries left on the last tier, and the exhaustion. *)
Lemma retries_then_exhaustion :
  forall k fuel i v,
    transient (currentApiCall v) ->
    retryCount v + Z.of_nat (S k) = maxRetries cfg ->
    len (fallbackModels cfg) - 1 <= fallbackLevel v ->
    exists last,
      currentApiCall v (i + k)%nat = Rejected last
      /\ outline cfg create (S k + fuel) i v
         = (Some (Thrown (failedAfter cfg last)),
            repeat (fallbackLevel v) (S k), []).
Proof.
  induction k as [| k IH]; intros fuel i v Hfail Hretry Htier;
    destruct (Hfail i) as (message & Hcall & H429).
  - exists message. replace (i + 0)%nat with i by lia.
    split; [exact Hcall |]. cbn [Nat.add].
    apply (outline_exhaust cfg create fuel i v message Hcall H429).
    + apply Z.ltb_lt. lia.
    + apply andb_true_intro. split; apply Z.leb_le; lia.
  - destruct (IH fuel (S i) (bumped v)) as (last & Hlast & Hout).
    + exact Hfail.
    + cbn [bumped retryCount]. lia.
    + exact Htier.
    + exists last. replace (i + S k)%nat with (S i + k)%nat by lia.
      split; [exact Hlast |].
      change (S (S k) + fuel)%nat with (S (S k + fuel)).
      rewrite (outline_retry cfg create (S k + fuel) i v message Hcall H429).
      * rewrite Hout. reflexivity.
      * apply Z.ltb_lt. lia.
      * apply andb_false_intro1. apply Z.leb_gt. lia.
Qed.

(** From the first attempt on a tier with [t] tiers above it. *)
Lemma tiers_then_exhaustion :
  forall m t fuel i v,
    Z.of_nat (S m) = maxRetries cfg ->
    retryCount v = 0 ->
    transient (currentApiCall v) ->
    fallbackLevel v + Z.of_nat t = len (fallbackModels cfg) - 1 ->
    exists last,
      outline cfg create (t * S (S m) + S m + fuel) i v
      = (Some (Thrown (failedAfter cfg last)),
         levelsFrom (S m) (fallbackLevel v) t,
         madeFrom (fallbackLevel v) t).
Proof.
  intros m t. induction t as [| t IH]; intros fuel i v Hm Hretry Hfail Htier.
  - destruct (retries_then_exhaustion m fuel i v Hfail) as (last & _ & Hout);
      [lia | lia |].
    exists last. cbn [Nat.mul Nat.add levelsFrom madeFrom]. exact Hout.
  - destruct (IH fuel (i + S (S m))%nat (promoted cfg create v))
      as (last & Hout).
    + exact Hm.
    + reflexivity.
    + apply fallbacks_fail.
    + cbn [promoted fallbackLevel]. lia.
    + exists last.
      replace (S t * S (S m) + S m + fuel)%nat
        with (S m + S (t * S (S m) + S m + fuel))%nat by lia.
      rewrite (retries_then_promotion (S m) _ i v Hfail); [| lia | lia].
      rewrite Hout. reflexivity.
Qed.

End AnyCascade.

(** ** Exhaustion, whatever the last tier fails with *)

(** A call that fails at every attempt, with whatever message. *)
Definition failing (call : executable) : Prop :=
  forall i, exists message, call i = Rejected message.

Lemma transient_failing : forall call, transient call -> failing call.
Proof. intros call H i. destruct (H i) as (message & Hcall & _). eauto. Qed.

Section Exhaustion.

Import Cascade.

Variable cfg : API_CONFIG_t.
Variable create : option jsstring -> Z -> executable.

Hypothesis retries_configured : 1 <= maxRetries cfg.
Hypothesis fallbacks_fail :
  forall fallbackModel fallbackLevel, failing (create fallbackModel fallbackLevel).
Hypothesis lower_fallbacks_transient :
  forall fallbackModel fallbackLevel,
    fallbackLevel < len (fallbackModels cfg) - 1 ->
    transient (create fallbackModel fallbackLevel).

(** While retries are left, a rate limit and any other failure are
    counted alike, and lines 276-278 decide. *)
Lemma decide_counts :
  forall message v,
    retryCount v < maxRetries cfg ->
    decide cfg create message v = checkExhausted cfg message (bumped v).
Proof.
  intros message v Hretry. unfold decide.
  destruct (rateLimited message); [reflexivity |].
  replace (retryCount v <? maxRetries cfg) with true; [reflexivity |].
  symmetry. apply Z.ltb_lt. exact Hretry.
Qed.

Lemma outline_rejected :
  forall fuel i v message,
    currentApiCall v i = Rejected message ->
    outline cfg create (S fuel) i v
    = match decide cfg create message v with
      | Leave c => (Some c, [fallbackLevel v], created cfg message v)
      | Again v' =>
          let '(c, levels, made) := outline cfg create fuel (S i) v' in
          (c, fallbackLevel v :: levels, created cfg message v ++ made)
      end.
Proof. intros fuel i v message Hcall. cbn [outline]. rewrite Hcall. reflexivity. Qed.

(** The retries left on the last tier, whatever they fail with. *)
Lemma last_tier_exhausts :
  forall k fuel i v,
    failing (currentApiCall v) ->
    retryCount v + Z.of_nat (S k) = maxRetries cfg ->
    len (fallbackModels cfg) - 1 <= fallbackLevel v ->
    exists last,
      fst (fst (outline cfg create (S k + fuel) i v))
      = Some (Thrown (failedAfter cfg last)).
Proof.
  induction k as [| k IH]; intros fuel i v Hfail Hretry Htier;
    destruct (Hfail i) as (message & Hcall);
    change (S ?n + fuel)%nat with (S (n + fuel));
    rewrite (outline_rejected _ _ _ _ Hcall), decide_counts by lia;
    unfold checkExhausted; cbn [bumped retryCount fallbackLevel].
  - exists message.
    replace (maxRetries cfg <=? retryCount v + 1) with true
      by (symmetry; apply Z.leb_le; lia).
    replace (len (fallbackModels cfg) - 1 <=? fallbackLevel v) with true
      by (symmetry; apply Z.leb_le; lia).
    reflexivity.
  - replace (maxRetries cfg <=? retryCount v + 1) with false
      by (symmetry; apply Z.leb_gt; lia).
    cbn [andb].
    destruct (IH fuel (S i) (bumped v)) as (last & Hout).
    + exact Hfail.
    + cbn [bumped retryCount]. lia.
    + exact Htier.
    + exists last.
      destruct (outline cfg create (S k + fuel) (S i) (bumped v))
        as [[c levels] made].
      cbn [fst snd] in Hout |- *. exact Hout.
Qed.

(** From the first attempt on a tier with [t] tiers above it. *)
Lemma tiers_exhaust :
  forall t fuel i v,
    retryCount v = 0 ->
    fallbackLevel v + Z.of_nat t = len (fallbackModels cfg) - 1 ->
    failing (currentApiCall v) ->
    (t <> 0%nat -> transient (currentApiCall v)) ->
    exists last,
      fst (fst (outline cfg create
                  (t * S (Z.to_nat (maxRetries cfg))
                   + Z.to_nat (maxRetries cfg) + fuel) i v))
      = Some (Thrown (failedAfter cfg last)).
Proof.
  induction t as [| t IH]; intros fuel i v Hretry Htier Hfail Htransient.
  - cbn [Nat.mul Nat.add].
    destruct (last_tier_exhausts (Z.to_nat (maxRetries cfg) - 1) fuel i v Hfail)
      as (last & Hout); [lia | lia |].
    exists last.
    replace (S (Z.to_nat (maxRetries cfg) - 1)) with (Z.to_nat (maxRetries cfg))
      in Hout by lia.
    exact Hout.
  - set (m := Z.to_nat (maxRetries cfg)).
    destruct (IH fuel (i + S m)%nat (promoted cfg create v)) as (last & Hout).
    + reflexivity.
    + cbn [promoted fallbackLevel]. lia.
    + apply fallbacks_fail.
    + intros Ht. apply lower_fallbacks_transient. lia.
    + exists last. fold m in Hout.
      replace (S t * S m + m + fuel)%nat
        with (m + S (t * S m + m + fuel))%nat by lia.
      rewrite (retries_then_promotion cfg create retries_configured m _ i v).
      * destruct (outline cfg create (t * S m + m + fuel) (i + S m)
                    (promoted cfg create v)) as [[c levels] made].
        cbn [fst snd] in Hout |- *. exact Hout.
      * apply Htransient. discriminate.
      * unfold m. lia.
      * lia.
Qed.

End Exhaustion.

(** Whatever the configuration, with [maxRetries] at least 1 and [n]
    fallback models, a request whose every attempt fails with an error that
    is not a rate limit makes [(maxRetries + 1) * n + maxRetries] physical
    attempts, tier after tier, and throws. *)
Lemma failing_request_attempts :
  forall cfg env endpoint model apiCall createFallbackCall targetElement fuel w,
    1 <= maxRetries cfg ->
    transient apiCall ->
    (forall fallbackModel fallbackLevel,
        transient (createFallbackCall fallbackModel fallbackLevel)) ->
    (List.length (fallbackModels cfg) * S (Z.to_nat (maxRetries cfg))
     + Z.to_nat (maxRetries cfg) <= fuel)%nat ->
    exists last w',
      Cascade.makeApiRequestWithMultiFallback cfg env endpoint model apiCall
        createFallbackCall targetElement fuel w
      = (Some (Thrown (str "Failed after " ++ JsString.ofZ (maxRetries cfg)
                       ++ str " retry attempts on all models: " ++ last)), w')
      /\ calls (trace w')
         = calls (trace w)
           ++ levelsFrom (Z.to_nat (maxRetries cfg)) (-1)
                (List.length (fallbackModels cfg))
      /\ List.length
           (levelsFrom (Z.to_nat (maxRetries cfg)) (-1)
              (List.length (fallbackModels cfg)))
         = (List.length (fallbackModels cfg) * S (Z.to_nat (maxRetries cfg))
            + Z.to_nat (maxRetries cfg))%nat.
Proof.
  intros cfg env endpoint model apiCall create targetElement fuel w
    Hm Hp Hf Hfuel.
  unfold Cascade.makeApiRequestWithMultiFallback.
  set (n := List.length (fallbackModels cfg)) in *.
  destruct (Z.to_nat (maxRetries cfg)) as [| m] eqn:Em; [lia |].
  destruct (tiers_then_exhaustion cfg create Hm Hf m n
              (fuel - (n * S (S m) + S m)) 0
              {| Cascade.retryCount := 0; Cascade.fallbackLevel := -1;
                 Cascade.currentApiCall := apiCall |})
    as (last & Hout).
  - lia.
  - reflexivity.
  - exact Hp.
  - cbn [Cascade.fallbackLevel]. unfold len. fold n. lia.
  - replace (n * S (S m) + S m + (fuel - (n * S (S m) + S m)))%nat
      with fuel in Hout by lia.
    destruct (loop_outline cfg env endpoint model create targetElement
                fuel 0
                {| Cascade.retryCount := 0; Cascade.fallbackLevel := -1;
                   Cascade.currentApiCall := apiCall |} w)
      as (w' & Hloop & Hcalls & _).
    rewrite Hout in Hloop, Hcalls. cbn [fst snd] in Hloop, Hcalls.
    exists last, w'. split; [exact Hloop |]. split; [exact Hcalls |].
    apply levelsFrom_length.
Qed.


Section CascadeScenarios.

Import Cascade.

(** A server that answers every attempt with an error 500. *)
Definition serverError : executable :=
  fun _ => Rejected (str "API request failed: 500 Internal Server Error - boom").

(** A server that answers every attempt with the rate-limit status. *)
Definition tooManyRequests : executable :=
  fun _ => Rejected (str "API request failed: 429 Too Many Requests - slow down").

(** The configuration with two fallback targets. *)
Definition twoTiers : API_CONFIG_t := {|
  maxRetries := 3;
  retryDelay := 1000;
  maxRetryDelay := 10000;
  rateLimitPerMinute := 20;
  rateLimitResetTime := 60000;
  fallbackModels := [str "gpt-4o-mini"; str "gpt-3.5-turbo"];
  fallbackModel := str "gpt-4o-mini"
|}.

(** What the request throws when its last attempt meets [serverError]. *)
Definition boomMessage : jsstring :=
  str "Failed after 3 retry attempts on all models: API request failed: 500 Internal Server Error - boom".

(** The request whose every attempt, on every tier, meets [serverError]. *)
Definition failingRequest (cfg : API_CONFIG_t) : option completion * world :=
  makeApiRequestWithMultiFallback cfg tickingClock (str "chat") (str "gpt-4")
    serverError (fun _ _ => serverError) true 100 initial_world.

Lemma serverError_transient : transient serverError.
Proof. intros i. eexists. split; reflexivity. Qed.

(** C1, as stated, fails: on the default configuration the request whose
    every attempt fails makes 15 physical attempts, not 9, and reaches a
    third fallback tier before it is exhausted. *)
Lemma failing_request_makes_15_attempts_not_9 :
  fst (failingRequest API_CONFIG)
  = Some (Thrown boomMessage)
  /\ calls (trace (snd (failingRequest API_CONFIG)))
     = [-1; -1; -1; -1; 0; 0; 0; 0; 1; 1; 1; 1; 2; 2; 2]
  /\ List.length (calls (trace (snd (failingRequest API_CONFIG)))) <> 9%nat.
Proof.
  split; [vm_compute; reflexivity |].
  split; [vm_compute; reflexivity |].
  vm_compute. discriminate.
Qed.

(** The attempts of a request that fails at every attempt with an error
    that is not a rate limit, on the default configuration: their tiers,
    the calls of the factory, and the error thrown at the end. *)
Lemma default_failing_request_trace :
  forall env endpoint model apiCall createFallbackCall targetElement fuel w,
    transient apiCall ->
    (forall fallbackModel fallbackLevel,
        transient (createFallbackCall fallbackModel fallbackLevel)) ->
    (15 <= fuel)%nat ->
    exists last w',
      makeApiRequestWithMultiFallback API_CONFIG env endpoint model apiCall
        createFallbackCall targetElement fuel w
      = (Some (Thrown (str "Failed after 3 retry attempts on all models: "
                       ++ last)), w')
      /\ createFallbackCall (Some (str "gpt-3.5-turbo")) 2 14%nat = Rejected last
      /\ calls (trace w')
         = calls (trace w) ++ [-1; -1; -1; -1; 0; 0; 0; 0; 1; 1; 1; 1; 2; 2; 2]
      /\ factoryCalls (trace w')
         = factoryCalls (trace w)
           ++ [(Some (str "gpt-4o-mini"), 0); (Some (str "gpt-4o"), 1);
               (Some (str "gpt-3.5-turbo"), 2)].
Proof.
  intros env endpoint model apiCall create targetElement fuel w Hp Hf Hfuel.
  unfold makeApiRequestWithMultiFallback.
  destruct (default_outline apiCall create (fuel - 15)%nat Hp Hf) as (last & Hlast & Hout).
  replace (15 + (fuel - 15))%nat with fuel in Hout by lia.
  destruct (loop_outline API_CONFIG env endpoint model create targetElement
              fuel 0
              {| retryCount := 0; fallbackLevel := -1; currentApiCall := apiCall |}
              w)
    as (w' & Hloop & Hcalls & Hmade).
  rewrite Hout in Hloop, Hcalls, Hmade. cbn [fst snd] in Hloop, Hcalls, Hmade.
  exists last, w'. auto.
Qed.

(** C1, amended.  The default configuration has [maxRetries] = 3 and
    three fallback models.  On it, a request whose every attempt fails
    with an error that is not a rate limit goes from the primary target
    through the fallback tiers 0, 1 and 2, in this order and without
    returning to a tier it left, the factory being called once for each
    tier with its model; no success comes early, and after a bounded
    number of attempts the request ends by throwing [Failed after 3 retry
    attempts on all models: ...] with the message of the last error. *)
Theorem always_failing_request_walks_every_tier :
  maxRetries API_CONFIG = 3
  /\ fallbackModels API_CONFIG
     = [str "gpt-4o-mini"; str "gpt-4o"; str "gpt-3.5-turbo"]
  /\ forall env endpoint model apiCall createFallbackCall targetElement w,
      transient apiCall ->
      (forall fallbackModel fallbackLevel,
          transient (createFallbackCall fallbackModel fallbackLevel)) ->
      exists attempts : nat,
        forall fuel, (attempts <= fuel)%nat ->
          exists last levels w',
            makeApiRequestWithMultiFallback API_CONFIG env endpoint model
              apiCall createFallbackCall targetElement fuel w
            = (Some (Thrown (str "Failed after 3 retry attempts on all models: "
                             ++ last)), w')
            /\ lastError (trace w') = Some last
            /\ calls (trace w') = calls (trace w) ++ levels
            /\ tierPath levels = [-1; 0; 1; 2]
            /\ factoryCalls (trace w')
               = factoryCalls (trace w)
                 ++ [(Some (str "gpt-4o-mini"), 0); (Some (str "gpt-4o"), 1);
                     (Some (str "gpt-3.5-turbo"), 2)].
Proof.
  split; [reflexivity |]. split; [reflexivity |].
  intros env endpoint model apiCall create targetElement w Hp Hf.
  exists 15%nat. intros fuel Hfuel.
  destruct (default_failing_request_trace env endpoint model apiCall create
              targetElement fuel w Hp Hf Hfuel)
    as (last0 & w' & Hrun & _ & Hcalls & Hmade).
  destruct (thrown_message_forms API_CONFIG env endpoint model apiCall create
              targetElement fuel w _ w' Hrun)
    as (last & Hlast & _ & _ & Hform).
  destruct Hform as (Hmsg & _); [left; vm_compute; discriminate |].
  exists last, [-1; -1; -1; -1; 0; 0; 0; 0; 1; 1; 1; 1; 2; 2; 2], w'.
  split; [| split; [exact Hlast | split; [exact Hcalls | split;
                                           [reflexivity | exact Hmade]]]].
  rewrite Hrun, Hmsg. reflexivity.
Qed.

Lemma always_failing_request_walks_every_tier_witness :
  transient serverError
  /\ (forall (fallbackModel : option jsstring) (fallbackLevel : Z),
        transient ((fun _ _ => serverError) fallbackModel fallbackLevel))
  /\ exists attempts : nat,
      forall fuel, (attempts <= fuel)%nat ->
        exists last levels w',
          makeApiRequestWithMultiFallback API_CONFIG tickingClock (str "chat")
            (str "gpt-4") serverError (fun _ _ => serverError) true fuel
            initial_world
          = (Some (Thrown (str "Failed after 3 retry attempts on all models: "
                           ++ last)), w')
          /\ lastError (trace w') = Some last
          /\ calls (trace w') = calls (trace initial_world) ++ levels
          /\ tierPath levels = [-1; 0; 1; 2]
          /\ factoryCalls (trace w')
             = factoryCalls (trace initial_world)
               ++ [(Some (str "gpt-4o-mini"), 0); (Some (str "gpt-4o"), 1);
                   (Some (str "gpt-3.5-turbo"), 2)].
Proof.
  split; [exact serverError_transient |].
  split; [intros _ _; exact serverError_transient |].
  apply (proj2 (proj2 always_failing_request_walks_every_tier)
           tickingClock (str "chat") (str "gpt-4") serverError
           (fun _ _ => serverError) true initial_world).
  - exact serverError_transient.
  - intros _ _; exact serverError_transient.
Defined.

(** The request whose every attempt is rate-limited, after [fuel] turns. *)
Definition rateLimitedRequest (fuel : nat) : option completion * world :=
  loop API_CONFIG tickingClock (str "chat") (str "gpt-4")
    (fun _ _ => serverError) true fuel 0
    {| retryCount := 0; fallbackLevel := -1; currentApiCall := tooManyRequests |}
    initial_world.

(** C4 at work: fifty turns against a primary target that always answers
    429 are fifty attempts on the primary tier, and the loop has not left. *)
Lemma rate_limit_failure_never_escalates_witness :
  -1 < len (fallbackModels API_CONFIG) - 1
  /\ (forall j : nat, exists message,
        tooManyRequests j = Rejected message
        /\ includes (str "429") message = true)
  /\ exists w',
      rateLimitedRequest 50 = (None, w')
      /\ calls (trace w') = calls (trace initial_world) ++ repeat (-1) 50
      /\ factoryCalls (trace w') = factoryCalls (trace initial_world).
Proof.
  split; [vm_compute; reflexivity |].
  split; [intros j; eexists; split; reflexivity |].
  apply (proj2 (rate_limit_failure_never_escalates API_CONFIG tickingClock
                  (str "chat") (str "gpt-4") (fun _ _ => serverError) true)
           50%nat
           {| retryCount := 0; fallbackLevel := -1;
              currentApiCall := tooManyRequests |}
           0%nat initial_world).
  - vm_compute; reflexivity.
  - intros j; eexists; split; reflexivity.
Defined.


(** What [showFallbackNotification] inserts, for either level and
    whatever the error message: the white space the template literal
    starts with, the first child of the temporary element.  The alert box,
    its second child, stays behind. *)
Lemma notification_inserts_leading_white_space :
  forall fallbackLevel errorMessage,
    fallbackLevel = 0 \/ fallbackLevel = 1 ->
    firstChild (notificationHtml fallbackLevel errorMessage)
    = TextNode (line 16).
Proof. intros fallbackLevel errorMessage [-> | ->]; reflexivity. Qed.

(** A last tier that answers 429 while the tiers before it answer 500. *)
Definition lastTierLimited : option jsstring -> Z -> executable :=
  fun _ fallbackLevel =>
    if fallbackLevel =? 2 then tooManyRequests else serverError.


(** The last tier answering 429, on the default configuration: its three
    attempts are counted like any other failure, and the request throws. *)
Example rate_limited_last_tier_exhausts :
  fst (makeApiRequestWithMultiFallback API_CONFIG tickingClock (str "chat")
         (str "gpt-4") serverError lastTierLimited true 100 initial_world)
  = Some (Thrown (str "Failed after 3 retry attempts on all models: API request failed: 429 Too Many Requests - slow down")).
Proof. vm_compute. reflexivity. Qed.

End CascadeScenarios.

(** ** The stream decoder *)

Lemma split_nonempty : forall sep s, split sep s <> [].
Proof.
  intros sep s. destruct s as [| c s]; cbn [split]; [discriminate |].
  destruct (N.eqb c sep); [discriminate |].
  destruct (split sep s); discriminate.
Qed.

(** Splitting a text that holds a separator: the pieces before it, then the
    pieces after it. *)
Lemma split_app :
  forall sep a b, split sep (a ++ sep :: b) = split sep a ++ split sep b.
Proof.
  intros sep a b. induction a as [| c a IH].
  - cbn [app split]. rewrite N.eqb_refl. reflexivity.
  - cbn [app split]. destruct (N.eqb c sep).
    + rewrite IH. reflexivity.
    + rewrite IH. pose proof (split_nonempty sep a) as Hne.
      destruct (split sep a) as [| l ls]; [contradiction | reflexivity].
Qed.

(** Splitting a text cut anywhere: the last piece of the first part and
    the first piece of the second are one piece of the whole. *)
Lemma split_glue :
  forall sep a b,
    split sep (a ++ b)
    = removelast (split sep a)
      ++ (last (split sep a) [] ++ hd [] (split sep b)) :: tl (split sep b).
Proof.
  intros sep a b. induction a as [| c a IH].
  - cbn [app split removelast last].
    pose proof (split_nonempty sep b) as Hne.
    destruct (split sep b); [contradiction | reflexivity].
  - cbn [app split]. pose proof (split_nonempty sep a) as Hne.
    destruct (N.eqb c sep).
    + rewrite IH. destruct (split sep a) as [| l ls]; [contradiction |].
      reflexivity.
    + rewrite IH. destruct (split sep a) as [| l [| l' ls]]; [contradiction | |];
        reflexivity.
Qed.

Lemma trimStart_snoc :
  forall s c, isWhiteSpace c = false -> trimStart (s ++ [c]) <> [].
Proof.
  induction s as [| d s IH]; intros c Hc; cbn [app trimStart].
  - rewrite Hc. discriminate.
  - destruct (isWhiteSpace d); [apply IH, Hc | discriminate].
Qed.

(** A text that starts with a character that is not white space does not
    trim to the empty string. *)
Lemma trim_nonblank :
  forall c s, isWhiteSpace c = false -> JsString.truthy (trim (c :: s)) = true.
Proof.
  intros c s Hc. unfold trim, trimEnd. cbn [trimStart]. rewrite Hc.
  cbn [rev]. pose proof (trimStart_snoc (rev s) c Hc) as Hne.
  destruct (trimStart (rev s ++ [c])) as [| d t]; [contradiction |].
  cbn [rev]. destruct (rev t); reflexivity.
Qed.

Section StreamFacts.

Import Stream.

Variable number : Type.
Variable Number_truthy : number -> bool.
Variable Number_toString : number -> jsstring.
Variable JSON_parse : jsstring -> option (Json.value number).
Variable targetElement : bool.
Variable TypeError_message : typeError -> jsstring.

Local Abbreviation processLine :=
  (Stream.processLine Number_truthy Number_toString JSON_parse targetElement).
Local Abbreviation processChunk :=
  (Stream.processChunk Number_truthy Number_toString JSON_parse targetElement).
Local Abbreviation readLoop :=
  (Stream.readLoop Number_truthy Number_toString JSON_parse targetElement).
Local Abbreviation streamingApiCall :=
  (Stream.streamingApiCall Number_truthy Number_toString JSON_parse targetElement
     TypeError_message).
Local Abbreviation transcript :=
  (Stream.transcript Number_truthy Number_toString JSON_parse targetElement).

(** The lines of a chunk cut at a newline are the lines of its two parts,
    whichever part keeps the newline. *)
Lemma linesOf_app :
  forall a b, linesOf (a ++ 10%N :: b) = linesOf a ++ linesOf b.
Proof. intros a b. unfold linesOf. rewrite split_app, filter_app. reflexivity. Qed.

Lemma linesOf_newline_end : forall a, linesOf (a ++ [10%N]) = linesOf a.
Proof. intros a. rewrite linesOf_app. apply app_nil_r. Qed.

Lemma linesOf_newline_start : forall b, linesOf (10%N :: b) = linesOf b.
Proof. intros b. apply (linesOf_app [] b). Qed.

(** What a line does to [streamedContent], which depends on nothing else. *)
Definition contentStep (content line : jsstring) : jsstring :=
  streamedContent
    (processLine 0 {| streamedContent := content; printed := [] |} line).

Lemma processLine_content :
  forall chunkCounter st line,
    streamedContent (processLine chunkCounter st line)
    = contentStep (streamedContent st) line.
Proof.
  intros c st line. unfold contentStep, Stream.processLine, warn.
  repeat match goal with
         | |- context [if ?b then _ else _] => destruct b
         | |- context [match ?x with Some _ => _ | None => _ end] => destruct x
         end; reflexivity.
Qed.

Lemma lines_content :
  forall lines chunkCounter st,
    streamedContent (fold_left (processLine chunkCounter) lines st)
    = fold_left contentStep lines (streamedContent st).
Proof.
  induction lines as [| line lines IH]; intros c st; cbn [fold_left].
  - reflexivity.
  - rewrite IH, processLine_content. reflexivity.
Qed.

Lemma readLoop_content :
  forall chunks chunkCounter st,
    streamedContent (snd (readLoop chunkCounter st chunks))
    = fold_left contentStep (flat_map linesOf chunks) (streamedContent st).
Proof.
  induction chunks as [| chunk chunks IH]; intros c st; cbn [Stream.readLoop flat_map].
  - reflexivity.
  - rewrite IH, fold_left_app. unfold Stream.processChunk.
    rewrite lines_content. reflexivity.
Qed.

Lemma transcript_lines :
  forall chunks,
    transcript chunks = fold_left contentStep (flat_map linesOf chunks) [].
Proof. intros chunks. unfold Stream.transcript. apply readLoop_content. Qed.

(** A line appends its delta to whatever was accumulated. *)
Lemma contentStep_appends :
  forall content line, contentStep content line = content ++ contentStep [] line.
Proof.
  intros content line. unfold contentStep, Stream.processLine.
  repeat match goal with
         | |- context [if ?b then _ else _] => destruct b
         | |- context [match ?x with Some _ => _ | None => _ end] => destruct x
         end;
    cbn [streamedContent warn app]; rewrite ?app_nil_r; reflexivity.
Qed.

Lemma lines_append :
  forall lines content,
    fold_left contentStep lines content
    = content ++ fold_left contentStep lines [].
Proof.
  induction lines as [| line lines IH]; intros content; cbn [fold_left].
  - symmetry. apply app_nil_r.
  - rewrite IH, (IH (contentStep [] line)), contentStep_appends.
    symmetry. apply app_assoc.
Qed.

(** What a line, decoded by itself, adds to the transcript; and what a
    run of lines adds. *)
Definition delta (line : jsstring) : jsstring := contentStep [] line.

Definition deltas (lines : list jsstring) : jsstring :=
  fold_left contentStep lines [].

Lemma deltas_app : forall x y, deltas (x ++ y) = deltas x ++ deltas y.
Proof.
  intros x y. unfold deltas. rewrite fold_left_app. apply lines_append.
Qed.

Lemma deltas_cons : forall line lines, deltas (line :: lines) = delta line ++ deltas lines.
Proof. intros line lines. apply (deltas_app [line] lines). Qed.

(** A line that [filter] would drop adds nothing. *)
Lemma blank_delta :
  forall line, JsString.truthy (trim line) = false -> delta line = [].
Proof.
  intros line Hblank. unfold delta, contentStep, Stream.processLine.
  destruct (includes (str "[DONE]") line); [reflexivity |].
  destruct (startsWith (str "data: ") line) eqn:Hdata.
  - destruct line as [| c line]; [discriminate Hdata |].
    cbn [startsWith str map list_ascii_of_string] in Hdata.
    apply andb_prop in Hdata. destruct Hdata as [Hc _].
    apply N.eqb_eq in Hc. subst c.
    rewrite trim_nonblank in Hblank by reflexivity. discriminate Hblank.
  - rewrite Hblank. reflexivity.
Qed.

Lemma deltas_filter :
  forall lines,
    deltas (filter (fun line => JsString.truthy (trim line)) lines)
    = deltas lines.
Proof.
  induction lines as [| line lines IH]; [reflexivity |].
  cbn [filter]. destruct (JsString.truthy (trim line)) eqn:Hline.
  - rewrite !deltas_cons, IH. reflexivity.
  - rewrite deltas_cons, (blank_delta line Hline), IH. reflexivity.
Qed.

Lemma deltas_linesOf : forall chunk, deltas (linesOf chunk) = deltas (split 10%N chunk).
Proof. intros chunk. apply deltas_filter. Qed.

Lemma transcript_app :
  forall x y, transcript (x ++ y) = transcript x ++ transcript y.
Proof.
  intros x y. rewrite !transcript_lines, flat_map_app. apply deltas_app.
Qed.

Lemma transcript_chunk : forall chunk, transcript [chunk] = deltas (split 10%N chunk).
Proof.
  intros chunk. rewrite transcript_lines. cbn [flat_map]. rewrite app_nil_r.
  apply deltas_linesOf.
Qed.

(** C2, amended.  A stream cut into two chunks at a line boundary, just
    after or just before a newline, leaves the transcript it leaves as one
    chunk, whatever chunks come before and after.  Cut anywhere else, the
    decoder keeps no partial line: the two fragments of the cut line are
    decoded each as a line of its own, so that the transcript holds their
    two deltas where the transcript of the one chunk holds the delta of
    the whole line, all the rest being the same; when neither fragment
    gives a delta by itself, the delta of the cut line is lost. *)
Theorem transcript_of_a_split_stream :
  (forall (before after : list jsstring) (a b : jsstring),
      transcript (before ++ [a ++ [10%N] ++ b] ++ after)
      = transcript (before ++ [a ++ [10%N]; b] ++ after)
      /\ transcript (before ++ [a ++ [10%N] ++ b] ++ after)
         = transcript (before ++ [a; [10%N] ++ b] ++ after))
  /\ (forall (before after : list jsstring) (a b : jsstring),
        let l1 := last (split 10%N a) [] in
        let l2 := hd [] (split 10%N b) in
        let P := transcript before ++ deltas (removelast (split 10%N a)) in
        let Q := deltas (tl (split 10%N b)) ++ transcript after in
        transcript (before ++ [a ++ b] ++ after) = P ++ delta (l1 ++ l2) ++ Q
        /\ transcript (before ++ [a; b] ++ after)
           = P ++ delta l1 ++ delta l2 ++ Q
        /\ (delta l1 = [] -> delta l2 = [] ->
            transcript (before ++ [a; b] ++ after) = P ++ Q)).
Proof.
  split.
  - intros before after a b. rewrite !transcript_lines, !flat_map_app.
    cbn [flat_map app].
    rewrite linesOf_app, linesOf_newline_end, linesOf_newline_start, !app_nil_r.
    split; reflexivity.
  - intros before after a b. cbv zeta.
    assert (Hsplit :
              transcript (before ++ [a; b] ++ after)
              = (transcript before ++ deltas (removelast (split 10%N a)))
                ++ delta (last (split 10%N a) [])
                ++ delta (hd [] (split 10%N b))
                ++ deltas (tl (split 10%N b)) ++ transcript after).
    { change [a; b] with ([a] ++ [b]).
      rewrite !transcript_app, !transcript_chunk.
      rewrite (app_removelast_last [] (split_nonempty 10%N a)) at 1.
      pose proof (split_nonempty 10%N b) as Hb.
      destruct (split 10%N b) as [| l2 rest]; [contradiction |].
      cbn [hd tl].
      rewrite deltas_app, !deltas_cons.
      change (deltas []) with (@nil code_unit).
      rewrite app_nil_r, <- !app_assoc. reflexivity. }
    split; [| split].
    + rewrite !transcript_app, transcript_chunk, split_glue.
      rewrite deltas_app, deltas_cons, <- !app_assoc. reflexivity.
    + exact Hsplit.
    + intros H1 H2. rewrite Hsplit, H1, H2. reflexivity.
Qed.

Lemma lines_skip :
  forall chunkCounter st line rest,
    processLine chunkCounter st line = st ->
    fold_left (processLine chunkCounter) (line :: rest) st
    = fold_left (processLine chunkCounter) rest st.
Proof. intros c st line rest H. cbn [fold_left]. rewrite H. reflexivity. Qed.

Lemma processLine_done :
  forall chunkCounter st line,
    includes (str "[DONE]") line = true ->
    processLine chunkCounter st line = st.
Proof. intros c st line H. unfold Stream.processLine. rewrite H. reflexivity. Qed.

Lemma processLine_malformed :
  forall chunkCounter st line,
    includes (str "[DONE]") line = false ->
    JsString.truthy
      (trim (if startsWith (str "data: ") line then skipn 6 line else line))
    = true ->
    JSON_parse
      (trim (if startsWith (str "data: ") line then skipn 6 line else line))
    = None ->
    processLine chunkCounter st line
    = {| streamedContent := streamedContent st;
         printed :=
           printed st
           ++ [InvalidJSON
                 (trim (if startsWith (str "data: ") line
                        then skipn 6 line else line))] |}.
Proof.
  intros c st line Hdone Hpayload Hparse. unfold Stream.processLine.
  rewrite Hdone, Hpayload, Hparse. reflexivity.
Qed.

Lemma contentStep_done :
  forall content line,
    includes (str "[DONE]") line = true -> contentStep content line = content.
Proof.
  intros content line H. unfold contentStep.
  rewrite processLine_done by exact H. reflexivity.
Qed.

Lemma done_lines_content :
  forall lines content,
    Forall (fun line => includes (str "[DONE]") line = true) lines ->
    fold_left contentStep lines content = content.
Proof.
  intros lines content H. revert content.
  induction H as [| line lines Hline _ IH]; intros content; cbn [fold_left].
  - reflexivity.
  - rewrite contentStep_done by exact Hline. apply IH.
Qed.

Lemma streamingApiCall_resolves :
  forall r chunks st,
    ok r = true ->
    result (streamingApiCall (Responded r chunks None) st)
    = Resolved
        (streamedContent (final (streamingApiCall (Responded r chunks None) st))).
Proof.
  intros r chunks st Hok. unfold Stream.streamingApiCall. rewrite Hok.
  cbn [negb]. destruct (readLoop 0 (say StreamEstablished st) chunks).
  reflexivity.
Qed.

(** C9, amended.  A line that holds [[DONE]] is skipped: it changes neither
    the transcript nor the trace, and the lines after it are decoded as if
    it were not there; a chunk of such lines does not end the stream, the
    chunks after it are decoded still.  A line whose payload [JSON.parse]
    rejects is skipped with one warning that names the payload, and the
    lines after it are decoded.  Neither makes the call fail: a stream that
    was opened and read to its end resolves with the transcript. *)
Theorem done_and_malformed_frames_are_skipped :
  (forall chunkCounter st line rest,
      includes (str "[DONE]") line = true ->
      processLine chunkCounter st line = st
      /\ fold_left (processLine chunkCounter) (line :: rest) st
         = fold_left (processLine chunkCounter) rest st)
  /\ (forall before after chunk,
        Forall (fun line => includes (str "[DONE]") line = true) (linesOf chunk) ->
        transcript (before ++ chunk :: after) = transcript (before ++ after))
  /\ (forall chunkCounter st line rest,
        includes (str "[DONE]") line = false ->
        JsString.truthy
          (trim (if startsWith (str "data: ") line then skipn 6 line else line))
        = true ->
        JSON_parse
          (trim (if startsWith (str "data: ") line then skipn 6 line else line))
        = None ->
        fold_left (processLine chunkCounter) (line :: rest) st
        = fold_left (processLine chunkCounter) rest
            {| streamedContent := streamedContent st;
               printed :=
                 printed st
                 ++ [InvalidJSON
                       (trim (if startsWith (str "data: ") line
                              then skipn 6 line else line))] |})
  /\ (forall r chunks st,
        ok r = true ->
        result (streamingApiCall (Responded r chunks None) st)
        = Resolved
            (streamedContent
               (final (streamingApiCall (Responded r chunks None) st)))).
Proof.
  split; [| split; [| split]].
  - intros c st line rest H. split.
    + apply processLine_done, H.
    + apply lines_skip, processLine_done, H.
  - intros before after chunk H.
    rewrite !transcript_lines, !flat_map_app. cbn [flat_map].
    rewrite !fold_left_app, (done_lines_content _ _ H). reflexivity.
  - intros c st line rest Hdone Hpayload Hparse. cbn [fold_left].
    rewrite processLine_malformed by assumption. reflexivity.
  - apply streamingApiCall_resolves.
Qed.

End StreamFacts.

(** ** The decoder on concrete streams *)

(** The messages of V8, for the scenarios. *)
Definition V8_TypeError_message (e : typeError) : jsstring :=
  match e with
  | CannotReadProperty key =>
      str "Cannot read properties of null (reading '" ++ key ++ str "')"
  | CannotConvertToPrimitive => str "Cannot convert object to primitive value"
  end.

Section StreamScenarios.

(** The text of [s], its apostrophes read as double quotes. *)
Definition wire (s : string) : jsstring :=
  map (fun c => if N.eqb c 39 then 34%N else c) (str s).

(** A frame: a line and the empty line that ends the event. *)
Definition frame (line : jsstring) : jsstring := line ++ [10%N; 10%N].

Definition helFrame : jsstring :=
  frame (wire "data: {'choices':[{'delta':{'content':'Hel'}}]}").

Definition loFrame : jsstring :=
  frame (wire "data: {'choices':[{'delta':{'content':'lo'}}]}").

Definition doneFrame : jsstring := frame (str "data: [DONE]").

Definition brokenFrame : jsstring := frame (wire "data: {'choices':[{'del").

(** The decoder with the reference parser, rendering into an element. *)
Definition decode (chunks : list jsstring) : jsstring :=
  Stream.transcript JsonText.Number_truthy JsonText.Number_toString
    JsonText.JSON_parse true chunks.

(** C2, as stated, fails: the stream of two frames and the sentinel,
    delivered whole, leaves [Hello]; cut at offset 20, inside the first
    frame, it leaves [lo], neither half of the cut frame being JSON. *)
Lemma split_inside_a_frame_loses_its_delta :
  firstn 20 (helFrame ++ loFrame ++ doneFrame)
  = wire "data: {'choices':[{'"
  /\ decode [helFrame ++ loFrame ++ doneFrame] = str "Hello"
  /\ decode [firstn 20 (helFrame ++ loFrame ++ doneFrame);
             skipn 20 (helFrame ++ loFrame ++ doneFrame)]
     = str "lo"
  /\ decode [firstn 20 (helFrame ++ loFrame ++ doneFrame);
             skipn 20 (helFrame ++ loFrame ++ doneFrame)]
     <> decode [helFrame ++ loFrame ++ doneFrame].
Proof.
  split; [vm_compute; reflexivity |].
  split; [vm_compute; reflexivity |].
  split; [vm_compute; reflexivity |].
  vm_compute. discriminate.
Qed.

(** The cut of the counterexample, read by the law of the split stream:
    neither fragment of the first frame gives a delta, and the transcript
    is what the other lines leave. *)
Lemma transcript_of_a_split_stream_witness :
  let a := firstn 20 (helFrame ++ loFrame ++ doneFrame) in
  let b := skipn 20 (helFrame ++ loFrame ++ doneFrame) in
  let delta :=
    delta JsonText.numeral JsonText.Number_truthy JsonText.Number_toString
      JsonText.JSON_parse true in
  let deltas :=
    deltas JsonText.numeral JsonText.Number_truthy JsonText.Number_toString
      JsonText.JSON_parse true in
  delta (last (split 10%N a) []) = []
  /\ delta (hd [] (split 10%N b)) = []
  /\ decode ([] ++ [a; b] ++ [])
     = (decode [] ++ deltas (removelast (split 10%N a)))
       ++ deltas (tl (split 10%N b)) ++ decode [].
Proof.
  cbv zeta.
  split; [vm_compute; reflexivity |].
  split; [vm_compute; reflexivity |].
  apply (proj2 (transcript_of_a_split_stream JsonText.numeral
                  JsonText.Number_truthy JsonText.Number_toString
                  JsonText.JSON_parse true)
           [] [] (firstn 20 (helFrame ++ loFrame ++ doneFrame))
           (skipn 20 (helFrame ++ loFrame ++ doneFrame))).
  - vm_compute; reflexivity.
  - vm_compute; reflexivity.
Defined.

(** C9, as stated, fails: the sentinel does not end the stream.  Frames
    that follow it, in the same chunk or in a later one, are decoded into
    the transcript. *)
Lemma frames_after_the_sentinel_are_decoded :
  decode [doneFrame ++ helFrame ++ loFrame] = str "Hello"
  /\ decode [doneFrame; helFrame ++ loFrame] = str "Hello"
  /\ decode [doneFrame; helFrame ++ loFrame] <> decode [doneFrame].
Proof.
  split; [vm_compute; reflexivity |].
  split; [vm_compute; reflexivity |].
  vm_compute. discriminate.
Qed.

(** The amended C9 on a stream with a broken frame and a sentinel in the
    middle. *)
Lemma done_and_malformed_frames_are_skipped_witness :
  includes (str "[DONE]") (str "data: [DONE]") = true
  /\ JsonText.JSON_parse (wire "{'choices':[{'del") = None
  /\ Stream.processLine JsonText.Number_truthy JsonText.Number_toString
       JsonText.JSON_parse true 1
       {| Stream.streamedContent := str "Hel"; Stream.printed := [] |}
       (str "data: [DONE]")
     = {| Stream.streamedContent := str "Hel"; Stream.printed := [] |}
  /\ decode [helFrame; brokenFrame; doneFrame; loFrame] = str "Hello".
Proof.
  split; [vm_compute; reflexivity |].
  split; [vm_compute; reflexivity |].
  split; [| vm_compute; reflexivity].
  apply (proj1 (done_and_malformed_frames_are_skipped
                  JsonText.numeral JsonText.Number_truthy
                  JsonText.Number_toString JsonText.JSON_parse true
                  V8_TypeError_message)
           1 {| Stream.streamedContent := str "Hel"; Stream.printed := [] |}
           (str "data: [DONE]") []).
  vm_compute; reflexivity.
Defined.

End StreamScenarios.

(* ================================================================== *)
(** * Part III.  The rest of the orchestrator                           *)
(* ================================================================== *)

(** ** [makeApiRequestWithRetry] *)

Section RetryFacts.

Import Retry.

Variable cfg : API_CONFIG_t.
Variable env : environment.
Variable endpoint model : jsstring.
Variable apiCall : executable.

Local Abbreviation attempt := (Retry.attempt cfg env endpoint model apiCall).
Local Abbreviation loop := (Retry.loop cfg env endpoint model apiCall).

(** What the [catch] block of [makeApiRequestWithRetry] decides. *)
Definition decideRetry (message : jsstring) (retryCount : Z) : turn :=
  if rateLimited message then checkSpent cfg message (retryCount + 1)
  else if retryCount <? maxRetries cfg
       then checkSpent cfg message (retryCount + 1)
       else Leave (Thrown message).

Lemma retry_onError_eq :
  forall message retryCount w,
    exists w' printed,
      onError cfg env endpoint model message retryCount w
      = (decideRetry message retryCount, w')
      /\ trace w' = trace w ++ RequestFailed (-1) retryCount message :: printed
      /\ Forall silent printed.
Proof.
  intros message r w.
  set (logged :=
         apiUsageMonitor.logApiCall (clock env (ticks w)) endpoint model false
           (if JsString.truthy message
            then option_map parseDigits (Cascade.statusMatch message) else None)
           (monitor w)).
  assert (Hsilent : Forall silent (snd logged)) by apply monitor_prints_silent.
  unfold onError, decideRetry. fold (rateLimited message).
  unfold bind at 1. unfold emit at 1.
  unfold bind at 1. unfold logApiCall, bind at 1, Date_now.
  cbn [ticks draws requests monitor trace].
  fold logged. destruct logged as [m printed]. cbn [snd] in Hsilent.
  destruct (rateLimited message); [| destruct (r <? maxRetries cfg)].
  - unfold bind, emit, wait, emit, getRetryDelay, bind, Math_random, ret.
    cbn [ticks draws requests monitor trace].
    eexists _, (printed ++ [RateLimitExceeded; Waited _]).
    split; [reflexivity |]. split.
    + cbn [trace]. rewrite <- !app_assoc. reflexivity.
    + apply Forall_app. split; [exact Hsilent | repeat constructor].
  - unfold bind, emit, wait, emit, getRetryDelay, bind, Math_random, ret.
    cbn [ticks draws requests monitor trace].
    eexists _, (printed ++ [Retrying _; Waited _]).
    split; [reflexivity |]. split.
    + cbn [trace]. rewrite <- !app_assoc. reflexivity.
    + apply Forall_app. split; [exact Hsilent | repeat constructor].
  - unfold ret. eexists _, printed. split; [reflexivity |].
    split; [| exact Hsilent].
    cbn [trace]. rewrite <- !app_assoc. reflexivity.
Qed.

Lemma retry_attempt_after_admission :
  forall i retryCount w,
    attempt i retryCount w
    = (admission cfg env ;;
       emit (Called (-1)) ;;
       match apiCall i with
       | Resolved result =>
           logApiCall env endpoint model true None ;;
           ret (Leave (Returned result))
       | Rejected message =>
           onError cfg env endpoint model message retryCount
       end)%js w.
Proof.
  intros i r w. unfold Retry.attempt, admission.
  rewrite bind_assoc. apply bind_ext. intros ok w1.
  rewrite bind_assoc. reflexivity.
Qed.

Lemma retry_attempt_rejected :
  forall i retryCount w message,
    apiCall i = Rejected message ->
    exists w',
      attempt i retryCount w = (decideRetry message retryCount, w')
      /\ calls (trace w') = calls (trace w) ++ [-1]
      /\ lastError (trace w') = Some message.
Proof.
  intros i r w message Hcall.
  rewrite retry_attempt_after_admission, Hcall. unfold bind at 1.
  destruct (admission_spec cfg env w) as (tk & rs & before & -> & Hbefore).
  unfold bind at 1. unfold emit at 1.
  cbn [ticks draws requests monitor trace].
  match goal with
  | |- context [onError _ _ _ _ _ _ ?w0] =>
      destruct (retry_onError_eq message r w0)
        as (w' & printed & -> & Htrace & Hprinted)
  end.
  cbn [trace] in Htrace. exists w'. split; [reflexivity |].
  rewrite Htrace, <- !app_assoc. cbn [app].
  change (Called ?l :: RequestFailed ?a ?b ?c :: ?t)
    with ([Called l; RequestFailed a b c] ++ t).
  split.
  - rewrite !calls_app, (silent_calls _ Hbefore), (silent_calls _ Hprinted).
    reflexivity.
  - unfold lastError.
    rewrite !lastErrorFrom_app, (silent_lastError _ _ Hprinted).
    reflexivity.
Qed.

Lemma retry_attempt_resolved :
  forall i retryCount w result,
    apiCall i = Resolved result ->
    exists w',
      attempt i retryCount w = (Leave (Returned result), w')
      /\ calls (trace w') = calls (trace w) ++ [-1].
Proof.
  intros i r w result Hcall.
  rewrite retry_attempt_after_admission, Hcall. unfold bind at 1.
  destruct (admission_spec cfg env w) as (tk & rs & before & -> & Hbefore).
  unfold bind, emit, logApiCall, bind, Date_now, ret.
  cbn [ticks draws requests monitor trace].
  match goal with
  | |- context [apiUsageMonitor.logApiCall ?a ?b ?c ?d ?e ?f] =>
      pose proof (monitor_prints_silent a b c d e f) as Hprinted;
      destruct (apiUsageMonitor.logApiCall a b c d e f) as [m printed]
  end.
  cbn [snd] in Hprinted.
  eexists. split; [reflexivity |]. cbn [trace].
  rewrite <- !app_assoc. cbn [app].
  change (Called ?l :: ?t) with ([Called l] ++ t).
  rewrite !calls_app, (silent_calls _ Hbefore), (silent_calls _ Hprinted).
  reflexivity.
Qed.

Lemma retry_loop_S :
  forall fuel i retryCount w,
    loop (S fuel) i retryCount w
    = (let (t, w') := attempt i retryCount w in
       match t with
       | Leave c => (Some c, w')
       | Again retryCount' => loop fuel (S i) retryCount' w'
       end).
Proof.
  intros. cbn [Retry.loop]. unfold bind at 1.
  destruct (attempt i retryCount w) as [[c | r'] w']; reflexivity.
Qed.

(** A failure with retries to spare: whatever the error, the count goes
    up by one. *)
Lemma decideRetry_again :
  forall message retryCount,
    retryCount + 1 < maxRetries cfg ->
    decideRetry message retryCount = Again (retryCount + 1).
Proof.
  intros message r H. unfold decideRetry, checkSpent.
  replace (maxRetries cfg <=? r + 1) with false by (symmetry; apply Z.leb_gt; lia).
  replace (r <? maxRetries cfg) with true by (symmetry; apply Z.ltb_lt; lia).
  destruct (rateLimited message); reflexivity.
Qed.

(** The failure that spends the last retry. *)
Lemma decideRetry_spent :
  forall message retryCount,
    retryCount + 1 = maxRetries cfg ->
    decideRetry message retryCount
    = Leave (Thrown (str "Failed after " ++ JsString.ofZ (maxRetries cfg)
                     ++ str " retry attempts: " ++ message)).
Proof.
  intros message r H. unfold decideRetry, checkSpent.
  replace (maxRetries cfg <=? r + 1) with true by (symmetry; apply Z.leb_le; lia).
  replace (r <? maxRetries cfg) with true by (symmetry; apply Z.ltb_lt; lia).
  destruct (rateLimited message); reflexivity.
Qed.

(** The calls before the [k]-th all fail. *)
Definition failsBefore (call : executable) (i k : nat) : Prop :=
  forall j, (i <= j < i + k)%nat -> exists message, call j = Rejected message.

Lemma retry_loop_success :
  forall k fuel i retryCount w result,
    failsBefore apiCall i k ->
    apiCall (i + k)%nat = Resolved result ->
    retryCount + Z.of_nat k < maxRetries cfg ->
    exists w',
      loop (S k + fuel) i retryCount w = (Some (Returned result), w')
      /\ calls (trace w') = calls (trace w) ++ repeat (-1) (S k).
Proof.
  induction k as [| k IH]; intros fuel i r w result Hfails Hok Hbudget.
  - replace (i + 0)%nat with i in Hok by lia.
    destruct (retry_attempt_resolved i r w result Hok) as (w' & Hrun & Hcalls).
    exists w'. cbn [Nat.add]. rewrite retry_loop_S, Hrun. auto.
  - destruct (Hfails i) as (message & Hcall); [lia |].
    destruct (retry_attempt_rejected i r w message Hcall)
      as (w1 & Hrun & Hcalls & _).
    rewrite decideRetry_again in Hrun by lia.
    destruct (IH fuel (S i) (r + 1) w1 result) as (w' & Hloop & Hcalls').
    + intros j Hj. apply Hfails. lia.
    + replace (S i + k)%nat with (i + S k)%nat by lia. exact Hok.
    + lia.
    + exists w'. change (S (S k) + fuel)%nat with (S (S k + fuel)).
      rewrite retry_loop_S, Hrun. split; [exact Hloop |].
      rewrite Hcalls', Hcalls, <- app_assoc. reflexivity.
Qed.

Lemma retry_loop_failure :
  forall k fuel i retryCount w,
    failsBefore apiCall i (S k) ->
    retryCount + Z.of_nat (S k) = maxRetries cfg ->
    exists last w',
      apiCall (i + k)%nat = Rejected last
      /\ loop (S k + fuel) i retryCount w
         = (Some (Thrown (str "Failed after " ++ JsString.ofZ (maxRetries cfg)
                          ++ str " retry attempts: " ++ last)), w')
      /\ calls (trace w') = calls (trace w) ++ repeat (-1) (S k)
      /\ lastError (trace w') = Some last.
Proof.
  induction k as [| k IH]; intros fuel i r w Hfails Hbudget;
    (destruct (Hfails i) as (message & Hcall); [lia |]);
    destruct (retry_attempt_rejected i r w message Hcall)
      as (w1 & Hrun & Hcalls & Hlast).
  - rewrite decideRetry_spent in Hrun by lia.
    exists message, w1. replace (i + 0)%nat with i by lia.
    cbn [Nat.add]. rewrite retry_loop_S, Hrun. auto.
  - rewrite decideRetry_again in Hrun by lia.
    destruct (IH fuel (S i) (r + 1) w1) as (last & w' & Hl & Hloop & Hcalls' & Hlast').
    + intros j Hj. apply Hfails. lia.
    + lia.
    + exists last, w'. replace (i + S k)%nat with (S i + k)%nat by lia.
      split; [exact Hl |].
      change (S (S k) + fuel)%nat with (S (S k + fuel)).
      rewrite retry_loop_S, Hrun. split; [exact Hloop |].
      split; [| exact Hlast'].
      rewrite Hcalls', Hcalls, <- app_assoc. reflexivity.
Qed.

End RetryFacts.

(** X1.  Without a fallback call, a request whose first [maxRetries]
    attempts all fail, with whatever errors, rate limits included, makes
    exactly [maxRetries] physical attempts and throws
    [Failed after <maxRetries> retry attempts: <last error message>]. *)
Theorem retry_gives_up_after_maxRetries_attempts :
  forall cfg env endpoint model apiCall fuel w,
    1 <= maxRetries cfg ->
    (forall j, (j < Z.to_nat (maxRetries cfg))%nat ->
               exists message, apiCall j = Rejected message) ->
    (Z.to_nat (maxRetries cfg) <= fuel)%nat ->
    exists last w',
      apiCall (Z.to_nat (maxRetries cfg) - 1)%nat = Rejected last
      /\ Retry.makeApiRequestWithRetry cfg env endpoint model apiCall None fuel w
         = (Some (Thrown (str "Failed after " ++ JsString.ofZ (maxRetries cfg)
                          ++ str " retry attempts: " ++ last)), w')
      /\ calls (trace w')
         = calls (trace w) ++ repeat (-1) (Z.to_nat (maxRetries cfg))
      /\ lastError (trace w') = Some last.
Proof.
  intros cfg env endpoint model apiCall fuel w Hm Hfails Hfuel.
  unfold Retry.makeApiRequestWithRetry.
  destruct (Z.to_nat (maxRetries cfg)) as [| k] eqn:Ek; [lia |].
  destruct (retry_loop_failure cfg env endpoint model apiCall k
              (fuel - S k) 0 0 w)
    as (last & w' & Hlast & Hloop & Hcalls & Herr).
  - intros j Hj. apply Hfails. lia.
  - lia.
  - exists last, w'. replace (S k - 1)%nat with (0 + k)%nat by lia.
    replace (S k + (fuel - S k))%nat with fuel in Hloop by lia.
    auto.
Qed.

(** X2.  Without a fallback call, the first attempt that succeeds among the
    first [maxRetries] ones gives the result of the request: the failures
    before it, rate limits included, are retried on the same call, and
    nothing is thrown. *)
Theorem retry_returns_first_success :
  forall cfg env endpoint model apiCall fuel w k result,
    Z.of_nat k < maxRetries cfg ->
    (forall j, (j < k)%nat -> exists message, apiCall j = Rejected message) ->
    apiCall k = Resolved result ->
    (k < fuel)%nat ->
    exists w',
      Retry.makeApiRequestWithRetry cfg env endpoint model apiCall None fuel w
      = (Some (Returned result), w')
      /\ calls (trace w') = calls (trace w) ++ repeat (-1) (S k).
Proof.
  intros cfg env endpoint model apiCall fuel w k result Hk Hfails Hok Hfuel.
  unfold Retry.makeApiRequestWithRetry.
  destruct (retry_loop_success cfg env endpoint model apiCall k
              (fuel - S k) 0 0 w result)
    as (w' & Hloop & Hcalls).
  - intros j Hj. apply Hfails. lia.
  - exact Hok.
  - lia.
  - exists w'. replace (S k + (fuel - S k))%nat with fuel in Hloop by lia.
    auto.
Qed.

Section RetryScenarios.

(** A server that answers 429 twice and then the text [ok]. *)
Definition thirdTimeLucky : executable :=
  fun i => match i with
           | 0%nat | 1%nat =>
               Rejected (str "API request failed: 429 Too Many Requests - slow down")
           | _ => Resolved (str "ok")
           end.

Lemma retry_gives_up_after_maxRetries_attempts_witness :
  1 <= maxRetries API_CONFIG
  /\ (forall j, (j < Z.to_nat (maxRetries API_CONFIG))%nat ->
                exists message, tooManyRequests j = Rejected message)
  /\ (Z.to_nat (maxRetries API_CONFIG) <= 3)%nat
  /\ exists last w',
      tooManyRequests (Z.to_nat (maxRetries API_CONFIG) - 1)%nat = Rejected last
      /\ Retry.makeApiRequestWithRetry API_CONFIG tickingClock (str "chat")
           (str "gpt-4") tooManyRequests None 3 initial_world
         = (Some (Thrown (str "Failed after "
                          ++ JsString.ofZ (maxRetries API_CONFIG)
                          ++ str " retry attempts: " ++ last)), w')
      /\ calls (trace w')
         = calls (trace initial_world)
           ++ repeat (-1) (Z.to_nat (maxRetries API_CONFIG))
      /\ lastError (trace w') = Some last.
Proof.
  split; [vm_compute; discriminate |].
  split; [intros j _; eexists; reflexivity |].
  split; [vm_compute; lia |].
  apply (retry_gives_up_after_maxRetries_attempts API_CONFIG tickingClock
           (str "chat") (str "gpt-4") tooManyRequests 3%nat initial_world).
  - vm_compute; discriminate.
  - intros j _; eexists; reflexivity.
  - vm_compute; lia.
Defined.

Lemma retry_returns_first_success_witness :
  Z.of_nat 2 < maxRetries API_CONFIG
  /\ (forall j, (j < 2)%nat -> exists message, thirdTimeLucky j = Rejected message)
  /\ thirdTimeLucky 2%nat = Resolved (str "ok")
  /\ (2 < 3)%nat
  /\ exists w',
      Retry.makeApiRequestWithRetry API_CONFIG tickingClock (str "chat")
        (str "gpt-4") thirdTimeLucky None 3 initial_world
      = (Some (Returned (str "ok")), w')
      /\ calls (trace w') = calls (trace initial_world) ++ repeat (-1) 3.
Proof.
  assert (Hfails : forall j, (j < 2)%nat ->
                     exists message, thirdTimeLucky j = Rejected message).
  { intros j Hj. destruct j as [| [| j]]; [eexists; reflexivity .. | lia]. }
  split; [vm_compute; reflexivity |].
  split; [exact Hfails |].
  split; [reflexivity |].
  split; [lia |].
  apply (retry_returns_first_success API_CONFIG tickingClock (str "chat")
           (str "gpt-4") thirdTimeLucky 3%nat initial_world 2%nat (str "ok")).
  - vm_compute; reflexivity.
  - exact Hfails.
  - reflexivity.
  - lia.
Defined.

End RetryScenarios.

(** ** The cascade: what the shared state cannot change, and the rescue *)

Section CascadeRescue.

Import Cascade.

(** The tiers of the attempts of a request that climbs [t] tiers from tier
    [l], failing [m + 1] times on each, and succeeds at its first attempt
    on tier [l + t]. *)
Fixpoint climb (m : nat) (l : Z) (t : nat) : list Z :=
  match t with
  | O => [l]
  | S t' => repeat l (S m) ++ climb m (l + 1) t'
  end.

Lemma climb_length :
  forall m t l, List.length (climb m l t) = (t * S m + 1)%nat.
Proof.
  induction t as [| t IH]; intros l; cbn [climb].
  - reflexivity.
  - rewrite length_app, repeat_length, IH. lia.
Qed.

Lemma outline_resolved :
  forall cfg create fuel i v result,
    currentApiCall v i = Resolved result ->
    outline cfg create (S fuel) i v
    = (Some (Returned result), [fallbackLevel v], []).
Proof. intros cfg create fuel i v result H. cbn [outline]. rewrite H. reflexivity. Qed.

Lemma tiers_then_success :
  forall cfg create m t fuel i v result,
    Z.of_nat m = maxRetries cfg ->
    1 <= maxRetries cfg ->
    retryCount v = 0 ->
    fallbackLevel v + Z.of_nat t < len (fallbackModels cfg) ->
    (t <> 0%nat -> transient (currentApiCall v)) ->
    (forall j, (0 < j < t)%nat ->
               transient (create (fallbackModelAt cfg (fallbackLevel v + Z.of_nat j))
                                 (fallbackLevel v + Z.of_nat j))) ->
    match t with
    | O => currentApiCall v i
    | S _ => create (fallbackModelAt cfg (fallbackLevel v + Z.of_nat t))
               (fallbackLevel v + Z.of_nat t) (i + t * S m)%nat
    end = Resolved result ->
    outline cfg create (t * S m + S fuel) i v
    = (Some (Returned result), climb m (fallbackLevel v) t,
       madeFrom cfg (fallbackLevel v) t).
Proof.
  intros cfg create m t. induction t as [| t IH];
    intros fuel i v result Hm Hcfg Hretry Htier Hcur Hmid Hlast.
  - cbn [Nat.mul Nat.add climb madeFrom].
    apply outline_resolved. exact Hlast.
  - replace (S t * S m + S fuel)%nat with (m + S (t * S m + S fuel))%nat by lia.
    rewrite (retries_then_promotion cfg create Hcfg m _ i v);
      [| apply Hcur; discriminate | lia | lia].
    rewrite (IH fuel (i + S m)%nat (promoted cfg create v) result).
    + cbn [climb madeFrom promoted fallbackLevel]. reflexivity.
    + exact Hm.
    + exact Hcfg.
    + reflexivity.
    + cbn [promoted fallbackLevel]. lia.
    + intros Ht. cbn [promoted currentApiCall].
      replace (fallbackLevel v + 1) with (fallbackLevel v + Z.of_nat 1) by lia.
      apply Hmid. lia.
    + intros j Hj. cbn [promoted fallbackLevel].
      replace (fallbackLevel v + 1 + Z.of_nat j)
        with (fallbackLevel v + Z.of_nat (S j)) by lia.
      apply Hmid. lia.
    + cbn [promoted fallbackLevel currentApiCall].
      destruct t as [| t'].
      * replace (i + S m)%nat with (i + 1 * S m)%nat by lia.
        replace (fallbackLevel v + 1) with (fallbackLevel v + Z.of_nat 1) by lia.
        exact Hlast.
      * replace (fallbackLevel v + 1 + Z.of_nat (S t'))
          with (fallbackLevel v + Z.of_nat (S (S t'))) by lia.
        replace (i + S m + S t' * S m)%nat with (i + S (S t') * S m)%nat by lia.
        exact Hlast.
Qed.

End CascadeRescue.

(** X3.  What a request returns or throws, the tier of each of its
    attempts and the fallback calls it creates depend on the outcomes of
    the calls alone: the clock, the random jitter, the rate window, the
    usage monitor, the endpoint and model names and the target element
    change none of them.  The rate limiter delays a request; it never
    rejects one. *)
Theorem request_outcome_independent_of_shared_state :
  forall cfg apiCall createFallbackCall fuel
         env endpoint model targetElement w
         env' endpoint' model' targetElement' w',
    let run :=
      Cascade.makeApiRequestWithMultiFallback cfg env endpoint model apiCall
        createFallbackCall targetElement fuel w in
    let run' :=
      Cascade.makeApiRequestWithMultiFallback cfg env' endpoint' model' apiCall
        createFallbackCall targetElement' fuel w' in
    fst run = fst run'
    /\ exists levels made,
         calls (trace (snd run)) = calls (trace w) ++ levels
         /\ calls (trace (snd run')) = calls (trace w') ++ levels
         /\ factoryCalls (trace (snd run)) = factoryCalls (trace w) ++ made
         /\ factoryCalls (trace (snd run')) = factoryCalls (trace w') ++ made.
Proof.
  intros cfg apiCall create fuel env endpoint model targetElement w
    env' endpoint' model' targetElement' w'.
  unfold Cascade.makeApiRequestWithMultiFallback. cbv zeta.
  set (v0 := {| Cascade.retryCount := 0; Cascade.fallbackLevel := -1;
                Cascade.currentApiCall := apiCall |}).
  destruct (loop_outline cfg env endpoint model create targetElement fuel 0 v0 w)
    as (w1 & -> & Hc & Hf).
  destruct (loop_outline cfg env' endpoint' model' create targetElement' fuel 0 v0 w')
    as (w1' & -> & Hc' & Hf').
  cbn [fst snd]. split; [reflexivity |].
  exists (snd (fst (outline cfg create fuel 0 v0))), (snd (outline cfg create fuel 0 v0)).
  auto.
Qed.

(** X4.  When the primary call and the fallback tiers below tier [T] fail
    at every attempt (never with a rate limit) and the call of tier [T]
    succeeds at its first attempt, the request returns that result after
    [maxRetries + 1] attempts on the primary and on each tier below [T]
    and one attempt on tier [T]; the fallback factory has been called once
    for each of the tiers 0 .. [T], in order. *)
Theorem fallback_tier_rescues_the_request :
  forall cfg env endpoint model apiCall createFallbackCall targetElement
         fuel w T result,
    1 <= maxRetries cfg ->
    (T < List.length (fallbackModels cfg))%nat ->
    transient apiCall ->
    (forall j, (j < T)%nat ->
       transient (createFallbackCall (Cascade.fallbackModelAt cfg (Z.of_nat j))
                                     (Z.of_nat j))) ->
    createFallbackCall (Cascade.fallbackModelAt cfg (Z.of_nat T)) (Z.of_nat T)
      (S T * S (Z.to_nat (maxRetries cfg)))%nat = Resolved result ->
    (S T * S (Z.to_nat (maxRetries cfg)) < fuel)%nat ->
    exists w',
      Cascade.makeApiRequestWithMultiFallback cfg env endpoint model apiCall
        createFallbackCall targetElement fuel w
      = (Some (Returned result), w')
      /\ calls (trace w')
         = calls (trace w) ++ climb (Z.to_nat (maxRetries cfg)) (-1) (S T)
      /\ List.length (climb (Z.to_nat (maxRetries cfg)) (-1) (S T))
         = (S T * S (Z.to_nat (maxRetries cfg)) + 1)%nat
      /\ factoryCalls (trace w')
         = factoryCalls (trace w) ++ madeFrom cfg (-1) (S T).
Proof.
  intros cfg env endpoint model apiCall create targetElement fuel w T result
    Hcfg HT Hprimary Hbelow Hlast Hfuel.
  unfold Cascade.makeApiRequestWithMultiFallback.
  set (m := Z.to_nat (maxRetries cfg)) in *.
  set (v0 := {| Cascade.retryCount := 0; Cascade.fallbackLevel := -1;
                Cascade.currentApiCall := apiCall |}).
  assert (Hout : outline cfg create fuel 0 v0
                 = (Some (Returned result), climb m (-1) (S T),
                    madeFrom cfg (-1) (S T))).
  { replace fuel with (S T * S m + S (fuel - S (S T * S m)))%nat by lia.
    apply (tiers_then_success cfg create m (S T) _ 0%nat v0 result).
    - unfold m. lia.
    - exact Hcfg.
    - reflexivity.
    - cbn [v0 Cascade.fallbackLevel]. unfold len. lia.
    - intros _. exact Hprimary.
    - intros j Hj. cbn [v0 Cascade.fallbackLevel].
      replace (-1 + Z.of_nat j) with (Z.of_nat (j - 1)) by lia.
      apply Hbelow. lia.
    - cbn [v0 Cascade.fallbackLevel].
      replace (-1 + Z.of_nat (S T)) with (Z.of_nat T) by lia.
      exact Hlast. }
  destruct (loop_outline cfg env endpoint model create targetElement fuel 0 v0 w)
    as (w' & Hloop & Hcalls & Hmade).
  rewrite Hout in Hloop, Hcalls, Hmade. cbn [fst snd] in Hloop, Hcalls, Hmade.
  exists w'. split; [exact Hloop |]. split; [exact Hcalls |].
  split; [apply climb_length | exact Hmade].
Qed.

Section CascadeRescueScenarios.

(** Fallback calls of which tier 1 answers, tier 0 failing like the primary. *)
Definition secondTierAnswers : option jsstring -> Z -> executable :=
  fun _ fallbackLevel =>
    if fallbackLevel =? 1 then fun _ => Resolved (str "ok") else serverError.

Lemma fallback_tier_rescues_the_request_witness :
  exists w',
    Cascade.makeApiRequestWithMultiFallback API_CONFIG tickingClock (str "chat")
      (str "gpt-4") serverError secondTierAnswers true 20 initial_world
    = (Some (Returned (str "ok")), w')
    /\ calls (trace w')
       = calls (trace initial_world)
         ++ climb (Z.to_nat (maxRetries API_CONFIG)) (-1) 2
    /\ List.length (climb (Z.to_nat (maxRetries API_CONFIG)) (-1) 2)
       = (2 * S (Z.to_nat (maxRetries API_CONFIG)) + 1)%nat
    /\ factoryCalls (trace w')
       = factoryCalls (trace initial_world) ++ madeFrom API_CONFIG (-1) 2.
Proof.
  apply (fallback_tier_rescues_the_request API_CONFIG tickingClock (str "chat")
           (str "gpt-4") serverError secondTierAnswers true 20%nat
           initial_world 1%nat (str "ok")).
  - vm_compute; discriminate.
  - vm_compute; lia.
  - exact serverError_transient.
  - intros j Hj. assert (j = 0%nat) as -> by lia. exact serverError_transient.
  - reflexivity.
  - vm_compute; lia.
Defined.

End CascadeRescueScenarios.

(** ** What the usage monitor learns of a request *)

(** The lines [API Call: ...] of the trace: the entries recorded. *)
Definition logged (tr : list event) : list entry :=
  flat_map (fun e => match e with ApiCallLogged e' => [e'] | _ => [] end) tr.

Lemma logged_app : forall a b, logged (a ++ b) = logged a ++ logged b.
Proof. intros; unfold logged; apply flat_map_app. Qed.

(** The status code an attempt is logged with. *)
Definition loggedCode (o : outcome) : option Z :=
  match o with
  | Resolved _ => None
  | Rejected message =>
      if JsString.truthy message
      then option_map parseDigits (Cascade.statusMatch message) else None
  end.

Definition resolved (o : outcome) : bool :=
  match o with Resolved _ => true | Rejected _ => false end.

(** The success flags of the entries of a request of [n] attempts. *)
Definition successFlags (c : option completion) (n : nat) : list bool :=
  match c with
  | Some (Returned _) => repeat false (Nat.pred n) ++ [true]
  | _ => repeat false n
  end.

Section MonitorFacts.

Import apiUsageMonitor.

Lemma monitor_logged :
  forall now ep md ok ec this,
    logged (snd (logApiCall now ep md ok ec this))
    = [{| timestamp := now; endpoint := ep; model := md;
          success := ok; errorCode := ec |}].
Proof.
  intros. unfold logApiCall; cbn [snd]. rewrite logged_app.
  unfold checkForSuspiciousActivity. rewrite logged_app.
  repeat match goal with |- context [if ?b then _ else _] => destruct b end;
    reflexivity.
Qed.

Lemma logApiCall_firstn :
  forall now ep md ok ec this,
    len (usageLog this) <= maxLogSize this ->
    usageLog (fst (logApiCall now ep md ok ec this))
    = firstn (Z.to_nat (maxLogSize this))
        ({| timestamp := now; endpoint := ep; model := md;
            success := ok; errorCode := ec |} :: usageLog this).
Proof.
  intros now ep md ok ec this Hlen.
  unfold logApiCall; cbn [fst usageLog]. rewrite len_cons.
  set (e := {| timestamp := now; endpoint := ep; model := md;
               success := ok; errorCode := ec |}).
  destruct (Z.ltb_spec (maxLogSize this) (len (usageLog this) + 1)) as [Hfull | Hroom].
  - rewrite removelast_firstn_len. f_equal. cbn [List.length Nat.pred].
    unfold len in *. lia.
  - symmetry. apply firstn_all2. cbn [List.length]. unfold len in *. lia.
Qed.

Lemma firstn_app_firstn :
  forall (A : Type) (n : nat) (a b : list A),
    firstn n (a ++ firstn n b) = firstn n (a ++ b).
Proof.
  intros A n a b. rewrite !firstn_app, firstn_firstn.
  f_equal. f_equal. lia.
Qed.

End MonitorFacts.

Section CascadeLogging.

Import Cascade.

Variable cfg : API_CONFIG_t.
Variable env : environment.
Variable ep md : jsstring.
Variable createFallbackCall : option jsstring -> Z -> executable.
Variable targetElement : bool.

(** What the admission prints: its own wait. *)
Definition waiting (e : event) : Prop :=
  match e with
  | RateLimitReached _ | Waited _ => True
  | _ => False
  end.

Lemma waiting_logged : forall es, Forall waiting es -> logged es = [].
Proof.
  induction 1 as [| e es He _ IH]; [reflexivity |].
  unfold logged in *; cbn [flat_map]. rewrite IH.
  destruct e; try reflexivity; contradiction.
Qed.

Lemma admission_prints :
  forall w,
    exists tk rs es,
      admission cfg env w
      = (tt, {| ticks := tk; draws := draws w; requests := rs;
                monitor := monitor w; trace := trace w ++ es |})
      /\ Forall waiting es /\ (ticks w <= tk)%nat.
Proof.
  intros w. unfold admission. unfold bind at 1.
  rewrite canMakeRequest_eq.
  destruct (len (retained cfg (clock env (ticks w)) (requests w))
            <? rateLimitPerMinute cfg) eqn:Hok; cbn [negb].
  - unfold bind, ret. rewrite addRequest_eq. cbn [ticks draws requests monitor trace].
    eexists _, _, [].
    split; [rewrite app_nil_r; reflexivity | split; [constructor | lia]].
  - unfold bind at 1. unfold bind at 1. rewrite getWaitTime_eq. cbv zeta.
    cbn [ticks draws requests monitor trace].
    match goal with
    | |- context [if ?b then _ else _] => destruct b
    end;
      unfold bind, emit, wait, emit, ret; rewrite addRequest_eq;
      cbn [ticks draws requests monitor trace];
      rewrite <- app_assoc;
      eexists _, _, _; (split; [reflexivity | split; [repeat constructor | lia]]).
Qed.

(** The entry of the attempt [i] of the loop in state [v], stamped [now]. *)
Definition entryOf (now : Z) (i : nat) (v : vars) : entry :=
  {| timestamp := now; endpoint := ep;
     model := currentModel cfg md (fallbackLevel v);
     success := resolved (currentApiCall v i);
     errorCode := loggedCode (currentApiCall v i) |}.

Lemma onError_logs :
  forall message v w,
    exists t w',
      onError cfg env ep md createFallbackCall targetElement message v w = (t, w')
      /\ monitor w'
         = fst (apiUsageMonitor.logApiCall (clock env (ticks w)) ep
                  (currentModel cfg md (fallbackLevel v)) false
                  (loggedCode (Rejected message)) (monitor w))
      /\ logged (trace w')
         = logged (trace w)
           ++ [{| timestamp := clock env (ticks w); endpoint := ep;
                  model := currentModel cfg md (fallbackLevel v);
                  success := false;
                  errorCode := loggedCode (Rejected message) |}].
Proof.
  intros message v w. cbn [loggedCode].
  pose proof (monitor_logged (clock env (ticks w)) ep
                (currentModel cfg md (fallbackLevel v)) false
                (if JsString.truthy message
                 then option_map parseDigits (statusMatch message) else None)
                (monitor w)) as Hlog.
  set (rec :=
         apiUsageMonitor.logApiCall (clock env (ticks w)) ep
           (currentModel cfg md (fallbackLevel v)) false
           (if JsString.truthy message
            then option_map parseDigits (statusMatch message) else None)
           (monitor w)) in *.
  unfold onError.
  unfold bind at 1. unfold emit at 1.
  unfold bind at 1. unfold logApiCall, bind at 1, Date_now.
  cbn [ticks draws requests monitor trace].
  fold rec. destruct rec as [m printed].
  cbn [fst snd] in *.
  destruct (JsString.truthy message && includes (str "429") message);
    [| destruct (retryCount v <? maxRetries cfg);
       [| destruct (fallbackLevel v <? len (fallbackModels cfg) - 1)]].
  - unfold bind, emit, wait, emit, getRetryDelay, bind, Math_random, ret.
    cbn [fst snd ticks draws requests monitor trace].
    eexists _, _. split; [reflexivity |]. split; [reflexivity |].
    cbn [trace]. rewrite !logged_app, Hlog. cbn. rewrite !app_nil_r. reflexivity.
  - unfold bind, emit, wait, emit, getRetryDelay, bind, Math_random, ret.
    cbn [fst snd ticks draws requests monitor trace].
    eexists _, _. split; [reflexivity |]. split; [reflexivity |].
    cbn [trace]. rewrite !logged_app, Hlog. cbn. rewrite !app_nil_r. reflexivity.
  - unfold showFallbackNotification.
    destruct targetElement; cbn [negb]; cbv zeta;
      [match goal with
       | |- context [JsString.truthy (notificationHtml ?l ?m)] =>
           destruct (JsString.truthy (notificationHtml l m))
       end |];
      unfold bind, emit, ret; cbn [fst snd ticks draws requests monitor trace];
      (eexists _, _; split; [reflexivity |]; split; [reflexivity |]);
      cbn [trace]; rewrite !logged_app, Hlog; cbn; rewrite ?app_nil_r; reflexivity.
  - unfold ret. eexists _, _. split; [reflexivity |]. split; [reflexivity |].
    cbn [trace]. rewrite !logged_app, Hlog. cbn. rewrite !app_nil_r. reflexivity.
Qed.

Local Abbreviation attempt :=
  (Cascade.attempt cfg env ep md createFallbackCall targetElement).
Local Abbreviation loop :=
  (Cascade.loop cfg env ep md createFallbackCall targetElement).

Lemma attempt_logs_run :
  forall i v w,
    exists k t w',
      attempt i v w = (t, w')
      /\ (ticks w <= k)%nat
      /\ monitor w'
         = fst (apiUsageMonitor.logApiCall (clock env k) ep
                  (currentModel cfg md (fallbackLevel v))
                  (resolved (currentApiCall v i))
                  (loggedCode (currentApiCall v i)) (monitor w))
      /\ logged (trace w') = logged (trace w) ++ [entryOf (clock env k) i v].
Proof.
  intros i v w.
  rewrite (attempt_after_admission cfg env ep md createFallbackCall
             targetElement i v w).
  unfold bind at 1.
  destruct (admission_prints w) as (tk & rs & before & -> & Hbefore & Htk).
  unfold bind at 1. unfold emit at 1.
  cbn [ticks draws requests monitor trace].
  unfold entryOf.
  destruct (currentApiCall v i) as [result | message] eqn:Hcall.
  - exists tk.
    unfold bind, logApiCall, bind, Date_now, ret.
    cbn [ticks draws requests monitor trace resolved loggedCode].
    pose proof (monitor_logged (clock env tk) ep
                  (currentModel cfg md (fallbackLevel v)) true None (monitor w))
      as Hlog.
    destruct (apiUsageMonitor.logApiCall (clock env tk) ep
                (currentModel cfg md (fallbackLevel v)) true None (monitor w))
      as [m printed].
    cbn [fst snd] in *.
    eexists _, _. split; [reflexivity |]. split; [exact Htk |].
    split; [reflexivity |]. cbn [trace].
    rewrite !logged_app, Hlog, (waiting_logged _ Hbefore).
    cbn. rewrite !app_nil_r. reflexivity.
  - exists tk.
    match goal with
    | |- context [onError _ _ _ _ _ _ _ _ ?w0] =>
        destruct (onError_logs message v w0) as (t & w' & -> & Hmon & Hlog)
    end.
    cbn [ticks monitor trace] in Hmon, Hlog.
    cbn [resolved]. exists t, w'. split; [reflexivity |]. split; [exact Htk |].
    split; [exact Hmon |].
    rewrite Hlog, !logged_app, (waiting_logged _ Hbefore).
    cbn. rewrite !app_nil_r. reflexivity.
Qed.

(** One attempt, one entry: the tier's model, the outcome, the status. *)
Lemma attempt_logs :
  forall i v w,
    exists k,
      (ticks w <= k)%nat
      /\ monitor (snd (attempt i v w))
         = fst (apiUsageMonitor.logApiCall (clock env k) ep
                  (currentModel cfg md (fallbackLevel v))
                  (resolved (currentApiCall v i))
                  (loggedCode (currentApiCall v i)) (monitor w))
      /\ logged (trace (snd (attempt i v w)))
         = logged (trace w) ++ [entryOf (clock env k) i v].
Proof.
  intros i v w.
  destruct (attempt_logs_run i v w) as (k & t & w' & -> & H).
  exists k. exact H.
Qed.

Lemma outline_levels_nonempty :
  forall fuel i v c,
    fst (fst (outline cfg createFallbackCall fuel i v)) = Some c ->
    snd (fst (outline cfg createFallbackCall fuel i v)) <> [].
Proof.
  intros fuel i v c. destruct fuel as [| fuel]; cbn [outline].
  - discriminate.
  - destruct (currentApiCall v i); [discriminate |].
    destruct (decide cfg createFallbackCall message v); [discriminate |].
    destruct (outline cfg createFallbackCall fuel (S i) v0) as [[c' levels] made].
    discriminate.
Qed.

Lemma decide_never_returns :
  forall message v result,
    decide cfg createFallbackCall message v <> Leave (Returned result).
Proof.
  intros message v result H.
  destruct (decide_cases cfg createFallbackCall message v)
    as [E | [[E _] | (v' & E & _)]]; rewrite E in H; discriminate.
Qed.

Lemma successFlags_cons :
  forall c n,
    (forall result, c = Some (Returned result) -> n <> 0%nat) ->
    successFlags c (S n) = false :: successFlags c n.
Proof.
  intros c n Hn. unfold successFlags.
  destruct c as [[result | message] |]; try reflexivity.
  destruct n as [| n]; [exfalso; apply (Hn result); reflexivity |].
  reflexivity.
Qed.

(** The whole loop: one entry for each attempt, in order. *)
Lemma loop_logs :
  forall fuel i v w,
    exists entries,
      logged (trace (snd (loop fuel i v w))) = logged (trace w) ++ entries
      /\ map model entries
         = map (currentModel cfg md)
             (snd (fst (outline cfg createFallbackCall fuel i v)))
      /\ Forall (fun e => endpoint e = ep) entries
      /\ map success entries
         = successFlags (fst (fst (outline cfg createFallbackCall fuel i v)))
             (List.length (snd (fst (outline cfg createFallbackCall fuel i v))))
      /\ (len (apiUsageMonitor.usageLog (monitor w))
          <= apiUsageMonitor.maxLogSize (monitor w) ->
          apiUsageMonitor.maxLogSize (monitor (snd (loop fuel i v w)))
          = apiUsageMonitor.maxLogSize (monitor w)
          /\ apiUsageMonitor.usageLog (monitor (snd (loop fuel i v w)))
             = firstn (Z.to_nat (apiUsageMonitor.maxLogSize (monitor w)))
                 (rev entries ++ apiUsageMonitor.usageLog (monitor w))).
Proof.
  induction fuel as [| fuel IH]; intros i v w.
  - exists []. cbn. rewrite app_nil_r.
    repeat split; try reflexivity; [constructor |].
    symmetry. apply firstn_all2. unfold len in *. lia.
  - rewrite (loop_S cfg env ep md createFallbackCall targetElement).
    destruct (attempt_logs i v w) as (k & _ & Hmon & Hlog).
    assert (Hcap1 :
      apiUsageMonitor.maxLogSize (monitor (snd (attempt i v w)))
      = apiUsageMonitor.maxLogSize (monitor w)).
    { rewrite Hmon. reflexivity. }
    assert (Hlog1 :
      len (apiUsageMonitor.usageLog (monitor w))
      <= apiUsageMonitor.maxLogSize (monitor w) ->
      apiUsageMonitor.usageLog (monitor (snd (attempt i v w)))
      = firstn (Z.to_nat (apiUsageMonitor.maxLogSize (monitor w)))
          (entryOf (clock env k) i v :: apiUsageMonitor.usageLog (monitor w))).
    { intros Hcap. rewrite Hmon. apply logApiCall_firstn. exact Hcap. }
    cbn [outline]. unfold entryOf in *.
    destruct (currentApiCall v i) as [result | message] eqn:Hcall.
    + destruct (attempt_resolved cfg env ep md createFallbackCall targetElement
                  i v w result Hcall) as (w1 & _ & _ & Hrun & _).
      rewrite Hrun in *. cbn [fst snd] in *.
      eexists [_].
      split; [exact Hlog |].
      split; [reflexivity |]. split; [repeat constructor |].
      split; [reflexivity |].
      intros Hcap. split; [exact Hcap1 | exact (Hlog1 Hcap)].
    + destruct (attempt_rejected_readings cfg env ep md createFallbackCall
                  targetElement i v w message Hcall) as (w1 & Hrun & _).
      rewrite Hrun in *. cbn [fst snd] in *.
      destruct (decide cfg createFallbackCall message v) as [c | v'] eqn:Hdec.
      * eexists [_]. cbn [fst snd].
        split; [exact Hlog |].
        split; [reflexivity |]. split; [repeat constructor |].
        split.
        { destruct c as [result | thrown]; [| reflexivity].
          exfalso. exact (decide_never_returns message v result Hdec). }
        intros Hcap. split; [exact Hcap1 | exact (Hlog1 Hcap)].
      * destruct (IH (S i) v' w1) as (entries & Hl & Hm & He & Hs & Hu).
        pose proof (outline_levels_nonempty fuel (S i) v') as Hne.
        destruct (outline cfg createFallbackCall fuel (S i) v')
          as [[c levels] made].
        cbn [fst snd] in *.
        eexists (_ :: entries).
        split; [rewrite Hl, Hlog, <- app_assoc; reflexivity |].
        split; [cbn [map]; rewrite Hm; reflexivity |].
        split; [constructor; [reflexivity | exact He] |].
        split.
        { cbn [map List.length]. rewrite Hs, successFlags_cons.
          - reflexivity.
          - intros result Hc' Hn. apply (Hne (Returned result)); [exact Hc' |].
            apply length_zero_iff_nil. exact Hn. }
        intros Hcap. specialize (Hlog1 Hcap).
        destruct Hu as (Hc & Hu).
        { rewrite Hcap1, Hlog1. unfold len in *. rewrite length_firstn. lia. }
        split; [rewrite Hc; exact Hcap1 |].
        rewrite Hu, Hcap1, Hlog1, firstn_app_firstn.
        cbn [rev]. rewrite <- app_assoc. reflexivity.
Qed.

End CascadeLogging.

(** X5.  Every physical attempt of a request is reported to the usage
    monitor exactly once: the entries logged, in order, carry the
    request's endpoint and the model of the attempt's tier (the primary
    model on tier -1, the fallback model of the tier otherwise); all are
    failures, except the last one when the request returns. *)
Theorem every_attempt_is_logged_once :
  forall cfg env ep md apiCall createFallbackCall targetElement fuel w,
    let run :=
      Cascade.makeApiRequestWithMultiFallback cfg env ep md apiCall
        createFallbackCall targetElement fuel w in
    exists levels entries,
      calls (trace (snd run)) = calls (trace w) ++ levels
      /\ logged (trace (snd run)) = logged (trace w) ++ entries
      /\ List.length entries = List.length levels
      /\ map model entries = map (Cascade.currentModel cfg md) levels
      /\ Forall (fun e => endpoint e = ep) entries
      /\ map success entries = successFlags (fst run) (List.length levels).
Proof.
  intros cfg env ep md apiCall create targetElement fuel w.
  unfold Cascade.makeApiRequestWithMultiFallback. cbv zeta.
  set (v0 := {| Cascade.retryCount := 0; Cascade.fallbackLevel := -1;
                Cascade.currentApiCall := apiCall |}).
  destruct (loop_logs cfg env ep md create targetElement fuel 0 v0 w)
    as (entries & Hl & Hm & He & Hs & _).
  destruct (loop_outline cfg env ep md create targetElement fuel 0 v0 w)
    as (w' & Hloop & Hcalls & _).
  rewrite Hloop in *. cbn [fst snd] in *.
  exists (snd (fst (outline cfg create fuel 0 v0))), entries.
  split; [exact Hcalls |]. split; [exact Hl |].
  split; [| auto].
  rewrite <- (length_map model entries), Hm. apply length_map.
Qed.

(** X6.  On a monitor whose log is within its capacity, the usage log after
    a request is the entries of its attempts, newest first, in front of
    the old log, cut at the capacity; the capacity is unchanged. *)
Theorem usage_log_after_a_request :
  forall cfg env ep md apiCall createFallbackCall targetElement fuel w,
    len (apiUsageMonitor.usageLog (monitor w))
    <= apiUsageMonitor.maxLogSize (monitor w) ->
    let run :=
      Cascade.makeApiRequestWithMultiFallback cfg env ep md apiCall
        createFallbackCall targetElement fuel w in
    exists entries,
      logged (trace (snd run)) = logged (trace w) ++ entries
      /\ apiUsageMonitor.maxLogSize (monitor (snd run))
         = apiUsageMonitor.maxLogSize (monitor w)
      /\ apiUsageMonitor.usageLog (monitor (snd run))
         = firstn (Z.to_nat (apiUsageMonitor.maxLogSize (monitor w)))
             (rev entries ++ apiUsageMonitor.usageLog (monitor w))
      /\ len (apiUsageMonitor.usageLog (monitor (snd run)))
         <= apiUsageMonitor.maxLogSize (monitor (snd run)).
Proof.
  intros cfg env ep md apiCall create targetElement fuel w Hcap.
  unfold Cascade.makeApiRequestWithMultiFallback. cbv zeta.
  set (v0 := {| Cascade.retryCount := 0; Cascade.fallbackLevel := -1;
                Cascade.currentApiCall := apiCall |}).
  destruct (loop_logs cfg env ep md create targetElement fuel 0 v0 w)
    as (entries & Hl & _ & _ & _ & Hu).
  destruct (Hu Hcap) as (Hc & Hlog).
  exists entries. split; [exact Hl |]. split; [exact Hc |].
  split; [exact Hlog |].
  rewrite Hc, Hlog. unfold len in *. rewrite length_firstn. lia.
Qed.

Section LoggingScenarios.

Lemma usage_log_after_a_request_witness :
  len (apiUsageMonitor.usageLog (monitor initial_world))
  <= apiUsageMonitor.maxLogSize (monitor initial_world)
  /\ (let run :=
        Cascade.makeApiRequestWithMultiFallback API_CONFIG tickingClock
          (str "chat") (str "gpt-4") serverError secondTierAnswers true 20
          initial_world in
      exists entries,
        logged (trace (snd run)) = logged (trace initial_world) ++ entries
        /\ apiUsageMonitor.maxLogSize (monitor (snd run))
           = apiUsageMonitor.maxLogSize (monitor initial_world)
        /\ apiUsageMonitor.usageLog (monitor (snd run))
           = firstn (Z.to_nat (apiUsageMonitor.maxLogSize (monitor initial_world)))
               (rev entries ++ apiUsageMonitor.usageLog (monitor initial_world))
        /\ len (apiUsageMonitor.usageLog (monitor (snd run)))
           <= apiUsageMonitor.maxLogSize (monitor (snd run))).
Proof.
  split; [vm_compute; discriminate |].
  apply (usage_log_after_a_request API_CONFIG tickingClock (str "chat")
           (str "gpt-4") serverError secondTierAnswers true 20%nat initial_world).
  vm_compute; discriminate.
Defined.

End LoggingScenarios.

(** ** The rate window, oldest first *)

Section WindowOrder.

Import apiRequestQueue.

(** A clock that never runs backwards. *)
Definition monotone (env : environment) : Prop :=
  forall a b, (a <= b)%nat -> clock env a <= clock env b.

(** The window holds its timestamps oldest first, none of them later than
    the next reading of the clock. *)
Definition oldestFirst (env : environment) (w : world) : Prop :=
  StronglySorted Z.le (requests w)
  /\ Forall (fun t => t <= clock env (ticks w)) (requests w).

Lemma StronglySorted_filter :
  forall (f : Z -> bool) (l : list Z),
    StronglySorted Z.le l -> StronglySorted Z.le (filter f l).
Proof.
  intros f l H. induction H as [| a l Hl IH Ha]; cbn [filter].
  - constructor.
  - destruct (f a); [| exact IH].
    constructor; [exact IH |].
    apply Forall_forall. intros t Ht. apply filter_In in Ht.
    rewrite Forall_forall in Ha. apply Ha. tauto.
Qed.

Lemma StronglySorted_snoc :
  forall (l : list Z) (x : Z),
    StronglySorted Z.le l -> Forall (fun t => t <= x) l ->
    StronglySorted Z.le (l ++ [x]).
Proof.
  intros l x H. induction H as [| a l Hl IH Ha]; intros Hx; cbn [app].
  - repeat constructor.
  - inversion Hx as [| ? ? Hax Hlx]; subst.
    constructor; [apply IH; exact Hlx |].
    apply Forall_app. split; [exact Ha | repeat constructor; exact Hax].
Qed.

Lemma Forall_filter_keeps :
  forall (P : Z -> Prop) (f : Z -> bool) (l : list Z),
    Forall P l -> Forall P (filter f l).
Proof.
  intros P f l H. apply Forall_forall. intros t Ht.
  apply filter_In in Ht. rewrite Forall_forall in H. apply H. tauto.
Qed.

Lemma Forall_le_trans :
  forall (l : list Z) (x y : Z),
    x <= y -> Forall (fun t => t <= x) l -> Forall (fun t => t <= y) l.
Proof.
  intros l x y Hxy H. eapply Forall_impl; [| exact H].
  cbv beta. intros t Ht. lia.
Qed.

(** The window is oldest first in a world that has the same window and a
    later clock. *)
Lemma oldestFirst_later :
  forall env w w',
    monotone env -> requests w' = requests w -> (ticks w <= ticks w')%nat ->
    oldestFirst env w -> oldestFirst env w'.
Proof.
  intros env w w' Hmono Hrs Htk [Hs Hb]. unfold oldestFirst. rewrite Hrs.
  split; [exact Hs |].
  apply (Forall_le_trans _ (clock env (ticks w))); [apply Hmono; exact Htk | exact Hb].
Qed.

Lemma canMakeRequest_oldestFirst :
  forall cfg env w,
    monotone env -> oldestFirst env w ->
    oldestFirst env (snd (canMakeRequest cfg env w)).
Proof.
  intros cfg env w Hmono [Hs Hb]. rewrite canMakeRequest_eq.
  unfold oldestFirst, retained; cbn [snd requests ticks]. split.
  - apply StronglySorted_filter. exact Hs.
  - apply Forall_filter_keeps.
    apply (Forall_le_trans _ (clock env (ticks w))); [apply Hmono; lia | exact Hb].
Qed.

Lemma addRequest_oldestFirst :
  forall cfg env w,
    monotone env -> oldestFirst env w ->
    oldestFirst env (snd (addRequest cfg env w)).
Proof.
  intros cfg env w Hmono [Hs Hb]. rewrite addRequest_eq.
  unfold oldestFirst, retained; cbn [snd requests ticks]. split.
  - apply StronglySorted_filter. apply StronglySorted_snoc; assumption.
  - apply Forall_filter_keeps. apply Forall_app. split.
    + apply (Forall_le_trans _ (clock env (ticks w)));
        [apply Hmono; lia | exact Hb].
    + repeat constructor. apply Hmono. lia.
Qed.

Lemma getWaitTime_oldestFirst :
  forall cfg env w,
    monotone env -> oldestFirst env w ->
    oldestFirst env (snd (getWaitTime cfg env w)).
Proof.
  intros cfg env w Hmono [Hs Hb]. rewrite getWaitTime_eq. cbv zeta.
  destruct (len (retained cfg (clock env (ticks w)) (requests w))
            <? rateLimitPerMinute cfg);
    unfold oldestFirst, retained; cbn [snd requests ticks]; split.
  - apply StronglySorted_filter. exact Hs.
  - apply Forall_filter_keeps.
    apply (Forall_le_trans _ (clock env (ticks w))); [apply Hmono; lia | exact Hb].
  - do 2 apply StronglySorted_filter. exact Hs.
  - do 2 apply Forall_filter_keeps.
    apply (Forall_le_trans _ (clock env (ticks w))); [apply Hmono; lia | exact Hb].
Qed.

(** [requests[0]], which [getWaitTime] calls the oldest request, is the
    least timestamp of a window that is oldest first. *)
Lemma oldestFirst_head :
  forall env w oldest rest,
    oldestFirst env w -> requests w = oldest :: rest ->
    Forall (fun t => oldest <= t) (requests w).
Proof.
  intros env w oldest rest [Hs _] Hrs. rewrite Hrs in *.
  apply StronglySorted_inv in Hs. destruct Hs as [_ Hle].
  constructor; [lia | exact Hle].
Qed.

End WindowOrder.

Section WindowThroughRequests.

Import Cascade.

Variable cfg : API_CONFIG_t.
Variable env : environment.
Variable ep md : jsstring.
Variable createFallbackCall : option jsstring -> Z -> executable.
Variable targetElement : bool.

Hypothesis clock_monotone : monotone env.

Lemma admission_oldestFirst :
  forall w, oldestFirst env w -> oldestFirst env (snd (admission cfg env w)).
Proof.
  intros w Hw. unfold admission. unfold bind at 1.
  pose proof (canMakeRequest_oldestFirst cfg env w clock_monotone Hw) as H1.
  destruct (apiRequestQueue.canMakeRequest cfg env w) as [ok w1].
  cbn [snd] in H1. unfold bind at 1.
  destruct ok; cbn [negb].
  - unfold ret. apply addRequest_oldestFirst; assumption.
  - unfold bind at 1.
    pose proof (getWaitTime_oldestFirst cfg env w1 clock_monotone H1) as H2.
    destruct (apiRequestQueue.getWaitTime cfg env w1) as [waitTime w2].
    cbn [snd] in H2. unfold bind, emit, wait, emit.
    apply addRequest_oldestFirst; [assumption |].
    apply (oldestFirst_later env w2); [assumption | reflexivity | | exact H2].
    cbn [ticks]. lia.
Qed.

Lemma logApiCall_frame :
  forall success errorCode model w,
    requests (snd (logApiCall env ep model success errorCode w)) = requests w
    /\ (ticks w <= ticks (snd (logApiCall env ep model success errorCode w)))%nat.
Proof.
  intros. unfold logApiCall, bind, Date_now.
  destruct (apiUsageMonitor.logApiCall _ _ _ _ _ _).
  cbn [snd requests ticks]. split; [reflexivity | lia].
Qed.

Lemma onError_frame :
  forall message v w,
    requests (snd (onError cfg env ep md createFallbackCall targetElement
                     message v w)) = requests w
    /\ (ticks w
        <= ticks (snd (onError cfg env ep md createFallbackCall targetElement
                         message v w)))%nat.
Proof.
  intros message v w.
  unfold onError, showFallbackNotification, getRetryDelay, logApiCall, bind,
    emit, wait, emit, Date_now, Math_random, ret.
  cbn [ticks draws requests monitor trace].
  destruct (apiUsageMonitor.logApiCall _ _ _ _ _ _).
  repeat match goal with
         | |- context [if ?b then _ else _] => destruct b
         end;
    cbn [snd requests ticks]; (split; [reflexivity | lia]).
Qed.

Lemma attempt_oldestFirst :
  forall i v w,
    oldestFirst env w ->
    oldestFirst env
      (snd (attempt cfg env ep md createFallbackCall targetElement i v w)).
Proof.
  intros i v w Hw.
  rewrite (attempt_after_admission cfg env ep md createFallbackCall
             targetElement i v w).
  unfold bind at 1.
  pose proof (admission_oldestFirst w Hw) as H1.
  destruct (admission cfg env w) as [[] w1]. cbn [snd] in H1.
  unfold bind at 1. unfold emit at 1.
  set (w2 := {| ticks := ticks w1; draws := draws w1; requests := requests w1;
                monitor := monitor w1;
                trace := trace w1 ++ [Called (fallbackLevel v)] |}).
  assert (H2 : oldestFirst env w2) by exact H1.
  destruct (currentApiCall v i) as [result | message].
  - unfold bind at 1.
    destruct (logApiCall_frame true None
                (currentModel cfg md (fallbackLevel v)) w2) as [Hrs Htk].
    destruct (logApiCall env ep (currentModel cfg md (fallbackLevel v)) true None w2)
      as [[] w3].
    cbn [snd] in *. unfold ret. cbn [snd].
    apply (oldestFirst_later env w2); assumption.
  - destruct (onError_frame message v w2) as [Hrs Htk].
    apply (oldestFirst_later env w2); assumption.
Qed.

Lemma loop_oldestFirst :
  forall fuel i v w,
    oldestFirst env w ->
    oldestFirst env
      (snd (loop cfg env ep md createFallbackCall targetElement fuel i v w)).
Proof.
  induction fuel as [| fuel IH]; intros i v w Hw.
  - exact Hw.
  - rewrite (loop_S cfg env ep md createFallbackCall targetElement).
    pose proof (attempt_oldestFirst i v w Hw) as H1.
    destruct (attempt cfg env ep md createFallbackCall targetElement i v w)
      as [[c | v'] w1]; cbn [snd] in H1.
    + exact H1.
    + apply IH. exact H1.
Qed.

End WindowThroughRequests.

Section WindowFacts.

Import apiRequestQueue.

Lemma filter_all :
  forall (f : Z -> bool) (l : list Z),
    Forall (fun t => f t = true) l -> filter f l = l.
Proof.
  intros f l H. induction H as [| a l Ha _ IH]; cbn [filter].
  - reflexivity.
  - rewrite Ha, IH. reflexivity.
Qed.

Lemma len_filter_le :
  forall (f : Z -> bool) (l : list Z), len (filter f l) <= len l.
Proof.
  intros f l. unfold len. pose proof (filter_length_le f l). lia.
Qed.

End WindowFacts.

(** X7.  Under a clock that never runs backwards, a rate window that holds
    its timestamps oldest first, none of them in the future, is left so by
    [canMakeRequest], [getWaitTime] and [addRequest], and by a whole request
    with all its attempts: [requests[0]] is always the oldest timestamp, as
    [getWaitTime] takes it to be. *)
Theorem rate_window_stays_oldest_first :
  forall cfg env ep md apiCall createFallbackCall targetElement fuel w,
    monotone env ->
    oldestFirst env w ->
    oldestFirst env (snd (apiRequestQueue.canMakeRequest cfg env w))
    /\ oldestFirst env (snd (apiRequestQueue.getWaitTime cfg env w))
    /\ oldestFirst env (snd (apiRequestQueue.addRequest cfg env w))
    /\ oldestFirst env
         (snd (Cascade.makeApiRequestWithMultiFallback cfg env ep md apiCall
                 createFallbackCall targetElement fuel w))
    /\ forall oldest rest,
         requests (snd (Cascade.makeApiRequestWithMultiFallback cfg env ep md
                          apiCall createFallbackCall targetElement fuel w))
         = oldest :: rest ->
         Forall (fun t => oldest <= t) rest.
Proof.
  intros cfg env ep md apiCall create targetElement fuel w Hmono Hw.
  split; [apply canMakeRequest_oldestFirst; assumption |].
  split; [apply getWaitTime_oldestFirst; assumption |].
  split; [apply addRequest_oldestFirst; assumption |].
  assert (H : oldestFirst env
                (snd (Cascade.makeApiRequestWithMultiFallback cfg env ep md
                        apiCall create targetElement fuel w))).
  { unfold Cascade.makeApiRequestWithMultiFallback.
    apply loop_oldestFirst; assumption. }
  split; [exact H |].
  intros oldest rest Hrs.
  pose proof (oldestFirst_head env _ oldest rest H Hrs) as Hall.
  rewrite Hrs in Hall. inversion Hall; assumption.
Qed.

(** X8.  The wait [getWaitTime] advises is never negative, and it is 0
    when [canMakeRequest] would admit the request: both on any window and
    under any clock.  On a window that is oldest first, under a clock that
    never runs backwards and with a reset time that is not negative, it is
    moreover at most [rateLimitResetTime]. *)
Theorem getWaitTime_bounds :
  forall cfg env w,
    0 <= fst (apiRequestQueue.getWaitTime cfg env w)
    /\ (fst (apiRequestQueue.canMakeRequest cfg env w) = true ->
        fst (apiRequestQueue.getWaitTime cfg env w) = 0)
    /\ (monotone env ->
        oldestFirst env w ->
        0 <= rateLimitResetTime cfg ->
        fst (apiRequestQueue.getWaitTime cfg env w) <= rateLimitResetTime cfg).
Proof.
  intros cfg env w.
  rewrite getWaitTime_eq, canMakeRequest_eq. cbv zeta. cbn [fst].
  destruct (len (retained cfg (clock env (ticks w)) (requests w))
            <? rateLimitPerMinute cfg).
  - cbn [fst]. split; [lia |]. split; [reflexivity | intros; assumption].
  - cbn [fst].
    destruct (retained cfg (clock env (S (ticks w)))
                (retained cfg (clock env (ticks w)) (requests w)))
      as [| oldest rest] eqn:Hrs.
    + split; [lia |]. split; [discriminate | intros; assumption].
    + split; [lia |]. split; [discriminate |].
      intros Hmono [_ Hb] Hreset.
      assert (Hin : In oldest (requests w)).
      { assert (H : In oldest (oldest :: rest)) by (left; reflexivity).
        rewrite <- Hrs in H. unfold retained in H.
        apply filter_In in H. destruct H as [H _].
        apply filter_In in H. tauto. }
      rewrite Forall_forall in Hb. specialize (Hb oldest Hin).
      pose proof (Hmono (ticks w) (S (ticks w))). lia.
Qed.

(** X9.  The wait [getWaitTime] advises ends one millisecond early.  On a
    window that is oldest first and still holds [rateLimitPerMinute]
    timestamps or more, a request made when the clock has advanced by no
    more than the advised wait is refused again, the oldest timestamp being
    still retained at that instant; when the window holds exactly
    [rateLimitPerMinute] timestamps, a request made any later is admitted. *)
Theorem advised_wait_is_the_last_refused_instant :
  forall cfg env w,
    StronglySorted Z.le (requests w) ->
    1 <= rateLimitPerMinute cfg ->
    let waitTime := fst (apiRequestQueue.getWaitTime cfg env w) in
    let w1 := snd (apiRequestQueue.getWaitTime cfg env w) in
    rateLimitPerMinute cfg <= len (requests w1) ->
    (clock env (ticks w1) <= lastNow env w1 + waitTime ->
     fst (apiRequestQueue.canMakeRequest cfg env w1) = false)
    /\ (len (requests w1) = rateLimitPerMinute cfg ->
        lastNow env w1 + waitTime < clock env (ticks w1) ->
        fst (apiRequestQueue.canMakeRequest cfg env w1) = true).
Proof.
  intros cfg env w Hs Hlimit. cbv zeta.
  rewrite getWaitTime_eq. cbv zeta.
  destruct (Z.ltb_spec (len (retained cfg (clock env (ticks w)) (requests w)))
              (rateLimitPerMinute cfg)) as [Hlt | Hge];
    cbn [fst snd requests ticks]; [intros Hfull; lia |].
  unfold lastNow. cbn [ticks Nat.pred].
  set (now := clock env (S (ticks w))).
  set (rs1 := retained cfg (clock env (ticks w)) (requests w)).
  assert (Hs2 : StronglySorted Z.le (retained cfg now rs1)).
  { unfold rs1, retained. do 2 apply StronglySorted_filter. exact Hs. }
  destruct (retained cfg now rs1) as [| oldest rest] eqn:Hrs.
  - intros Hfull. unfold len in Hfull; cbn in Hfull. lia.
  - intros Hfull.
    assert (Hold : now - rateLimitResetTime cfg <= oldest).
    { assert (H : In oldest (retained cfg now rs1))
        by (rewrite Hrs; left; reflexivity).
      unfold retained in H. apply filter_In in H. destruct H as [_ H].
      apply Z.leb_le in H. exact H. }
    replace (Z.max 0 (oldest + rateLimitResetTime cfg - now))
      with (oldest + rateLimitResetTime cfg - now) by lia.
    rewrite canMakeRequest_eq. cbn [fst requests ticks].
    set (now' := clock env (S (S (ticks w)))).
    apply StronglySorted_inv in Hs2. destruct Hs2 as [_ Hle].
    split.
    + intros Hearly. apply Z.ltb_ge.
      unfold retained at 1. rewrite filter_all; [exact Hfull |].
      constructor.
      * apply Z.leb_le. lia.
      * eapply Forall_impl; [| exact Hle]. cbv beta. intros t Ht.
        apply Z.leb_le. lia.
    + intros Hexact Hlate. apply Z.ltb_lt.
      unfold retained at 1. cbn [filter].
      replace (now' - rateLimitResetTime cfg <=? oldest) with false
        by (symmetry; apply Z.leb_gt; lia).
      pose proof (len_filter_le
                    (fun timestamp => now' - rateLimitResetTime cfg <=? timestamp)
                    rest) as Hlen.
      rewrite len_cons in Hexact. lia.
Qed.

Section WindowScenarios.

Lemma tickingClock_monotone : monotone tickingClock.
Proof. intros a b H. cbn. lia. Qed.

(** The window after twenty requests at the readings 0 .. 19. *)
Definition fullWindow : world := afterRequests API_CONFIG tickingClock 20 initial_world.

Lemma fullWindow_requests :
  requests fullWindow
  = [0; 1; 2; 3; 4; 5; 6; 7; 8; 9; 10; 11; 12; 13; 14; 15; 16; 17; 18; 19].
Proof. vm_compute. reflexivity. Qed.

Lemma fullWindow_sorted : StronglySorted Z.le (requests fullWindow).
Proof. rewrite fullWindow_requests. repeat constructor; lia. Qed.

Lemma fullWindow_oldestFirst : oldestFirst tickingClock fullWindow.
Proof.
  split; [exact fullWindow_sorted |].
  rewrite fullWindow_requests. change (ticks fullWindow) with 20%nat.
  repeat constructor; cbn; lia.
Qed.

Lemma rate_window_stays_oldest_first_witness :
  monotone tickingClock
  /\ oldestFirst tickingClock fullWindow
  /\ oldestFirst tickingClock
       (snd (Cascade.makeApiRequestWithMultiFallback API_CONFIG tickingClock
               (str "chat") (str "gpt-4") serverError secondTierAnswers true 20
               fullWindow)).
Proof.
  split; [exact tickingClock_monotone |].
  split; [exact fullWindow_oldestFirst |].
  apply (rate_window_stays_oldest_first API_CONFIG tickingClock (str "chat")
           (str "gpt-4") serverError secondTierAnswers true 20%nat fullWindow).
  - exact tickingClock_monotone.
  - exact fullWindow_oldestFirst.
Defined.

Lemma getWaitTime_bounds_witness :
  0 <= rateLimitResetTime API_CONFIG
  /\ fst (apiRequestQueue.getWaitTime API_CONFIG tickingClock fullWindow) = 59979
  /\ 0 <= fst (apiRequestQueue.getWaitTime API_CONFIG tickingClock fullWindow)
     <= rateLimitResetTime API_CONFIG
  /\ fst (apiRequestQueue.canMakeRequest API_CONFIG tickingClock initial_world)
     = true
  /\ fst (apiRequestQueue.getWaitTime API_CONFIG tickingClock initial_world) = 0.
Proof.
  split; [vm_compute; discriminate |].
  split; [vm_compute; reflexivity |].
  destruct (getWaitTime_bounds API_CONFIG tickingClock fullWindow)
    as (Hlow & _ & Hhigh).
  destruct (getWaitTime_bounds API_CONFIG tickingClock initial_world)
    as (_ & Hzero & _).
  split; [split; [exact Hlow |] |].
  - apply Hhigh.
    + exact tickingClock_monotone.
    + exact fullWindow_oldestFirst.
    + vm_compute; discriminate.
  - split; [vm_compute; reflexivity |].
    apply Hzero. vm_compute; reflexivity.
Defined.

Lemma advised_wait_is_the_last_refused_instant_witness :
  1 <= rateLimitPerMinute API_CONFIG
  /\ rateLimitPerMinute API_CONFIG
     <= len (requests (snd (apiRequestQueue.getWaitTime API_CONFIG
                              tickingClock fullWindow)))
  /\ (clock tickingClock
        (ticks (snd (apiRequestQueue.getWaitTime API_CONFIG tickingClock
                       fullWindow)))
      <= lastNow tickingClock
           (snd (apiRequestQueue.getWaitTime API_CONFIG tickingClock fullWindow))
         + fst (apiRequestQueue.getWaitTime API_CONFIG tickingClock fullWindow) ->
      fst (apiRequestQueue.canMakeRequest API_CONFIG tickingClock
             (snd (apiRequestQueue.getWaitTime API_CONFIG tickingClock
                     fullWindow)))
      = false).
Proof.
  split; [vm_compute; discriminate |].
  split; [vm_compute; discriminate |].
  apply (advised_wait_is_the_last_refused_instant API_CONFIG tickingClock
           fullWindow).
  - exact fullWindow_sorted.
  - vm_compute; discriminate.
  - vm_compute; discriminate.
Defined.

End WindowScenarios.

(** ** The backoff delay *)

Section Backoff.

(** The base of the delay on exact integers:
    [min(maxRetryDelay, retryDelay * 2 ^ retryCount)]. *)
Definition backoffBase (cfg : API_CONFIG_t) (retryCount : Z) : Z :=
  Z.min (maxRetryDelay cfg) (retryDelay cfg * 2 ^ retryCount).

(** The base as the script computes it, in binary64. *)
Definition computedBase (cfg : API_CONFIG_t) (retryCount : Z) : float :=
  JsNumber.Math_min
    (JsNumber.ofZ (maxRetryDelay cfg))
    (PrimFloat.mul (JsNumber.ofZ (retryDelay cfg))
                   (JsNumber.Math_pow2 retryCount)).

(** The largest number below 1, which [Math.random()] may draw. *)
Definition largestDraw : float := PrimFloat.sub 1%float (Z.ldexp 1%float (-53)).

Lemma getRetryDelay_eq :
  forall cfg env retryCount w,
    getRetryDelay cfg env retryCount w
    = (PrimFloat.add (computedBase cfg retryCount)
         (PrimFloat.mul (random env (draws w)) 1000%float),
       {| ticks := ticks w; draws := S (draws w); requests := requests w;
          monitor := monitor w; trace := trace w |}).
Proof. reflexivity. Qed.

Lemma backoffBase_monotone :
  forall cfg a b,
    0 <= retryDelay cfg -> 0 <= a <= b ->
    backoffBase cfg a <= backoffBase cfg b.
Proof.
  intros cfg a b Hd Hab. unfold backoffBase.
  assert (2 ^ a <= 2 ^ b) by (apply Z.pow_le_mono_r; lia).
  assert (retryDelay cfg * 2 ^ a <= retryDelay cfg * 2 ^ b)
    by (apply Z.mul_le_mono_nonneg_l; lia).
  lia.
Qed.

(** [Math.pow(2, n)] is infinite from [2 ^ 1024] on: the exponent is
    clipped before the number is built. *)
Lemma Math_pow2_clipped :
  forall n, 2098 <= n -> JsNumber.Math_pow2 n = JsNumber.Math_pow2 2098.
Proof.
  intros n Hn. unfold JsNumber.Math_pow2, Z.ldexp. cbv zeta.
  change (emax - emin) with 2098. change (emin - emax - 1) with (-2099).
  f_equal. f_equal. f_equal. lia.
Qed.

(** From the retry count 4 on, the product [1000 * 2 ^ n] computed in
    binary64 is a number, and not below 10000. *)
Definition productTable : bool :=
  forallb
    (fun n =>
       let product :=
         PrimFloat.mul 1000%float (JsNumber.Math_pow2 (Z.of_nat n)) in
       negb (PrimFloat.is_nan product)
       && negb (PrimFloat.ltb product 10000%float))
    (seq 4 2095).

Lemma productTable_holds : productTable = true.
Proof. vm_compute. reflexivity. Qed.

Lemma Math_min_capped :
  forall product,
    PrimFloat.is_nan product = false ->
    PrimFloat.ltb product 10000%float = false ->
    JsNumber.Math_min 10000%float product = 10000%float.
Proof.
  intros product Hnan Hlt. unfold JsNumber.Math_min.
  change (PrimFloat.is_nan 10000) with false. rewrite Hnan. cbn [orb]. cbv zeta.
  change (PrimFloat.ltb 10000 infinity) with true. cbn [orb].
  rewrite Hlt. cbn [orb].
  change (JsNumber.isPositiveZero 10000) with false.
  rewrite andb_false_r. reflexivity.
Qed.

(** On the default configuration the base computed in binary64 is the
    exact one, at every retry count. *)
Lemma default_base_exact :
  forall n,
    0 <= n ->
    computedBase API_CONFIG n = JsNumber.ofZ (backoffBase API_CONFIG n)
    /\ (n <= 3 -> backoffBase API_CONFIG n = 1000 * 2 ^ n)
    /\ (4 <= n -> backoffBase API_CONFIG n = 10000).
Proof.
  intros n Hn.
  assert (Hsmall : n = 0 \/ n = 1 \/ n = 2 \/ n = 3 \/ 4 <= n) by lia.
  destruct Hsmall as [-> | [-> | [-> | [-> | Hbig]]]];
    try (split; [vm_compute; reflexivity | split; [reflexivity | lia]]).
  assert (Hcap : backoffBase API_CONFIG n = 10000).
  { unfold backoffBase. cbn [maxRetryDelay retryDelay API_CONFIG].
    assert (2 ^ 4 <= 2 ^ n) by (apply Z.pow_le_mono_r; lia).
    change (2 ^ 4) with 16 in *. lia. }
  split; [| split; [lia | intros _; exact Hcap]].
  rewrite Hcap. change (JsNumber.ofZ 10000) with 10000%float.
  unfold computedBase.
  change (JsNumber.ofZ (maxRetryDelay API_CONFIG)) with 10000%float.
  change (JsNumber.ofZ (retryDelay API_CONFIG)) with 1000%float.
  set (m := Z.min n 2098).
  assert (Hpow : JsNumber.Math_pow2 n = JsNumber.Math_pow2 (Z.of_nat (Z.to_nat m))).
  { rewrite Z2Nat.id by (unfold m; lia). unfold m.
    destruct (Z.le_gt_cases 2098 n) as [Hge | Hlt].
    - rewrite Z.min_r by lia. apply Math_pow2_clipped. exact Hge.
    - rewrite Z.min_l by lia. reflexivity. }
  rewrite Hpow.
  pose proof productTable_holds as H. unfold productTable in H.
  rewrite forallb_forall in H.
  specialize (H (Z.to_nat m) ltac:(apply in_seq; unfold m; lia)).
  cbv zeta in H. apply andb_prop in H. destruct H as [Hnan Hlt].
  apply negb_true_iff in Hnan. apply negb_true_iff in Hlt.
  apply Math_min_capped; assumption.
Qed.

End Backoff.



(** ** From the error a stream throws to the status the cascade logs *)

Section StatusRoundTrip.

Import Cascade.

Local Abbreviation digit := (fun acc c => 10 * acc + (Z.of_N c - 48)).

Lemma str_String :
  forall c s, str (String c s) = N_of_ascii c :: str s.
Proof. reflexivity. Qed.

(** Reading the decimal digits of [d] after those of [a], most significant
    first, gives the number whose digits, least significant first, are the
    digits of [d] reversed onto [a]. *)
Lemma parse_uint :
  forall d a,
    fold_left digit (str (NilEmpty.string_of_uint d))
      (Z.of_N (DecimalPos.Unsigned.of_lu a))
    = Z.of_N (DecimalPos.Unsigned.of_lu (Decimal.revapp d a)).
Proof.
  induction d as [| d IH | d IH | d IH | d IH | d IH | d IH | d IH | d IH
                  | d IH | d IH]; intros a;
    cbn [NilEmpty.string_of_uint Decimal.revapp];
    [reflexivity
    | rewrite str_String, <- IH; cbn [fold_left]; f_equal;
      match goal with
      | |- context [N_of_ascii ?c] =>
          let v := eval vm_compute in (N_of_ascii c) in
          change (N_of_ascii c) with v
      end;
      cbn [DecimalPos.Unsigned.of_lu]; lia ..].
Qed.

Lemma digits_uint :
  forall d, Forall (fun c => isDigit c = true) (str (NilEmpty.string_of_uint d)).
Proof.
  induction d; cbn [NilEmpty.string_of_uint];
    [constructor | rewrite str_String; constructor; [reflexivity | assumption] ..].
Qed.

Lemma nonempty_uint :
  forall d, d <> Decimal.Nil -> str (NilEmpty.string_of_uint d) <> [].
Proof. intros d Hd. destruct d; [contradiction | discriminate ..]. Qed.

Lemma ofZ_uint :
  forall n, 0 <= n ->
    exists d, d <> Decimal.Nil
              /\ JsString.ofZ n = str (NilEmpty.string_of_uint d)
              /\ Z.of_N (Pos.of_uint d) = n.
Proof.
  intros n Hn. destruct n as [| p | p]; [| | lia].
  - exists (Decimal.D0 Decimal.Nil). repeat split. discriminate.
  - exists (Pos.to_uint p).
    pose proof (DecimalPos.Unsigned.to_uint_nonnil p) as Hd.
    split; [exact Hd |]. split.
    + unfold JsString.ofZ. cbn [Z.to_int NilZero.string_of_int].
      destruct (Pos.to_uint p); [contradiction | reflexivity ..].
    + rewrite DecimalPos.Unsigned.of_to. reflexivity.
Qed.

(** [parseInt(String(n))] is [n], and [String(n)] is a non-empty run of
    digits, for an integer [n] that is not negative. *)
Lemma parseDigits_ofZ :
  forall n, 0 <= n ->
    parseDigits (JsString.ofZ n) = n
    /\ Forall (fun c => isDigit c = true) (JsString.ofZ n)
    /\ JsString.ofZ n <> [].
Proof.
  intros n Hn. destruct (ofZ_uint n Hn) as (d & Hd & -> & Hval).
  split; [| split; [apply digits_uint | apply nonempty_uint; exact Hd]].
  unfold parseDigits.
  change 0 with (Z.of_N (DecimalPos.Unsigned.of_lu Decimal.Nil)).
  rewrite parse_uint. fold (Decimal.rev d).
  rewrite <- DecimalPos.Unsigned.of_uint_alt. exact Hval.
Qed.

Lemma span_app :
  forall (p : code_unit -> bool) (a rest : jsstring),
    Forall (fun c => p c = true) a ->
    match rest with [] => True | c :: _ => p c = false end ->
    span p (a ++ rest) = (a, rest).
Proof.
  intros p a rest Ha Hrest. induction Ha as [| c a Hc _ IH]; cbn [app span].
  - destruct rest as [| c rest]; [reflexivity |]. cbn [span]. rewrite Hrest. reflexivity.
  - rewrite Hc, IH. reflexivity.
Qed.

Lemma statusMatch_here :
  forall message digits,
    startsWith (str "API request failed: ") message = true ->
    fst (span isDigit (skipn 20 message)) = digits ->
    digits <> [] ->
    statusMatch message = Some digits.
Proof.
  intros message digits Hstart Hspan Hne.
  destruct message as [| c message]; [discriminate |].
  cbn [statusMatch]. rewrite Hstart, Hspan.
  destruct digits; [contradiction | reflexivity].
Qed.

Lemma includes_app_r :
  forall x p q, includes x q = true -> includes x (p ++ q) = true.
Proof.
  induction p as [| c p IH]; intros q H; [exact H |].
  cbn [app includes]. rewrite (IH q H). apply orb_true_r.
Qed.

(** The message [streamingApiCall] throws for a response that is not ok,
    when the detail of its error body is [detail]. *)
Definition failureMessage (r : response) (detail : jsstring) : jsstring :=
  str "API request failed: " ++ JsString.ofZ (status r)
  ++ str " " ++ statusText r ++ str " - " ++ detail.

Lemma failureMessage_parsed :
  forall r detail,
    0 <= status r ->
    statusMatch (failureMessage r detail) = Some (JsString.ofZ (status r))
    /\ loggedCode (Rejected (failureMessage r detail)) = Some (status r)
    /\ stripStatus (failureMessage r detail)
       = trimStart (statusText r ++ str " - " ++ detail)
    /\ (status r = 429 -> rateLimited (failureMessage r detail) = true).
Proof.
  intros r detail Hstatus.
  destruct (parseDigits_ofZ (status r) Hstatus) as (Hparse & Hdigits & Hne).
  set (tail := statusText r ++ str " - " ++ detail).
  assert (Hmsg : failureMessage r detail
                 = str "API request failed: "
                   ++ JsString.ofZ (status r) ++ 32%N :: tail) by reflexivity.
  assert (Hmatch : statusMatch (failureMessage r detail)
                   = Some (JsString.ofZ (status r))).
  { apply statusMatch_here.
    - rewrite Hmsg. apply startsWith_app.
    - rewrite Hmsg.
      change (skipn 20 (str "API request failed: "
                        ++ JsString.ofZ (status r) ++ 32%N :: tail))
        with (JsString.ofZ (status r) ++ 32%N :: tail).
      rewrite span_app; [reflexivity | exact Hdigits | reflexivity].
    - exact Hne. }
  split; [exact Hmatch |]. split; [| split].
  - cbn [loggedCode]. rewrite Hmatch. cbn [option_map]. rewrite Hparse.
    rewrite Hmsg. reflexivity.
  - unfold stripStatus.
    replace (startsWith (str "API request failed:") (failureMessage r detail))
      with true.
    + rewrite Hmsg.
      change (skipn 19 (str "API request failed: "
                        ++ JsString.ofZ (status r) ++ 32%N :: tail))
        with (32%N :: JsString.ofZ (status r) ++ 32%N :: tail).
      change (trimStart (32%N :: JsString.ofZ (status r) ++ 32%N :: tail))
        with (trimStart (JsString.ofZ (status r) ++ 32%N :: tail)).
      assert (Hts : trimStart (JsString.ofZ (status r) ++ 32%N :: tail)
                    = JsString.ofZ (status r) ++ 32%N :: tail).
      { destruct (JsString.ofZ (status r)) as [| c ds]; [contradiction |].
        inversion Hdigits as [| ? ? Hc _]; subst.
        cbn [app trimStart].
        replace (isWhiteSpace c) with false; [reflexivity |].
        unfold isDigit in Hc. apply andb_prop in Hc. destruct Hc as [H1 H2].
        apply N.leb_le in H1. apply N.leb_le in H2.
        unfold isWhiteSpace. symmetry.
        repeat (apply orb_false_intro);
          try (apply N.eqb_neq; lia);
          apply andb_false_iff;
          ((left; apply N.leb_gt; lia) || (right; apply N.leb_gt; lia)). }
      rewrite Hts, span_app; [| exact Hdigits | reflexivity].
      destruct (JsString.ofZ (status r)); [contradiction |].
      reflexivity.
    + symmetry. rewrite Hmsg.
      change (str "API request failed: ")
        with (str "API request failed:" ++ [32%N]).
      rewrite <- app_assoc. apply startsWith_app.
  - intros H429. unfold rateLimited.
    replace (JsString.truthy (failureMessage r detail)) with true by reflexivity.
    cbn [andb]. rewrite Hmsg, H429.
    apply includes_app_r.
    change (JsString.ofZ 429) with (str "429").
    apply (includes_infix [] (str "429") (32%N :: tail)).
Qed.

End StatusRoundTrip.

(** X11.  A response that is not ok ends the streaming call with an error
    and leaves the content accumulated so far, and what was printed, as
    they were.  The detail of the error is [error.message] of the parsed
    error body when that is a string that is not empty, and 'Unknown
    error' when the body cannot be read or is not JSON, or when its
    [error.message] is not truthy.  With a detail, the error thrown is
    'API request failed: <status> <statusText> - <detail>' and carries the
    status so that the cascade reads it back: the usage monitor logs the
    response's status as the error code, the [errorMessage] the cascade's
    catch block computes is the status text and the detail without the
    prefix and the status, and a status 429 is taken for a rate limit.
    When the error body parses to [null], reading [errorData.error] throws
    a [TypeError] instead, and so does a message with no string form: the
    error thrown is then the engine's, and the script puts no status in
    it. *)
Theorem failed_response_status_round_trip :
  forall (number : Type) (Number_truthy : number -> bool)
         (Number_toString : number -> jsstring)
         (JSON_parse : jsstring -> option (Json.value number))
         (targetElement : bool)
         (TypeError_message : typeError -> jsstring) r chunks failure st,
    ok r = false ->
    0 <= status r ->
    let errorData := Stream.errorDataOf JSON_parse r in
    let errorDetail := Stream.errorDetail Number_truthy Number_toString in
    let run :=
      Stream.streamingApiCall Number_truthy Number_toString JSON_parse
        targetElement TypeError_message (Responded r chunks failure) st in
    Stream.final run = st
    /\ (forall detail,
          errorDetail errorData = inr detail ->
          Stream.result run = Rejected (failureMessage r detail)
          /\ loggedCode (Stream.result run) = Some (status r)
          /\ JsString.truthy (failureMessage r detail) = true
          /\ Cascade.stripStatus (failureMessage r detail)
             = trimStart (statusText r ++ str " - " ++ detail)
          /\ (status r = 429 -> rateLimited (failureMessage r detail) = true))
    /\ (forall e,
          errorDetail errorData = inl e ->
          Stream.result run = Rejected (TypeError_message e))
    /\ ((errorBody r = None
         \/ (exists text, errorBody r = Some text /\ JSON_parse text = None)) ->
        errorDetail errorData = inr (str "Unknown error"))
    /\ (forall error message,
          Json.member (str "error") errorData = Some error ->
          Json.optionalMember (str "message") error = Json.String message ->
          message <> [] ->
          errorDetail errorData = inr message)
    /\ (forall error,
          Json.member (str "error") errorData = Some error ->
          Json.truthy Number_truthy (Json.optionalMember (str "message") error)
          = false ->
          errorDetail errorData = inr (str "Unknown error"))
    /\ (errorData = Json.Null ->
        Stream.result run
        = Rejected (TypeError_message (CannotReadProperty (str "error")))).
Proof.
  intros number NT NS JP te tm r chunks failure st Hok Hstatus. cbv zeta.
  unfold Stream.streamingApiCall. rewrite Hok. cbn [negb Stream.result Stream.final].
  split; [reflexivity |]. split; [| split; [| split; [| split; [| split]]]].
  - intros detail ->. fold (failureMessage r detail).
    destruct (failureMessage_parsed r detail Hstatus)
      as (_ & Hcode & Hstrip & Hrate).
    repeat split; auto.
  - intros e ->. reflexivity.
  - unfold Stream.errorDataOf. intros [-> | (text & -> & ->)]; reflexivity.
  - intros error message Herror Hmessage Hne. unfold Stream.errorDetail.
    rewrite Herror. cbv zeta. rewrite Hmessage. cbn [Json.truthy Json.toString].
    destruct message; [contradiction | reflexivity].
  - intros error Herror Hfalsy. unfold Stream.errorDetail.
    rewrite Herror. cbv zeta. rewrite Hfalsy. reflexivity.
  - intros ->. reflexivity.
Qed.

Section StatusScenarios.

Definition serviceUnavailable : response :=
  {| ok := false; status := 503; statusText := str "Service Unavailable";
     errorBody := Some (wire "{'error':{'message':'try later'}}") |}.

Lemma failed_response_status_round_trip_witness :
  let run :=
    Stream.streamingApiCall JsonText.Number_truthy JsonText.Number_toString
      JsonText.JSON_parse true V8_TypeError_message (Responded serviceUnavailable [] None)
      {| Stream.streamedContent := []; Stream.printed := [] |} in
  Stream.result run
  = Rejected (str "API request failed: 503 Service Unavailable - try later")
  /\ loggedCode (Stream.result run) = Some 503
  /\ Cascade.stripStatus (failureMessage serviceUnavailable (str "try later"))
     = str "Service Unavailable - try later".
Proof.
  cbv zeta.
  destruct (failed_response_status_round_trip JsonText.numeral
              JsonText.Number_truthy JsonText.Number_toString
              JsonText.JSON_parse true V8_TypeError_message
              serviceUnavailable [] None
              {| Stream.streamedContent := []; Stream.printed := [] |})
    as (_ & Hdetail & _).
  - reflexivity.
  - vm_compute; discriminate.
  - destruct (Hdetail (str "try later")) as (Hresult & Hcode & _ & Hstrip & _).
    + vm_compute; reflexivity.
    + split; [exact Hresult |]. split; [exact Hcode |]. exact Hstrip.
Defined.

(** An error body that is [null]: the status does not reach the message. *)
Example null_error_body_throws_TypeError :
  Stream.result
    (Stream.streamingApiCall JsonText.Number_truthy JsonText.Number_toString
       JsonText.JSON_parse true V8_TypeError_message
       (Responded {| ok := false; status := 503;
                     statusText := str "Service Unavailable";
                     errorBody := Some (str "null") |} [] None)
       {| Stream.streamedContent := []; Stream.printed := [] |})
  = Rejected (str "Cannot read properties of null (reading 'error')").
Proof. vm_compute. reflexivity. Qed.

End StatusScenarios.

(** ** The stream decoder: what accumulates and what is shown *)

(** The contents written to the target element, in order. *)
Definition rendered (es : list event) : list jsstring :=
  flat_map (fun e => match e with Rendered c => [c] | _ => [] end) es.

Definition isPrefixOf (a b : jsstring) : Prop := exists more, b = a ++ more.

Lemma rendered_app : forall a b, rendered (a ++ b) = rendered a ++ rendered b.
Proof. intros; unfold rendered; apply flat_map_app. Qed.

Lemma isPrefixOf_refl : forall a, isPrefixOf a a.
Proof. intros a. exists []. symmetry. apply app_nil_r. Qed.

Lemma isPrefixOf_trans :
  forall a b c, isPrefixOf a b -> isPrefixOf b c -> isPrefixOf a c.
Proof.
  intros a b c [m ->] [m' ->]. exists (m ++ m'). symmetry. apply app_assoc.
Qed.

Lemma isPrefixOf_app : forall a m, isPrefixOf a (a ++ m).
Proof. intros a m. exists m. reflexivity. Qed.

(** A chain of prefixes whose last link is replaced by an extension. *)
Lemma chain_extend :
  forall l a b,
    StronglySorted isPrefixOf (l ++ [a]) -> isPrefixOf a b ->
    StronglySorted isPrefixOf (l ++ [b]).
Proof.
  induction l as [| x l IH]; intros a b Hs Hab; cbn [app] in *.
  - repeat constructor.
  - apply StronglySorted_inv in Hs. destruct Hs as [Hs Hx].
    constructor; [apply (IH a b); assumption |].
    apply Forall_app in Hx. destruct Hx as [Hl Ha].
    apply Forall_app. split; [exact Hl |].
    inversion Ha; subst. repeat constructor.
    apply (isPrefixOf_trans x a b); assumption.
Qed.

Lemma chain_repeat_last :
  forall l a,
    StronglySorted isPrefixOf (l ++ [a]) ->
    StronglySorted isPrefixOf ((l ++ [a]) ++ [a]).
Proof.
  induction l as [| x l IH]; intros a Hs; cbn [app] in *.
  - repeat constructor. apply isPrefixOf_refl.
  - apply StronglySorted_inv in Hs. destruct Hs as [Hs Hx].
    constructor; [apply IH; exact Hs |].
    apply Forall_app. split; [exact Hx |].
    apply Forall_app in Hx. destruct Hx as [_ Ha]. exact Ha.
Qed.

Section StreamGrowth.

Import Stream.

Variable number : Type.
Variable Number_truthy : number -> bool.
Variable Number_toString : number -> jsstring.
Variable JSON_parse : jsstring -> option (Json.value number).
Variable targetElement : bool.
Variable TypeError_message : typeError -> jsstring.

Local Abbreviation processLine :=
  (Stream.processLine Number_truthy Number_toString JSON_parse targetElement).
Local Abbreviation processChunk :=
  (Stream.processChunk Number_truthy Number_toString JSON_parse targetElement).
Local Abbreviation readLoop :=
  (Stream.readLoop Number_truthy Number_toString JSON_parse targetElement).
Local Abbreviation streamingApiCall :=
  (Stream.streamingApiCall Number_truthy Number_toString JSON_parse targetElement
     TypeError_message).
Local Abbreviation transcript :=
  (Stream.transcript Number_truthy Number_toString JSON_parse targetElement).
(** How one step of the decoder moves the state: it prints [ev] and
    appends [text]; the element, when there is one, is rewritten with the
    new content whenever the content changes. *)
Definition step (st st' : state) : Prop :=
  exists ev text,
    printed st' = printed st ++ ev
    /\ streamedContent st' = streamedContent st ++ text
    /\ ((rendered ev = [] /\ (targetElement = true -> text = []))
        \/ (targetElement = true /\ rendered ev = [streamedContent st'])).

(** What holds of a state reached from [st0] by such steps. *)
Definition reached (st0 st : state) : Prop :=
  exists new,
    printed st = printed st0 ++ new
    /\ StronglySorted isPrefixOf (rendered new ++ [streamedContent st])
    /\ isPrefixOf (streamedContent st0) (streamedContent st)
    /\ Forall (isPrefixOf (streamedContent st0)) (rendered new)
    /\ (targetElement = true ->
        last (rendered new) (streamedContent st0) = streamedContent st)
    /\ (targetElement = false -> rendered new = []).

Lemma reached_refl : forall st, reached st st.
Proof.
  intros st. exists []. cbn [rendered flat_map app].
  split; [symmetry; apply app_nil_r |].
  split; [repeat constructor |].
  split; [apply isPrefixOf_refl |].
  split; [constructor |]. split; reflexivity.
Qed.

Lemma reached_step :
  forall st0 st st', reached st0 st -> step st st' -> reached st0 st'.
Proof.
  intros st0 st st' (new & Hp & Hchain & Hpre & Hall & Hlast & Hnone)
    (ev & text & Hp' & Hc' & Hcase).
  exists (new ++ ev). rewrite rendered_app.
  split; [rewrite Hp', Hp; symmetry; apply app_assoc |].
  assert (Hgrow : isPrefixOf (streamedContent st) (streamedContent st'))
    by (rewrite Hc'; apply isPrefixOf_app).
  assert (Hpre' : isPrefixOf (streamedContent st0) (streamedContent st'))
    by (apply (isPrefixOf_trans _ (streamedContent st)); assumption).
  destruct Hcase as [[Hquiet Htext] | [Hte Hshow]].
  - rewrite Hquiet, app_nil_r.
    split; [apply (chain_extend _ (streamedContent st)); assumption |].
    split; [exact Hpre' |]. split; [exact Hall |].
    split; [| exact Hnone].
    intros Hte. rewrite (Hlast Hte), Hc', (Htext Hte). symmetry. apply app_nil_r.
  - rewrite Hshow.
    split.
    { apply chain_repeat_last.
      apply (chain_extend _ (streamedContent st)); assumption. }
    split; [exact Hpre' |].
    split; [apply Forall_app; split; [exact Hall | repeat constructor; exact Hpre'] |].
    split; [intros _; apply last_last |].
    intros Hfalse. rewrite Hte in Hfalse. discriminate.
Qed.

Lemma say_step : forall e st,
    match e with Rendered _ => False | _ => True end -> step st (say e st).
Proof.
  intros e st He. exists [e], []. cbn [say printed streamedContent].
  split; [reflexivity |]. split; [symmetry; apply app_nil_r |].
  left. split; [destruct e; try reflexivity; contradiction | reflexivity].
Qed.

Lemma step_refl : forall st, step st st.
Proof.
  intros st. exists [], []. rewrite !app_nil_r.
  split; [reflexivity |]. split; [reflexivity |]. left. split; reflexivity.
Qed.

Lemma processLine_step :
  forall chunkCounter st line, step st (processLine chunkCounter st line).
Proof.
  intros chunkCounter st line. unfold Stream.processLine.
  destruct (includes (str "[DONE]") line); [apply step_refl |].
  match goal with
  | |- context [negb ?b] => destruct b
  end; cbn [negb]; [| apply step_refl].
  match goal with
  | |- context [warn ?j st] =>
      assert (Hwarn : step st (warn j st))
        by (apply (say_step (InvalidJSON j) st); exact I)
  end.
  destruct (JSON_parse _) as [json |]; [| exact Hwarn].
  destruct (Json.contentDelta Number_truthy json) as [contentDelta |] eqn:Hdelta;
    [| exact Hwarn].
  destruct (Json.toString Number_toString contentDelta) as [text |] eqn:Htext;
    [| exact Hwarn].
  assert (Hfalsy : Json.truthy Number_truthy contentDelta = false -> text = []).
  { intros Hfalse. unfold Json.contentDelta in Hdelta.
    destruct (Json.member (str "choices") json) as [choices |]; [| discriminate].
    destruct (Json.member (str "0") choices) as [first |]; [| discriminate].
    match type of Hdelta with
    | Some (if ?b then ?c else _) = _ => destruct b eqn:Hb
    end; inversion Hdelta; subst.
    - rewrite Hb in Hfalse. discriminate.
    - cbn in Htext. inversion Htext. reflexivity. }
  eexists _, text. cbn [printed streamedContent].
  split; [reflexivity |]. split; [reflexivity |].
  destruct targetElement; cbn [andb].
  - destruct (Json.truthy Number_truthy contentDelta).
    + right. split; [reflexivity |].
      destruct (chunkCounter mod 10 =? 0); reflexivity.
    + left. split; [reflexivity |]. intros _. apply Hfalsy. reflexivity.
  - left. split; [reflexivity | discriminate].
Qed.

Lemma lines_reached :
  forall chunkCounter lines st0 st,
    reached st0 st ->
    reached st0 (fold_left (processLine chunkCounter) lines st).
Proof.
  intros chunkCounter lines. induction lines as [| line lines IH];
    intros st0 st H; cbn [fold_left]; [exact H |].
  apply IH. apply (reached_step st0 st); [exact H | apply processLine_step].
Qed.

Lemma readLoop_reached :
  forall chunks chunkCounter st0 st,
    reached st0 st ->
    reached st0 (snd (readLoop chunkCounter st chunks)).
Proof.
  induction chunks as [| chunk chunks IH]; intros chunkCounter st0 st H;
    cbn [Stream.readLoop]; [exact H |].
  apply IH. unfold Stream.processChunk. apply lines_reached.
  apply (reached_step st0 st); [exact H |].
  apply (say_step (ChunkProcessed _ _) st). exact I.
Qed.

Lemma streamingApiCall_reached :
  forall x st, reached st (final (streamingApiCall x st)).
Proof.
  intros x st. unfold Stream.streamingApiCall.
  destruct x as [message | r chunks failure]; [apply reached_refl |].
  destruct (ok r); cbn [negb]; [| apply reached_refl].
  pose proof (readLoop_reached chunks 0 st (say StreamEstablished st)) as H.
  destruct (Stream.readLoop _ _ _ _ 0 (say StreamEstablished st) chunks)
    as [chunkCounter st'].
  cbn [snd] in H.
  assert (H' : reached st st').
  { apply H. apply (reached_step st st); [apply reached_refl |].
    apply (say_step StreamEstablished st). exact I. }
  destruct failure as [message |]; cbn [final]; [exact H' |].
  apply (reached_step st st'); [exact H' |].
  apply (say_step (StreamCompleted chunkCounter) st'). exact I.
Qed.

Lemma streamingApiCall_content :
  forall r chunks failure st,
    ok r = true ->
    streamedContent (final (streamingApiCall (Responded r chunks failure) st))
    = streamedContent st ++ transcript chunks.
Proof.
  intros r chunks failure st Hok. unfold Stream.streamingApiCall.
  rewrite Hok. cbn [negb].
  pose proof (readLoop_content number Number_truthy Number_toString JSON_parse
                targetElement chunks 0 (say StreamEstablished st)) as H.
  destruct (Stream.readLoop _ _ _ _ 0 (say StreamEstablished st) chunks)
    as [chunkCounter st'].
  cbn [snd say streamedContent] in H.
  rewrite (transcript_lines number Number_truthy Number_toString JSON_parse
             targetElement chunks).
  rewrite <- (lines_append number Number_truthy Number_toString JSON_parse
               targetElement), <- H.
  destruct failure; reflexivity.
Qed.

End StreamGrowth.

(** X12.  [streamedContent] is never reset between the runs of the
    streaming call: a run on a response that is ok appends the transcript
    of its chunks to what the earlier runs accumulated, whether the body
    then fails or not.  So, when a stream breaks after some chunks and the
    retry runs clean, the call returns the content of the broken run
    followed by the transcript of the retry. *)
Theorem retried_stream_appends_to_broken_run :
  forall (number : Type) (Number_truthy : number -> bool)
         (Number_toString : number -> jsstring)
         (JSON_parse : jsstring -> option (Json.value number))
         (targetElement : bool)
         (TypeError_message : typeError -> jsstring) r1 chunks1 message r2 chunks2 st,
    ok r1 = true ->
    ok r2 = true ->
    let transcript :=
      Stream.transcript Number_truthy Number_toString JSON_parse targetElement in
    let run1 :=
      Stream.streamingApiCall Number_truthy Number_toString JSON_parse
        targetElement TypeError_message (Responded r1 chunks1 (Some message)) st in
    let run2 :=
      Stream.streamingApiCall Number_truthy Number_toString JSON_parse
        targetElement TypeError_message (Responded r2 chunks2 None) (Stream.final run1) in
    Stream.result run1 = Rejected message
    /\ Stream.streamedContent (Stream.final run1)
       = Stream.streamedContent st ++ transcript chunks1
    /\ Stream.result run2
       = Resolved (Stream.streamedContent st
                   ++ transcript chunks1 ++ transcript chunks2).
Proof.
  intros number NT NS JP te tm r1 chunks1 message r2 chunks2 st Hok1 Hok2.
  cbv zeta.
  pose proof (streamingApiCall_content number NT NS JP te tm r1 chunks1
                (Some message) st Hok1) as H1.
  split.
  { unfold Stream.streamingApiCall. rewrite Hok1. cbn [negb].
    destruct (Stream.readLoop _ _ _ _ _ _ _). reflexivity. }
  split; [exact H1 |].
  rewrite (streamingApiCall_resolves number NT NS JP te tm r2 chunks2 _ Hok2).
  rewrite (streamingApiCall_content number NT NS JP te tm r2 chunks2 None _ Hok2).
  rewrite H1, <- app_assoc. reflexivity.
Qed.

(** X13.  What the streaming call writes to the target element only grows:
    the contents rendered during a run, in order, each extend the content
    the run started from, each is a prefix of the next and of the content
    the run ends with.  With a target element the last content rendered is
    the content the run ends with (the starting content when nothing was
    rendered); without one, nothing is rendered.  What was printed before
    the run is kept. *)
Theorem rendered_content_only_grows :
  forall (number : Type) (Number_truthy : number -> bool)
         (Number_toString : number -> jsstring)
         (JSON_parse : jsstring -> option (Json.value number))
         (targetElement : bool)
         (TypeError_message : typeError -> jsstring) x st,
    let final :=
      Stream.final
        (Stream.streamingApiCall Number_truthy Number_toString JSON_parse
           targetElement TypeError_message x st) in
    exists new,
      Stream.printed final = Stream.printed st ++ new
      /\ StronglySorted isPrefixOf (rendered new ++ [Stream.streamedContent final])
      /\ Forall (isPrefixOf (Stream.streamedContent st)) (rendered new)
      /\ (targetElement = true ->
          last (rendered new) (Stream.streamedContent st)
          = Stream.streamedContent final)
      /\ (targetElement = false -> rendered new = []).
Proof.
  intros number NT NS JP te tm x st. cbv zeta.
  destruct (streamingApiCall_reached number NT NS JP te tm x st)
    as (new & Hp & Hchain & _ & Hall & Hlast & Hnone).
  exists new. auto.
Qed.

Section StreamGrowthScenarios.

Definition okResponse : response :=
  {| ok := true; status := 200; statusText := str "OK"; errorBody := None |}.

Lemma retried_stream_appends_to_broken_run_witness :
  let run1 :=
    Stream.streamingApiCall JsonText.Number_truthy JsonText.Number_toString
      JsonText.JSON_parse true V8_TypeError_message
      (Responded okResponse [helFrame] (Some (str "network error")))
      {| Stream.streamedContent := []; Stream.printed := [] |} in
  let run2 :=
    Stream.streamingApiCall JsonText.Number_truthy JsonText.Number_toString
      JsonText.JSON_parse true V8_TypeError_message
      (Responded okResponse [helFrame; loFrame; doneFrame] None)
      (Stream.final run1) in
  decode [helFrame] = str "Hel"
  /\ decode [helFrame; loFrame; doneFrame] = str "Hello"
  /\ Stream.result run2 = Resolved ([] ++ decode [helFrame]
                                    ++ decode [helFrame; loFrame; doneFrame])
  /\ Stream.result run2 = Resolved (str "HelHello").
Proof.
  cbv zeta.
  split; [vm_compute; reflexivity |].
  split; [vm_compute; reflexivity |].
  split; [| vm_compute; reflexivity].
  destruct (retried_stream_appends_to_broken_run JsonText.numeral
              JsonText.Number_truthy JsonText.Number_toString
              JsonText.JSON_parse true V8_TypeError_message okResponse [helFrame]
              (str "network error") okResponse [helFrame; loFrame; doneFrame]
              {| Stream.streamedContent := []; Stream.printed := [] |})
    as (_ & _ & H).
  - reflexivity.
  - reflexivity.
  - exact H.
Defined.

End StreamGrowthScenarios.

(** ** The fallback stream of [createFallbackCall] *)

Section FallbackStreamFacts.

Variable number : Type.
Variable Number_truthy : number -> bool.
Variable Number_toString : number -> jsstring.
Variable JSON_parse : jsstring -> option (Json.value number).
Variable targetElement : bool.

Local Abbreviation primaryStep :=
  (contentStep number Number_truthy Number_toString JSON_parse targetElement).

Lemma fallback_processLine_content :
  forall st line,
    FallbackStream.fallbackContent
      (FallbackStream.processLine Number_truthy Number_toString JSON_parse
         targetElement st line)
    = primaryStep (FallbackStream.fallbackContent st) line.
Proof.
  intros st line.
  unfold contentStep, FallbackStream.processLine, Stream.processLine.
  repeat match goal with
         | |- context [if ?b then _ else _] => destruct b
         | |- context [match ?x with Some _ => _ | None => _ end] => destruct x
         end;
    reflexivity.
Qed.

Lemma fallback_lines_content :
  forall lines st,
    FallbackStream.fallbackContent
      (fold_left
         (FallbackStream.processLine Number_truthy Number_toString JSON_parse
            targetElement) lines st)
    = fold_left primaryStep lines (FallbackStream.fallbackContent st).
Proof.
  induction lines as [| line lines IH]; intros st; cbn [fold_left];
    [reflexivity |].
  rewrite IH, fallback_processLine_content. reflexivity.
Qed.

Lemma fallback_readLoop_content :
  forall chunks chunkCounter st,
    FallbackStream.fallbackContent
      (snd (FallbackStream.readLoop Number_truthy Number_toString JSON_parse
              targetElement chunkCounter st chunks))
    = fold_left primaryStep (flat_map Stream.linesOf chunks)
        (FallbackStream.fallbackContent st).
Proof.
  induction chunks as [| chunk chunks IH]; intros chunkCounter st;
    cbn [FallbackStream.readLoop flat_map]; [reflexivity |].
  rewrite IH, fold_left_app. unfold FallbackStream.processChunk.
  rewrite fallback_lines_content. reflexivity.
Qed.

End FallbackStreamFacts.

(** X14.  The decoder of the fallback stream, written out a second time in
    [createFallbackCall], decodes as the primary one does: on a response
    that is ok and a body read to its end, it returns the transcript of the
    chunks, which is what the primary streaming call returns when it starts
    from an empty content.  Its content starts empty at every call; and
    when the response is not ok, the fetch fails or the body breaks, it
    returns nothing and the call goes on to the non-streaming request. *)
Theorem fallback_stream_decodes_like_primary :
  forall (number : Type) (Number_truthy : number -> bool)
         (Number_toString : number -> jsstring)
         (JSON_parse : jsstring -> option (Json.value number))
         (targetElement : bool)
         (TypeError_message : typeError -> jsstring) x,
    let tryStream :=
      FallbackStream.tryStream Number_truthy Number_toString JSON_parse
        targetElement in
    let primary :=
      Stream.streamingApiCall Number_truthy Number_toString JSON_parse
        targetElement TypeError_message x {| Stream.streamedContent := []; Stream.printed := [] |} in
    match x with
    | Responded r chunks None =>
        if ok r
        then fst (tryStream x)
             = Some (Stream.transcript Number_truthy Number_toString JSON_parse
                       targetElement chunks)
             /\ Stream.result primary
                = Resolved (Stream.transcript Number_truthy Number_toString
                              JSON_parse targetElement chunks)
        else fst (tryStream x) = None
    | _ => fst (tryStream x) = None
    end.
Proof.
  intros number NT NS JP te tm x. cbv zeta.
  destruct x as [message | r chunks [message |]]; [reflexivity | |].
  - unfold FallbackStream.tryStream.
    destruct (ok r); cbn [negb]; [| reflexivity].
    destruct (FallbackStream.readLoop _ _ _ _ _ _ _). reflexivity.
  - destruct (ok r) eqn:Hok; [| unfold FallbackStream.tryStream; rewrite Hok; reflexivity].
    split.
    + unfold FallbackStream.tryStream. rewrite Hok. cbn [negb].
      pose proof (fallback_readLoop_content number NT NS JP te chunks 0
                    {| FallbackStream.fallbackContent := [];
                       FallbackStream.printed := [FallbackStream.Established] |})
        as H.
      destruct (FallbackStream.readLoop _ _ _ _ _ _ _) as [chunkCounter st].
      cbn [fst snd FallbackStream.fallbackContent] in *.
      rewrite H, (transcript_lines number NT NS JP te chunks). reflexivity.
    + rewrite (streamingApiCall_resolves number NT NS JP te tm r chunks _ Hok).
      rewrite (streamingApiCall_content number NT NS JP te tm r chunks None _ Hok).
      reflexivity.
Qed.

(** ** The conversation history *)

Section HistoryFacts.

Import History.

(** One exchange: what the user said and what the assistant answered. *)
Definition exchangeOf (t : jsstring * jsstring) : list message :=
  [{| role := user; content := fst t |};
   {| role := assistant; content := snd t |}].

(** The last [n] elements of a list. *)
Definition lastN {A : Type} (n : nat) (l : list A) : list A :=
  skipn (List.length l - n) l.

(** One call of [updateConversationHistory]. *)
Definition update : Type := (jsstring * jsstring * bool)%type.

Definition applyUpdate (history : list message) (u : update) : list message :=
  match u with
  | (userMessage, aiResponse, isInitialDiagnosis) =>
      updateConversationHistory userMessage aiResponse isInitialDiagnosis history
  end.

(** The exchanges since the last initial diagnosis, that one included. *)
Definition addExchange (turns : list (jsstring * jsstring)) (u : update)
  : list (jsstring * jsstring) :=
  match u with
  | (userMessage, aiResponse, isInitialDiagnosis) =>
      if isInitialDiagnosis then [(userMessage, aiResponse)]
      else turns ++ [(userMessage, aiResponse)]
  end.

Definition sinceInitial (updates : list update) : list (jsstring * jsstring) :=
  fold_left addExchange updates [].

Lemma flat_map_exchangeOf_length :
  forall turns,
    List.length (flat_map exchangeOf turns) = (2 * List.length turns)%nat.
Proof.
  induction turns as [| t turns IH]; cbn [flat_map exchangeOf app List.length];
    [reflexivity | rewrite IH; lia].
Qed.

Lemma skipn_exchanges :
  forall k turns,
    skipn (2 * k) (flat_map exchangeOf turns)
    = flat_map exchangeOf (skipn k turns).
Proof.
  induction k as [| k IH]; intros turns; [reflexivity |].
  destruct turns as [| t turns]; [reflexivity |].
  replace (2 * S k)%nat with (S (S (2 * k))) by lia.
  cbn [flat_map exchangeOf app skipn]. apply IH.
Qed.

Lemma lastN_snoc :
  forall (A : Type) (n : nat) (l : list A) (x : A),
    lastN n (lastN n l ++ [x]) = lastN n (l ++ [x]).
Proof.
  intros A n l x. unfold lastN.
  rewrite !length_app, length_skipn. cbn [List.length].
  rewrite !skipn_app, skipn_skipn, length_skipn.
  f_equal; [f_equal; lia | f_equal; lia].
Qed.

Lemma update_appends_exchange :
  forall turns userMessage aiResponse,
    updateConversationHistory userMessage aiResponse false
      (flat_map exchangeOf turns)
    = flat_map exchangeOf
        (lastN 5 (turns ++ [(userMessage, aiResponse)])).
Proof.
  intros turns u a. unfold updateConversationHistory.
  set (all := turns ++ [(u, a)]).
  assert (Hpushed :
    (flat_map exchangeOf turns ++ [{| role := user; content := u |}])
    ++ [{| role := assistant; content := a |}]
    = flat_map exchangeOf all).
  { unfold all. rewrite flat_map_app, <- app_assoc. reflexivity. }
  rewrite Hpushed. unfold len. rewrite flat_map_exchangeOf_length.
  unfold MAX_HISTORY_TURNS, lastN.
  destruct (Z.ltb_spec (5 * 2) (Z.of_nat (2 * List.length all))) as [Hlong | Hshort].
  - replace (Z.to_nat (Z.of_nat (2 * List.length all) - 5 * 2))
      with (2 * (List.length all - 5))%nat by lia.
    apply skipn_exchanges.
  - replace (List.length all - 5)%nat with 0%nat by lia. reflexivity.
Qed.

Lemma updates_from :
  forall updates turns,
    fold_left applyUpdate updates (flat_map exchangeOf (lastN 5 turns))
    = flat_map exchangeOf (lastN 5 (fold_left addExchange updates turns)).
Proof.
  induction updates as [| [[u a] initial] updates IH]; intros turns;
    cbn [fold_left]; [reflexivity |].
  destruct initial.
  - rewrite <- IH. reflexivity.
  - rewrite <- IH. cbn [applyUpdate].
    rewrite update_appends_exchange, lastN_snoc. reflexivity.
Qed.

Lemma lastN_length :
  forall (A : Type) (n : nat) (l : list A), (List.length (lastN n l) <= n)%nat.
Proof. intros A n l. unfold lastN. rewrite length_skipn. lia. Qed.

End HistoryFacts.

(** X15.  Whatever sequence of updates is applied to the empty history,
    the history is the exchanges since the last initial diagnosis (that
    one included), the last [MAX_HISTORY_TURNS] = 5 of them at most, each
    as the user's message followed by the assistant's answer: it never
    holds more than 10 messages, it holds them in pairs, and the oldest
    exchanges are the ones dropped. *)
Theorem history_is_the_last_five_exchanges :
  forall updates,
    let history := fold_left applyUpdate updates [] in
    history = flat_map exchangeOf (lastN 5 (sinceInitial updates))
    /\ len history <= 2 * History.MAX_HISTORY_TURNS
    /\ len history = 2 * len (lastN 5 (sinceInitial updates)).
Proof.
  intros updates. cbv zeta.
  pose proof (updates_from updates []) as H.
  change (flat_map exchangeOf (lastN 5 [])) with (@nil History.message) in H.
  fold (sinceInitial updates) in H. rewrite H.
  split; [reflexivity |].
  unfold len. rewrite flat_map_exchangeOf_length.
  pose proof (lastN_length _ 5 (sinceInitial updates)).
  unfold History.MAX_HISTORY_TURNS. lia.
Qed.

(** X16.  An initial diagnosis erases the history, whatever it held, and
    leaves exactly its own exchange; any other update on a history of
    whole exchanges leaves the new exchange as the last two messages, and
    drops an old message only when more than 10 would be held. *)
Theorem history_update_cases :
  forall userMessage aiResponse history,
    History.updateConversationHistory userMessage aiResponse true history
    = exchangeOf (userMessage, aiResponse)
    /\ (exists kept,
          History.updateConversationHistory userMessage aiResponse false history
          = kept ++ exchangeOf (userMessage, aiResponse)
          /\ (len history <= 8 -> kept = history)
          /\ (8 <= len history -> len kept = 8)
          /\ exists dropped, history = dropped ++ kept).
Proof.
  intros u a history. split; [reflexivity |].
  unfold History.updateConversationHistory, History.MAX_HISTORY_TURNS.
  rewrite <- app_assoc. cbn [app].
  change [{| History.role := History.user; History.content := u |};
          {| History.role := History.assistant; History.content := a |}]
    with (exchangeOf (u, a)).
  rewrite len_app. change (len (exchangeOf (u, a))) with 2.
  destruct (Z.ltb_spec (5 * 2) (len history + 2)) as [Hlong | Hshort].
  - exists (skipn (Z.to_nat (len history + 2 - 5 * 2)) history).
    split.
    { rewrite skipn_app.
      replace (Z.to_nat (len history + 2 - 5 * 2) - List.length history)%nat
        with 0%nat by (unfold len in *; lia).
      reflexivity. }
    split; [intros; lia |]. split.
    + intros _. unfold len in *. rewrite length_skipn. lia.
    + exists (firstn (Z.to_nat (len history + 2 - 5 * 2)) history).
      symmetry. apply firstn_skipn.
  - exists history. split; [reflexivity |]. split; [reflexivity |].
    split; [intros; lia |]. exists []. reflexivity.
Qed.

(** ** The WAV encoder *)

Section WavFacts.

Import Wav.

Local Open Scope wav_scope.

(** A store into the zeros that follow what has been written. *)
Lemma store_zeros :
  forall byteOffset bs done m rest,
    len done = byteOffset ->
    (List.length bs <= m)%nat ->
    store byteOffset bs (done ++ repeat 0 m ++ rest)
    = Some ((done ++ bs) ++ repeat 0 (m - List.length bs) ++ rest).
Proof.
  intros off bs done m rest Hoff Hfit. unfold store.
  replace ((0 <=? off) && (off + len bs <=? len (done ++ repeat 0 m ++ rest)))
    with true.
  - f_equal. rewrite <- Hoff. unfold len. rewrite Nat2Z.id.
    rewrite firstn_app, firstn_all, Nat.sub_diag. cbn [firstn].
    rewrite app_nil_r, <- app_assoc. f_equal. f_equal.
    rewrite <- Nat2Z.inj_add, Nat2Z.id.
    rewrite skipn_app, skipn_all2 by lia. cbn [app].
    replace (List.length done + List.length bs - List.length done)%nat
      with (List.length bs) by lia.
    rewrite skipn_app, repeat_length.
    replace (List.length bs - m)%nat with 0%nat by lia. cbn [skipn].
    f_equal.
    replace m with (List.length bs + (m - List.length bs))%nat at 1 by lia.
    rewrite repeat_app, skipn_app, repeat_length, Nat.sub_diag.
    rewrite skipn_all2 by (rewrite repeat_length; lia). reflexivity.
  - symmetry. apply andb_true_intro. split; apply Z.leb_le.
    + rewrite <- Hoff. apply len_nonneg.
    + rewrite <- Hoff, !len_app. unfold len. rewrite repeat_length. lia.
Qed.

Definition charBytes (string : jsstring) : bytes :=
  map (fun c => Z.of_N c mod 256) string.

Lemma writeString_zeros :
  forall string byteOffset done m rest,
    len done = byteOffset ->
    (List.length string <= m)%nat ->
    writeString byteOffset string (done ++ repeat 0 m ++ rest)
    = Some ((done ++ charBytes string)
            ++ repeat 0 (m - List.length string) ++ rest).
Proof.
  induction string as [| c string IH]; intros off done m rest Hoff Hfit;
    cbn [writeString charBytes map List.length] in *.
  - rewrite app_nil_r, Nat.sub_0_r. reflexivity.
  - unfold setUint8. rewrite (store_zeros off _ done m rest Hoff);
      [| cbn; lia].
    cbn [andThen].
    rewrite (IH (off + 1) _ (m - 1)%nat rest).
    + rewrite <- !app_assoc. cbn [littleEndian map seq List.length app].
      replace (Z.of_N c / 256 ^ Z.of_nat 0) with (Z.of_N c)
        by (cbn; rewrite Z.div_1_r; reflexivity).
      replace (m - 1 - List.length string)%nat
        with (m - S (List.length string))%nat by lia.
      reflexivity.
    + rewrite len_app, Hoff. reflexivity.
    + cbn [littleEndian map seq List.length]. lia.
Qed.

(** The sixteen bits a sample is stored as. *)
Definition pcm16 (sample : float) : bytes :=
  littleEndian 2 (truncate (intSample sample)).

(** The samples of frame [i], channel after channel, from channel [from]. *)
Definition frameBytes (channels : list (list float)) (i : nat) : bytes :=
  flat_map (fun data => pcm16 (sampleOf data i)) channels.

Lemma littleEndian_length :
  forall size value, List.length (littleEndian size value) = size.
Proof. intros. unfold littleEndian. rewrite length_map, length_seq. reflexivity. Qed.

Lemma frameBytes_length :
  forall channels i,
    List.length (frameBytes channels i) = (2 * List.length channels)%nat.
Proof.
  intros channels i. unfold frameBytes.
  induction channels as [| data channels IH]; cbn [flat_map List.length];
    [reflexivity |].
  rewrite length_app, IH. unfold pcm16. rewrite littleEndian_length. lia.
Qed.

Lemma writeSample_none :
  forall audioBuffer i channels,
    fold_left (writeSample audioBuffer i) channels None = None.
Proof. induction channels; [reflexivity | exact IHchannels]. Qed.

(** The inner loop over the channels [from .. from + count - 1]. *)
Lemma channels_written :
  forall audioBuffer i count from done m rest,
    (from + count <= List.length (channelData audioBuffer))%nat ->
    (2 * count <= m)%nat ->
    fold_left (writeSample audioBuffer i) (seq from count)
      (Some (len done, done ++ repeat 0 m ++ rest))
    = Some (len done + 2 * Z.of_nat count,
            (done ++ frameBytes (firstn count (skipn from (channelData audioBuffer))) i)
            ++ repeat 0 (m - 2 * count) ++ rest).
Proof.
  intros audioBuffer i count.
  induction count as [| count IH]; intros from done m rest Hin Hfit.
  - cbn [seq fold_left firstn frameBytes flat_map].
    rewrite app_nil_r, Nat.sub_0_r, Z.add_0_r. reflexivity.
  - cbn [seq fold_left]. unfold writeSample at 2. cbn [andThen fst snd].
    destruct (nth_error (channelData audioBuffer) from) as [data |] eqn:Hdata;
      [| apply nth_error_None in Hdata; lia].
    cbn [andThen]. unfold setInt16.
    rewrite (store_zeros (len done) _ done m rest eq_refl)
      by (rewrite littleEndian_length; lia).
    cbn [andThen]. rewrite littleEndian_length.
    replace (len done + 2)
      with (len (done ++ littleEndian 2 (truncate (intSample (sampleOf data i)))))
      by (rewrite len_app; unfold len; rewrite littleEndian_length; reflexivity).
    rewrite (IH (S from)) by lia.
    f_equal. f_equal.
    + rewrite len_app. unfold len at 2. rewrite littleEndian_length. lia.
    + rewrite <- !app_assoc. f_equal.
      replace (m - 2 - 2 * count)%nat with (m - 2 * S count)%nat by lia.
      rewrite app_assoc. f_equal.
      assert (Hskip : skipn from (channelData audioBuffer)
                      = data :: skipn (S from) (channelData audioBuffer)).
      { clear - Hdata. revert from Hdata.
        induction (channelData audioBuffer) as [| d l IHl]; intros from Hdata.
        - destruct from; discriminate.
        - destruct from as [| from]; cbn in *.
          + inversion Hdata. reflexivity.
          + apply IHl. exact Hdata. }
      rewrite Hskip. cbn [firstn frameBytes flat_map]. reflexivity.
Qed.

(** The samples of the frames [from .. from + count - 1]. *)
Definition dataBytes (channels : list (list float)) (from count : nat) : bytes :=
  flat_map (frameBytes channels) (seq from count).

Lemma dataBytes_length :
  forall channels count from,
    List.length (dataBytes channels from count)
    = (count * (2 * List.length channels))%nat.
Proof.
  intros channels count. unfold dataBytes.
  induction count as [| count IH]; intros from; cbn [seq flat_map List.length];
    [reflexivity |].
  rewrite length_app, frameBytes_length, IH. lia.
Qed.

Lemma frames_written :
  forall audioBuffer count from done m rest,
    (count * (2 * List.length (channelData audioBuffer)) <= m)%nat ->
    fold_left (writeFrame audioBuffer) (seq from count)
      (Some (len done, done ++ repeat 0 m ++ rest))
    = Some (len done
            + Z.of_nat (count * (2 * List.length (channelData audioBuffer))),
            (done ++ dataBytes (channelData audioBuffer) from count)
            ++ repeat 0 (m - count * (2 * List.length (channelData audioBuffer)))
            ++ rest).
Proof.
  intros audioBuffer count.
  set (n := List.length (channelData audioBuffer)).
  induction count as [| count IH]; intros from done m rest Hfit.
  - cbn [seq fold_left dataBytes flat_map Nat.mul].
    rewrite app_nil_r, Nat.sub_0_r, Z.add_0_r. reflexivity.
  - cbn [seq fold_left]. unfold writeFrame at 2.
    replace (Z.to_nat (numberOfChannels audioBuffer)) with n
      by (unfold numberOfChannels, len; rewrite Nat2Z.id; reflexivity).
    rewrite (channels_written audioBuffer from n 0 done m rest) by (fold n; lia).
    cbn [skipn].
    change (firstn n (channelData audioBuffer))
      with (firstn (List.length (channelData audioBuffer)) (channelData audioBuffer)).
    rewrite firstn_all.
    replace (len done + 2 * Z.of_nat n)
      with (len (done ++ frameBytes (channelData audioBuffer) from))
      by (rewrite len_app; unfold len; rewrite frameBytes_length; fold n; lia).
    rewrite (IH (S from)) by lia.
    f_equal. f_equal.
    + rewrite len_app. unfold len. rewrite frameBytes_length. fold n. lia.
    + rewrite <- !app_assoc. f_equal. cbn [dataBytes seq flat_map].
      rewrite <- app_assoc. f_equal. f_equal. f_equal. f_equal. lia.
Qed.

(** The forty-four bytes of the header. *)
Definition header (audioBuffer : AudioBuffer) : bytes :=
  let numChannels := numberOfChannels audioBuffer in
  let dataSize := Wav.length audioBuffer * numChannels * 2 in
  charBytes (str "RIFF") ++ littleEndian 4 (36 + dataSize)
  ++ charBytes (str "WAVE")
  ++ charBytes (str "fmt ") ++ littleEndian 4 16
  ++ littleEndian 2 1 ++ littleEndian 2 numChannels
  ++ littleEndian 4 (sampleRate audioBuffer)
  ++ littleEndian 4 (sampleRate audioBuffer * numChannels * 2)
  ++ littleEndian 2 (numChannels * 2) ++ littleEndian 2 16
  ++ charBytes (str "data") ++ littleEndian 4 dataSize.

Lemma header_length :
  forall audioBuffer, List.length (header audioBuffer) = 44%nat.
Proof. reflexivity. Qed.

Ltac header_step :=
  first
    [ rewrite writeString_zeros by (reflexivity || (cbn; lia))
    | unfold setUint32 at 1;
      rewrite store_zeros by (reflexivity || (cbn; lia))
    | unfold setUint16 at 1;
      rewrite store_zeros by (reflexivity || (cbn; lia)) ];
  cbn [andThen].

Lemma audioBufferToWav_layout :
  forall audioBuffer,
    0 <= Wav.length audioBuffer ->
    audioBufferToWav audioBuffer
    = Some (header audioBuffer
            ++ dataBytes (channelData audioBuffer) 0
                 (Z.to_nat (Wav.length audioBuffer))).
Proof.
  intros audioBuffer Hlen. unfold audioBufferToWav. cbv zeta.
  set (numChannels := numberOfChannels audioBuffer).
  set (dataSize := Wav.length audioBuffer * numChannels * 2).
  assert (Hn : 0 <= numChannels) by apply len_nonneg.
  assert (Hsize : 0 <= dataSize) by (unfold dataSize; nia).
  unfold ArrayBuffer.
  replace (44 + dataSize <? 0) with false by (symmetry; apply Z.ltb_ge; lia).
  cbn [andThen].
  replace (Z.to_nat (44 + dataSize)) with (44 + Z.to_nat dataSize)%nat by lia.
  rewrite repeat_app.
  change (repeat 0 44 ++ repeat 0 (Z.to_nat dataSize))
    with ([] ++ repeat 0 44 ++ repeat 0 (Z.to_nat dataSize)).
  change (16 / 8) with 2.
  do 13 header_step.
  match goal with
  | |- context [fold_left (writeFrame audioBuffer) _
                  (Some (_, ?done ++ _ ++ ?zeros))] =>
      match goal with
      | |- context [fold_left (writeFrame audioBuffer) _ ?init] =>
          replace init with (Some (len done, done ++ zeros ++ []))
            by (rewrite app_nil_r; reflexivity)
      end;
      rewrite (frames_written audioBuffer (Z.to_nat (Wav.length audioBuffer))
                 0 done (Z.to_nat dataSize) [])
  end.
  - cbn [andThen snd].
    replace (Z.to_nat dataSize
             - Z.to_nat (Wav.length audioBuffer)
               * (2 * List.length (channelData audioBuffer)))%nat
      with 0%nat
      by (unfold dataSize, numChannels, numberOfChannels, len; nia).
    cbn [repeat]. rewrite !app_nil_r. reflexivity.
  - unfold dataSize, numChannels, numberOfChannels, len. nia.
Qed.

End WavFacts.

Section WavReading.

Import Wav.

Definition isByte (b : Z) : Prop := 0 <= b < 256.

(** What a reader of the file takes for the unsigned little-endian integer
    of [size] bytes at [byteOffset]. *)
Definition getUint (size byteOffset : nat) (bs : bytes) : Z :=
  fold_right (fun b acc => b + 256 * acc) 0 (firstn size (skipn byteOffset bs)).

(** The [size] characters at [byteOffset]. *)
Definition getChars (size byteOffset : nat) (bs : bytes) : bytes :=
  firstn size (skipn byteOffset bs).

Lemma littleEndian_bytes :
  forall size value, Forall isByte (littleEndian size value).
Proof.
  intros size value. unfold littleEndian. apply Forall_forall.
  intros b Hb. apply in_map_iff in Hb. destruct Hb as (k & <- & _).
  unfold isByte. apply Z.mod_pos_bound. lia.
Qed.

Lemma charBytes_bytes : forall string, Forall isByte (charBytes string).
Proof.
  intros string. unfold charBytes. apply Forall_forall.
  intros b Hb. apply in_map_iff in Hb. destruct Hb as (c & <- & _).
  unfold isByte. apply Z.mod_pos_bound. lia.
Qed.

Lemma header_bytes : forall audioBuffer, Forall isByte (header audioBuffer).
Proof.
  intros audioBuffer. unfold header. cbv zeta.
  repeat (apply Forall_app; split);
    (apply littleEndian_bytes || apply charBytes_bytes).
Qed.

Lemma dataBytes_bytes :
  forall channels from count, Forall isByte (dataBytes channels from count).
Proof.
  intros channels from count. unfold dataBytes.
  apply Forall_flat_map. apply Forall_forall. intros i _.
  unfold frameBytes. apply Forall_flat_map. apply Forall_forall. intros data _.
  apply littleEndian_bytes.
Qed.

Lemma uint16_value :
  forall value,
    0 <= value < 2 ^ 16 ->
    fold_right (fun b acc => b + 256 * acc) 0 (littleEndian 2 value) = value.
Proof.
  intros value Hv. unfold littleEndian. cbn [map seq fold_right].
  change (256 ^ Z.of_nat 0) with 1. change (256 ^ Z.of_nat 1) with 256.
  rewrite Z.div_1_r.
  assert (H : value mod (256 * 256) = value) by (apply Z.mod_small; lia).
  rewrite (Z.rem_mul_r value 256 256) in H by lia. lia.
Qed.

Lemma uint32_value :
  forall value,
    0 <= value < 2 ^ 32 ->
    fold_right (fun b acc => b + 256 * acc) 0 (littleEndian 4 value) = value.
Proof.
  intros value Hv. unfold littleEndian. cbn [map seq fold_right].
  change (256 ^ Z.of_nat 0) with 1. change (256 ^ Z.of_nat 1) with 256.
  change (256 ^ Z.of_nat 2) with (256 * 256).
  change (256 ^ Z.of_nat 3) with (256 * 256 * 256).
  rewrite Z.div_1_r.
  assert (H : value mod (256 * (256 * (256 * 256))) = value)
    by (apply Z.mod_small; lia).
  rewrite (Z.rem_mul_r value 256 (256 * (256 * 256))) in H by lia.
  rewrite (Z.rem_mul_r (value / 256) 256 (256 * 256)) in H by lia.
  rewrite (Z.rem_mul_r (value / 256 / 256) 256 256) in H by lia.
  rewrite !Z.div_div in H by lia.
  replace (256 * 256 * 256) with (256 * (256 * 256)) by lia.
  replace (256 * 256 * 256) with (256 * (256 * 256)) in H by lia.
  lia.
Qed.

End WavReading.

Lemma wav_layout_sizes :
  forall audioBuffer,
    0 <= Wav.length audioBuffer ->
    exists wav,
      Wav.audioBufferToWav audioBuffer = Some wav
      /\ wav = header audioBuffer
               ++ dataBytes (Wav.channelData audioBuffer) 0
                    (Z.to_nat (Wav.length audioBuffer))
      /\ len wav
         = 44 + Wav.length audioBuffer * Wav.numberOfChannels audioBuffer * 2.
Proof.
  intros audioBuffer Hlen.
  eexists. split; [apply audioBufferToWav_layout; exact Hlen |].
  split; [reflexivity |].
  rewrite len_app. unfold len at 1 2.
  rewrite header_length, dataBytes_length.
  unfold Wav.numberOfChannels, len. nia.
Qed.

(** X17.  For an [AudioBuffer] whose [length] is not negative,
    [audioBufferToWav] throws no [RangeError]: every store falls inside the
    buffer.  The file it returns is the 44-byte header followed by the
    samples, frame after frame and, within a frame, channel after channel,
    each as the two little-endian bytes of its clamped sample scaled by
    32767 and truncated; it holds [44 + 2 * length * numberOfChannels]
    bytes, and no zero of the initial buffer is left unwritten after the
    header. *)
Theorem wav_file_is_header_and_interleaved_samples :
  forall audioBuffer,
    0 <= Wav.length audioBuffer ->
    exists wav,
      Wav.audioBufferToWav audioBuffer = Some wav
      /\ wav = header audioBuffer
               ++ flat_map
                    (fun i =>
                       flat_map (fun data => pcm16 (Wav.sampleOf data i))
                         (Wav.channelData audioBuffer))
                    (seq 0 (Z.to_nat (Wav.length audioBuffer)))
      /\ len (header audioBuffer) = 44
      /\ len wav
         = 44 + 2 * Wav.length audioBuffer * Wav.numberOfChannels audioBuffer
      /\ Forall isByte wav.
Proof.
  intros audioBuffer Hlen.
  exists (header audioBuffer
          ++ dataBytes (Wav.channelData audioBuffer) 0
               (Z.to_nat (Wav.length audioBuffer))).
  split; [apply audioBufferToWav_layout; exact Hlen |].
  split; [reflexivity |]. split; [reflexivity |]. split.
  - rewrite len_app. unfold len at 1 2.
    rewrite header_length, dataBytes_length.
    unfold Wav.numberOfChannels, len. nia.
  - apply Forall_app. split; [apply header_bytes | apply dataBytes_bytes].
Qed.

(** X18.  The header [audioBufferToWav] writes reads back as the
    parameters of the buffer.  When the sample rate, the byte rate and the
    sizes fit their fields, a reader finds [RIFF], the file size less 8,
    [WAVE], [fmt ], a format chunk of 16 bytes, PCM (1), the number of
    channels, the sample rate, the byte rate (sample rate times block
    size), the block size (two bytes a channel), 16 bits a sample, [data]
    and the size of what follows the header. *)
Theorem wav_header_reads_back :
  forall audioBuffer,
    0 <= Wav.length audioBuffer ->
    0 <= Wav.sampleRate audioBuffer < 2 ^ 32 ->
    Wav.sampleRate audioBuffer * Wav.numberOfChannels audioBuffer * 2 < 2 ^ 32 ->
    Wav.numberOfChannels audioBuffer * 2 < 2 ^ 16 ->
    36 + Wav.length audioBuffer * Wav.numberOfChannels audioBuffer * 2 < 2 ^ 32 ->
    exists wav,
      Wav.audioBufferToWav audioBuffer = Some wav
      /\ getChars 4 0 wav = charBytes (str "RIFF")
      /\ getUint 4 4 wav = len wav - 8
      /\ getChars 4 8 wav = charBytes (str "WAVE")
      /\ getChars 4 12 wav = charBytes (str "fmt ")
      /\ getUint 4 16 wav = 16
      /\ getUint 2 20 wav = 1
      /\ getUint 2 22 wav = Wav.numberOfChannels audioBuffer
      /\ getUint 4 24 wav = Wav.sampleRate audioBuffer
      /\ getUint 4 28 wav = Wav.sampleRate audioBuffer * getUint 2 32 wav
      /\ getUint 2 32 wav = 2 * Wav.numberOfChannels audioBuffer
      /\ getUint 2 34 wav = 16
      /\ getChars 4 36 wav = charBytes (str "data")
      /\ getUint 4 40 wav = len wav - 44.
Proof.
  intros audioBuffer Hlen Hrate Hbyte Hblock Hsize.
  destruct (wav_layout_sizes audioBuffer Hlen) as (wav & Hwav & Heq & Hsz).
  exists wav. split; [exact Hwav |].
  assert (Hn : 0 <= Wav.numberOfChannels audioBuffer) by apply len_nonneg.
  rewrite Hsz. subst wav. unfold header. cbv zeta.
  set (numChannels := Wav.numberOfChannels audioBuffer) in *.
  set (dataSize := Wav.length audioBuffer * numChannels * 2) in *.
  assert (Hd : 0 <= dataSize) by (unfold dataSize; nia).
  unfold getUint, getChars, Wav.littleEndian, charBytes.
  cbn [str map list_ascii_of_string seq app skipn firstn fold_right].
  repeat match goal with
         | |- context [(?v / 256 ^ Z.of_nat 0) mod 256
                       + 256 * ((?v / 256 ^ Z.of_nat 1) mod 256
                                + 256 * ((?v / 256 ^ Z.of_nat 2) mod 256 + _))] =>
             let E := fresh "E" in
             pose proof (uint32_value v) as E;
             unfold Wav.littleEndian in E; cbn [map seq fold_right] in E;
             rewrite E by lia; clear E
         | |- context [(?v / 256 ^ Z.of_nat 0) mod 256
                       + 256 * ((?v / 256 ^ Z.of_nat 1) mod 256 + 256 * 0)] =>
             let E := fresh "E" in
             pose proof (uint16_value v) as E;
             unfold Wav.littleEndian in E; cbn [map seq fold_right] in E;
             rewrite E by lia; clear E
         end.
  repeat split; try reflexivity; lia.
Qed.

Section WavScenarios.

(** Two frames of stereo sound at 44.1 kHz: a half and a full positive
    swing on the left, a full negative swing and silence on the right. *)
Definition twoFrames : Wav.AudioBuffer :=
  {| Wav.sampleRate := 44100; Wav.length := 2;
     Wav.channelData := [[0.5%float; 1%float]; [(-1)%float; 0%float]] |}.

Lemma wav_file_is_header_and_interleaved_samples_witness :
  0 <= Wav.length twoFrames
  /\ Wav.audioBufferToWav twoFrames
     = Some ([82; 73; 70; 70; 44; 0; 0; 0; 87; 65; 86; 69;
              102; 109; 116; 32; 16; 0; 0; 0; 1; 0; 2; 0;
              68; 172; 0; 0; 16; 177; 2; 0; 4; 0; 16; 0;
              100; 97; 116; 97; 8; 0; 0; 0]
             ++ [255; 63; 1; 128; 255; 127; 0; 0])
  /\ exists wav,
      Wav.audioBufferToWav twoFrames = Some wav
      /\ wav = header twoFrames
               ++ flat_map
                    (fun i =>
                       flat_map (fun data => pcm16 (Wav.sampleOf data i))
                         (Wav.channelData twoFrames))
                    (seq 0 (Z.to_nat (Wav.length twoFrames)))
      /\ len (header twoFrames) = 44
      /\ len wav
         = 44 + 2 * Wav.length twoFrames * Wav.numberOfChannels twoFrames
      /\ Forall isByte wav.
Proof.
  split; [vm_compute; discriminate |].
  split; [vm_compute; reflexivity |].
  apply (wav_file_is_header_and_interleaved_samples twoFrames).
  vm_compute; discriminate.
Defined.

Lemma wav_header_reads_back_witness :
  exists wav,
    Wav.audioBufferToWav twoFrames = Some wav
    /\ getChars 4 0 wav = charBytes (str "RIFF")
    /\ getUint 4 4 wav = len wav - 8
    /\ getChars 4 8 wav = charBytes (str "WAVE")
    /\ getChars 4 12 wav = charBytes (str "fmt ")
    /\ getUint 4 16 wav = 16
    /\ getUint 2 20 wav = 1
    /\ getUint 2 22 wav = Wav.numberOfChannels twoFrames
    /\ getUint 4 24 wav = Wav.sampleRate twoFrames
    /\ getUint 4 28 wav = Wav.sampleRate twoFrames * getUint 2 32 wav
    /\ getUint 2 32 wav = 2 * Wav.numberOfChannels twoFrames
    /\ getUint 2 34 wav = 16
    /\ getChars 4 36 wav = charBytes (str "data")
    /\ getUint 4 40 wav = len wav - 44.
Proof.
  apply (wav_header_reads_back twoFrames).
  - vm_compute; discriminate.
  - split; vm_compute; [discriminate | reflexivity].
  - vm_compute; reflexivity.
  - vm_compute; reflexivity.
  - vm_compute; reflexivity.
Defined.

End WavScenarios.

(** ** The statistics of the usage monitor *)

Section StatsFacts.

Import apiUsageMonitor.

(** The entry a recorded call leaves in the log. *)
Definition entryOfCall (c : recorded) : entry :=
  match c with
  | (now, ep, md, ok, ec) =>
      {| timestamp := now; endpoint := ep; model := md;
         success := ok; errorCode := ec |}
  end.

Lemma recordAll_log :
  forall calls this,
    len (usageLog this) <= maxLogSize this ->
    maxLogSize (recordAll calls this) = maxLogSize this
    /\ usageLog (recordAll calls this)
       = firstn (Z.to_nat (maxLogSize this))
           (rev (map entryOfCall calls) ++ usageLog this).
Proof.
  intros cs. induction cs as [| c cs IH]; intros this Hcap.
  - cbn. split; [reflexivity |].
    symmetry. apply firstn_all2. unfold len in Hcap. lia.
  - unfold recordAll in *. cbn [fold_left].
    destruct c as [[[[now ep] md] ok] ec].
    pose proof (logApiCall_firstn now ep md ok ec this Hcap) as Hlog.
    set (this' := fst (logApiCall now ep md ok ec this)) in *.
    assert (Hmax : maxLogSize this' = maxLogSize this) by reflexivity.
    destruct (IH this') as (Hm & Hu).
    { rewrite Hmax, Hlog. unfold len in *. rewrite length_firstn. lia. }
    split; [rewrite Hm; exact Hmax |].
    rewrite Hu, Hmax, Hlog, firstn_app_firstn.
    cbn [map rev entryOfCall]. rewrite <- app_assoc. reflexivity.
Qed.

(** The text of a rate of [n] tenths of a percent. *)
Definition tenthsText (n : Z) : jsstring :=
  JsString.ofZ (n / 10) ++ str "." ++ JsString.ofZ (n mod 10).

(** [(success / total * 100).toFixed(1)] *)
Definition rateText (success total : Z) : jsstring :=
  JsNumber.toFixed1
    (PrimFloat.mul (PrimFloat.div (JsNumber.ofZ success) (JsNumber.ofZ total))
                   (JsNumber.ofZ 100)).

(** The tenth nearest to [1000 * success / total], the upper one on a tie,
    and what is accepted of [rateText]: that tenth, or on a tie the lower
    one. *)
Definition nearestTenth (success total : Z) : Z :=
  (2000 * success + total) / (2 * total).

Definition rateAccurate (success total : Z) : bool :=
  let n := nearestTenth success total in
  JsString.eqb (rateText success total) (tenthsText n)
  || JsString.eqb (rateText success total) (tenthsText (n - 1))
     && (2 * (1000 * success - (n - 1) * total) =? total).

Definition successRateTable : bool :=
  forallb
    (fun total =>
       forallb
         (fun success => rateAccurate (Z.of_nat success) (Z.of_nat total))
         (seq 0 (S total)))
    (seq 1 100).

Lemma successRateTable_holds : successRateTable = true.
Proof. vm_compute. reflexivity. Qed.

Lemma eqb_eq : forall s t, JsString.eqb s t = true -> s = t.
Proof.
  induction s as [| a s IH]; intros [| b t] H; cbn in H;
    try discriminate; [reflexivity |].
  apply andb_prop in H. destruct H as [Hab Hst].
  apply N.eqb_eq in Hab. rewrite Hab, (IH t Hst). reflexivity.
Qed.

Lemma rateText_accurate :
  forall success total,
    0 <= success <= total -> 1 <= total <= 100 ->
    exists n,
      rateText success total = tenthsText n
      /\ 0 <= n <= 1000
      /\ 2 * Z.abs (1000 * success - n * total) <= total.
Proof.
  intros success total Hs Ht.
  pose proof successRateTable_holds as H. unfold successRateTable in H.
  rewrite forallb_forall in H.
  assert (Hrow := H (Z.to_nat total) ltac:(apply in_seq; lia)).
  rewrite forallb_forall in Hrow.
  assert (Hcell := Hrow (Z.to_nat success) ltac:(apply in_seq; lia)).
  rewrite !Z2Nat.id in Hcell by lia.
  unfold rateAccurate in Hcell. cbv zeta in Hcell.
  set (n := nearestTenth success total) in *.
  assert (Hn : 2 * total * n <= 2000 * success + total < 2 * total * n + 2 * total).
  { unfold n, nearestTenth.
    pose proof (Z.mul_div_le (2000 * success + total) (2 * total) ltac:(lia)).
    pose proof (Z.mul_succ_div_gt (2000 * success + total) (2 * total) ltac:(lia)).
    lia. }
  apply orb_prop in Hcell. destruct Hcell as [Hup | Hdown].
  - exists n. split; [apply eqb_eq; exact Hup |]. split; [nia | lia].
  - apply andb_prop in Hdown. destruct Hdown as [Htext Htie].
    apply Z.eqb_eq in Htie.
    exists (n - 1). split; [apply eqb_eq; exact Htext |]. split; [nia | lia].
Qed.

End StatsFacts.

(** X19.  The statistics cover the last 100 calls.  After any sequence of
    calls recorded on the initial monitor, the log is the entries of the
    last 100 of them, newest first, and [getUsageStats] reports as total
    the number of calls or 100, whichever is less, and as successes and
    failures the successful and the failed ones among those. *)
Theorem usage_stats_cover_the_last_100_calls :
  forall calls,
    let this := recordAll calls apiUsageMonitor.initial in
    let kept := firstn 100 (rev (map entryOfCall calls)) in
    let stats := fst (apiUsageMonitor.getUsageStats this) in
    apiUsageMonitor.usageLog this = kept
    /\ apiUsageMonitor.Stats.total stats = Z.min 100 (len calls)
    /\ apiUsageMonitor.Stats.success stats
       = len (filter (fun e => success e) kept)
    /\ apiUsageMonitor.Stats.failure stats
       = len (filter (fun e => negb (success e)) kept).
Proof.
  intros calls. cbv zeta.
  destruct (recordAll_log calls apiUsageMonitor.initial) as (_ & Hlog).
  { vm_compute. discriminate. }
  change (Z.to_nat (apiUsageMonitor.maxLogSize apiUsageMonitor.initial))
    with 100%nat in Hlog.
  change (apiUsageMonitor.usageLog apiUsageMonitor.initial)
    with (@nil entry) in Hlog.
  rewrite app_nil_r in Hlog.
  set (kept := firstn 100 (rev (map entryOfCall calls))) in *.
  assert (Hlen : len kept = Z.min 100 (len calls)).
  { unfold kept, len. rewrite length_firstn, length_rev, length_map. lia. }
  assert (Hparts : len kept
                   = len (filter (fun e => success e) kept)
                     + len (filter (fun e => negb (success e)) kept)).
  { clear. unfold len. induction kept as [| e kept IH]; [reflexivity |].
    cbn [filter]. destruct (success e); cbn [negb List.length]; lia. }
  split; [exact Hlog |].
  unfold apiUsageMonitor.getUsageStats. rewrite Hlog.
  destruct (Z.eqb_spec (len kept) 0) as [Hzero | Hpos];
    cbn [fst apiUsageMonitor.Stats.total apiUsageMonitor.Stats.success
         apiUsageMonitor.Stats.failure].
  - pose proof (len_nonneg (filter (fun e => success e) kept)).
    pose proof (len_nonneg (filter (fun e => negb (success e)) kept)).
    repeat split; lia.
  - repeat split; lia.
Qed.

(** X20.  On a log of 1 to 100 entries, the [successRate] that
    [getUsageStats] reports is the percentage of successful calls rounded
    to one decimal: the text [d.d%] of a number of tenths between 0 and
    1000 that is nearest to the true rate, the binary floating-point
    arithmetic never moving it by more than half a tenth. *)
Theorem successRate_is_the_rounded_percentage :
  forall this,
    1 <= len (apiUsageMonitor.usageLog this) <= 100 ->
    let total := len (apiUsageMonitor.usageLog this) in
    let succeeded :=
      len (filter (fun call => success call) (apiUsageMonitor.usageLog this)) in
    exists n,
      apiUsageMonitor.Stats.successRate (fst (apiUsageMonitor.getUsageStats this))
      = Some (tenthsText n ++ str "%")
      /\ 0 <= n <= 1000
      /\ 2 * Z.abs (1000 * succeeded - n * total) <= total.
Proof.
  intros this Hlen. cbv zeta.
  set (total := len (apiUsageMonitor.usageLog this)) in *.
  set (succeeded :=
         len (filter (fun call => success call) (apiUsageMonitor.usageLog this))).
  assert (Hs : 0 <= succeeded <= total).
  { unfold succeeded, total, len.
    pose proof (filter_length_le (fun call => success call)
                  (apiUsageMonitor.usageLog this)). lia. }
  destruct (rateText_accurate succeeded total Hs Hlen) as (n & Htext & Hn & Hnear).
  exists n. split; [| split; assumption].
  unfold apiUsageMonitor.getUsageStats. fold total.
  replace (total =? 0) with false by (symmetry; apply Z.eqb_neq; lia).
  cbn [fst apiUsageMonitor.Stats.successRate]. fold succeeded.
  fold (rateText succeeded total). rewrite Htext. reflexivity.
Qed.

Section StatsScenarios.

(** A monitor that has seen two successes and one failure. *)
Definition twoOfThree : apiUsageMonitor.t :=
  recordAll
    [(0, str "chat", str "gpt-4", true, None);
     (1, str "chat", str "gpt-4", false, Some 500);
     (2, str "chat", str "gpt-4", true, None)]
    apiUsageMonitor.initial.

Lemma successRate_is_the_rounded_percentage_witness :
  1 <= len (apiUsageMonitor.usageLog twoOfThree) <= 100
  /\ apiUsageMonitor.Stats.successRate
       (fst (apiUsageMonitor.getUsageStats twoOfThree))
     = Some (str "66.7%")
  /\ exists n,
      apiUsageMonitor.Stats.successRate
        (fst (apiUsageMonitor.getUsageStats twoOfThree))
      = Some (tenthsText n ++ str "%")
      /\ 0 <= n <= 1000
      /\ 2 * Z.abs (1000
                    * len (filter (fun call => success call)
                             (apiUsageMonitor.usageLog twoOfThree))
                    - n * len (apiUsageMonitor.usageLog twoOfThree))
         <= len (apiUsageMonitor.usageLog twoOfThree).
Proof.
  split; [split; vm_compute; discriminate |].
  split; [vm_compute; reflexivity |].
  apply (successRate_is_the_rounded_percentage twoOfThree).
  split; vm_compute; discriminate.
Defined.

End StatsScenarios.
